(** * Drawpile: project store and network session client

    A shallow embedding of the session recording layer
    ([dpengine/project.c], [dpengine/project.h]) and of the message
    pipeline of the network client ([libclient/net/client.cpp]), with
    the properties the specification states about them.

    The embedded database engine (SQLite) is not part of the program;
    it is modelled here by a small database state and by an
    environment that decides which engine calls fail for reasons
    outside the program (I/O, memory, locking). *)

From Stdlib Require Import ZArith List String Ascii Bool Lia DecimalString
  Sorted.
Import ListNotations.
Local Open Scope string_scope.
Local Open Scope list_scope.
Local Open Scope Z_scope.

(** String concatenation, for the messages built by format strings. *)
Local Infix "+++" := String.append (at level 60, right associativity).

(* ================================================================== *)
(** * Machine integers *)
(* ================================================================== *)

Module CInt.

Definition LLONG_MAX : Z := 9223372036854775807.

(** Two's complement reading of a mathematical integer in [w] bits. *)
Definition wrap (w : Z) (z : Z) : Z :=
  (z + 2 ^ (w - 1)) mod 2 ^ w - 2 ^ (w - 1).

(** [int] and [long long]. Signed overflow is undefined behaviour in C
    and C++; the model takes the wrap-around every supported target
    performs. *)
Definition int32 (z : Z) : Z := wrap 32 z.
Definition int64 (z : Z) : Z := wrap 64 z.

Definition add32 (a b : Z) : Z := int32 (a + b).
Definition mul32 (a b : Z) : Z := int32 (a * b).
(** [/] on [int] truncates toward zero. *)
Definition div32 (a b : Z) : Z := int32 (Z.quot a b).

(** [%d] and [%lld]. *)
Definition dec (z : Z) : string := NilZero.string_of_int (Z.to_int z).

End CInt.

(* ================================================================== *)
(** * Bytes and the file system *)
(* ================================================================== *)

Definition byte := Byte.byte.

Definition byte_val (b : byte) : Z := Z.of_N (Byte.to_N b).

Fixpoint bytes_eqb (a b : list byte) : bool :=
  match a, b with
  | [], [] => true
  | x :: a', y :: b' => Byte.eqb x y && bytes_eqb a' b'
  | _, _ => false
  end.

(** [memcmp(a, b, n) == 0] on buffers that hold at least [n] bytes. *)
Definition memcmp_eq (a b : list byte) (n : nat) : bool :=
  bytes_eqb (firstn n a) (firstn n b).

(** Modelled from the spec: [DP_read_bigendian_int32] of
    [dpcommon/binary.h] is not among the sources; the specification
    calls the two header fields 4-byte big-endian integers, and the
    callers store the result in an [int]. *)
Definition DP_read_bigendian_int32 (p : list byte) : Z :=
  match p with
  | b0 :: b1 :: b2 :: b3 :: _ =>
      CInt.int32
        (Z.lor (Z.shiftl (byte_val b0) 24)
           (Z.lor (Z.shiftl (byte_val b1) 16)
              (Z.lor (Z.shiftl (byte_val b2) 8) (byte_val b3))))
  | _ => 0
  end.

(** Rows of the two tables the recording layer writes, as migration 1
    declares them. *)
Record SessionRow := {
  sr_session_id : Z;
  sr_source_type : Z;
  sr_source_param : option string;
  sr_protocol : string;
  sr_process_id : Z;
  sr_opened_at : Z;
  sr_closed_at : option Z
}.

Record MessageRow := {
  mr_session_id : Z;
  mr_sequence_id : Z;
  mr_recorded_at : Z;
  mr_type : Z;
  mr_context_id : Z;
  mr_body : option (list byte)
}.

(** A project file: the bytes a plain read of the file sees, and the
    content the database engine sees in it. *)
Record Database := {
  db_file : list byte;
  db_read_error : bool;
  db_readonly : bool;
  db_tables : list string;
  db_migrations : list Z;
  db_sessions : list SessionRow;
  db_messages : list MessageRow
}.

Definition FileSystem := string -> option Database.

Definition DP_file_input_new_from_path (fs : FileSystem) (path : string)
  : option Database := fs path.

(** [DP_input_read(input, buffer, size, &error)]: the buffer, the number
    of bytes read and the error flag. *)
Definition DP_input_read (input : Database) (size : nat)
  : list byte * Z * bool :=
  let buffer := firstn size (db_file input) in
  (buffer, Z.of_nat (List.length buffer), db_read_error input).

(* ================================================================== *)
(** * project.h *)
(* ================================================================== *)

Definition DP_PROJECT_APPLICATION_ID : Z := 520585024.
Definition DP_PROJECT_USER_VERSION : Z := 1.

Definition DP_PROJECT_CHECK_ERROR_OPEN : Z := -1.
Definition DP_PROJECT_CHECK_ERROR_READ : Z := -2.
Definition DP_PROJECT_CHECK_ERROR_HEADER : Z := -3.
Definition DP_PROJECT_CHECK_ERROR_MAGIC : Z := -4.
Definition DP_PROJECT_CHECK_ERROR_APPLICATION_ID : Z := -5.
Definition DP_PROJECT_CHECK_ERROR_USER_VERSION : Z := -6.

Definition DP_PROJECT_OPEN_EXISTING : Z := Z.shiftl 1 0.
Definition DP_PROJECT_OPEN_TRUNCATE : Z := Z.shiftl 1 1.

Inductive DP_ProjectSourceType :=
| DP_PROJECT_SOURCE_BLANK
| DP_PROJECT_SOURCE_FILE_OPEN
| DP_PROJECT_SOURCE_SESSION_JOIN.

Definition source_type_int (t : DP_ProjectSourceType) : Z :=
  match t with
  | DP_PROJECT_SOURCE_BLANK => 0
  | DP_PROJECT_SOURCE_FILE_OPEN => 1
  | DP_PROJECT_SOURCE_SESSION_JOIN => 2
  end.

(* ================================================================== *)
(** * DP_project_check *)
(* ================================================================== *)

(** "SQLite format 3\0" in ASCII. *)
Definition magic : list byte :=
  [Byte.x53; Byte.x51; Byte.x4c; Byte.x69; Byte.x74; Byte.x65; Byte.x20;
   Byte.x66; Byte.x6f; Byte.x72; Byte.x6d; Byte.x61; Byte.x74; Byte.x20;
   Byte.x33; Byte.x00].

Definition DP_project_check (fs : FileSystem) (path : string) : Z :=
  match DP_file_input_new_from_path fs path with
  | None => DP_PROJECT_CHECK_ERROR_OPEN
  | Some input =>
      let '(buffer, read, error) := DP_input_read input 72 in
      if error then DP_PROJECT_CHECK_ERROR_READ
      else if read <? 72 then DP_PROJECT_CHECK_ERROR_HEADER
      else if negb (memcmp_eq buffer magic 16)
      then DP_PROJECT_CHECK_ERROR_MAGIC
      else
        let application_id := DP_read_bigendian_int32 (skipn 68 buffer) in
        if negb (application_id =? DP_PROJECT_APPLICATION_ID)
        then DP_PROJECT_CHECK_ERROR_APPLICATION_ID
        else
          let user_version := DP_read_bigendian_int32 (skipn 60 buffer) in
          if user_version <? 1 then DP_PROJECT_CHECK_ERROR_USER_VERSION
          else user_version
  end.

(* ================================================================== *)
(** * The database engine *)
(* ================================================================== *)

Module Sqlite.

Definition SQLITE_OK : Z := 0.
Definition SQLITE_ROW : Z := 100.
Definition SQLITE_DONE : Z := 101.

(** The primary error codes of the engine. *)
Inductive Error :=
| SQLITE_ERROR | SQLITE_INTERNAL | SQLITE_PERM | SQLITE_ABORT
| SQLITE_BUSY | SQLITE_LOCKED | SQLITE_NOMEM | SQLITE_READONLY
| SQLITE_INTERRUPT | SQLITE_IOERR | SQLITE_CORRUPT | SQLITE_NOTFOUND
| SQLITE_FULL | SQLITE_CANTOPEN | SQLITE_PROTOCOL | SQLITE_EMPTY
| SQLITE_SCHEMA | SQLITE_TOOBIG | SQLITE_CONSTRAINT | SQLITE_MISMATCH
| SQLITE_MISUSE | SQLITE_NOLFS | SQLITE_AUTH | SQLITE_FORMAT
| SQLITE_RANGE | SQLITE_NOTADB.

Definition code (e : Error) : Z :=
  match e with
  | SQLITE_ERROR => 1 | SQLITE_INTERNAL => 2 | SQLITE_PERM => 3
  | SQLITE_ABORT => 4 | SQLITE_BUSY => 5 | SQLITE_LOCKED => 6
  | SQLITE_NOMEM => 7 | SQLITE_READONLY => 8 | SQLITE_INTERRUPT => 9
  | SQLITE_IOERR => 10 | SQLITE_CORRUPT => 11 | SQLITE_NOTFOUND => 12
  | SQLITE_FULL => 13 | SQLITE_CANTOPEN => 14 | SQLITE_PROTOCOL => 15
  | SQLITE_EMPTY => 16 | SQLITE_SCHEMA => 17 | SQLITE_TOOBIG => 18
  | SQLITE_CONSTRAINT => 19 | SQLITE_MISMATCH => 20 | SQLITE_MISUSE => 21
  | SQLITE_NOLFS => 22 | SQLITE_AUTH => 23 | SQLITE_FORMAT => 24
  | SQLITE_RANGE => 25 | SQLITE_NOTADB => 26
  end.

(** A value bound to a parameter of a prepared statement. *)
Inductive Value :=
| Null
| Int (z : Z)
| Text (s : string)
| Blob (b : list byte).

End Sqlite.
Import Sqlite.

(** The three statements a project keeps prepared
    ([DP_PROJECT_STATEMENT_COUNT] is their number). *)
Inductive DP_ProjectStatement :=
| DP_PROJECT_STATEMENT_MESSAGE_INSERT
| DP_PROJECT_STATEMENT_SESSION_OPEN
| DP_PROJECT_STATEMENT_SESSION_CLOSE.

Definition DP_PROJECT_STATEMENT_COUNT : nat := 3.

Definition ps_index (ps : DP_ProjectStatement) : nat :=
  match ps with
  | DP_PROJECT_STATEMENT_MESSAGE_INSERT => 0
  | DP_PROJECT_STATEMENT_SESSION_OPEN => 1
  | DP_PROJECT_STATEMENT_SESSION_CLOSE => 2
  end.

Definition ps_eqb (a b : DP_ProjectStatement) : bool :=
  Nat.eqb (ps_index a) (ps_index b).

(** The one-row queries of [exec_int_stmt]. *)
Inductive Query :=
| QuerySchemaRow      (* select 1 from sqlite_master limit 1 *)
| QueryApplicationId  (* pragma application_id *)
| QueryUserVersion.   (* pragma user_version *)

(** The statements run through [sqlite3_exec]. *)
Inductive Exec :=
| ExecBegin
| ExecCommit
| ExecRollback
| ExecSetApplicationId  (* pragma application_id = 520585024 *)
| ExecSetUserVersion    (* pragma user_version = 1 *)
| ExecCreateMigrations  (* create table if not exists migrations (...) *)
| ExecMigration (n : nat)
| ExecVacuum.

(** The statements that get prepared. *)
Inductive Sql :=
| SqlQuery (q : Query)
| SqlInsertMigration  (* insert or ignore into migrations ... values (?) *)
| SqlProject (ps : DP_ProjectStatement).

Definition query_text (q : Query) : string :=
  match q with
  | QuerySchemaRow => "select 1 from sqlite_master limit 1"
  | QueryApplicationId => "pragma application_id"
  | QueryUserVersion => "pragma user_version"
  end.

Definition sqls (ps : DP_ProjectStatement) : string :=
  match ps with
  | DP_PROJECT_STATEMENT_MESSAGE_INSERT =>
      "insert into messages (session_id, sequence_id, recorded_at, type, "
      +++ "context_id, body) values (?, ?, unixepoch('subsec'), ? ,?, ?)"
  | DP_PROJECT_STATEMENT_SESSION_OPEN =>
      "insert into sessions (source_type, source_param, protocol, "
      +++ "process_id, opened_at) values (?, ?, ?, ?, unixepoch('subsec'))"
  | DP_PROJECT_STATEMENT_SESSION_CLOSE =>
      "update sessions set closed_at = unixepoch('subsec') "
      +++ "where session_id = ?"
  end.

Definition sql_text (s : Sql) : string :=
  match s with
  | SqlQuery q => query_text q
  | SqlInsertMigration =>
      "insert or ignore into migrations (migration_id) values (?)"
  | SqlProject ps => sqls ps
  end.

(** The calls into the engine that can fail for reasons the program does
    not control. *)
Inductive EngineCall :=
| CallOpen
| CallExec (e : Exec)
| CallPrepare (s : Sql)
| CallBind (s : Sql) (param : Z)
| CallStep (s : Sql)
| CallReset (s : Sql)
| CallClearBindings (s : Sql)
| CallClose.

(** The environment of one call of the API: which engine calls fail and
    with what code ([None]: the call is carried out), the engine's error
    text, the clock and the process id. *)
Record Env := {
  env_fault : EngineCall -> option Error;
  env_errmsg : option string;
  env_now : Z;
  env_pid : Z
}.

(** The state behind a [sqlite3 *] connection, together with the error
    slot of [DP_error_set] and the warnings logged by [DP_warn]. *)
Record World := {
  w_db : Database;
  w_snapshot : option Database;
  w_bound : list (DP_ProjectStatement * Z * Value);
  w_last_insert_rowid : Z;
  w_connected : bool;
  w_live : list nat;
  w_next : nat;
  w_finalized : list (option nat);
  w_error : string;
  w_warnings : list string
}.

(** Field updates. *)
Definition with_messages (rows : list MessageRow) (d : Database) : Database :=
  {| db_file := db_file d; db_read_error := db_read_error d;
     db_readonly := db_readonly d; db_tables := db_tables d;
     db_migrations := db_migrations d; db_sessions := db_sessions d;
     db_messages := rows |}.

Definition with_sessions (rows : list SessionRow) (d : Database) : Database :=
  {| db_file := db_file d; db_read_error := db_read_error d;
     db_readonly := db_readonly d; db_tables := db_tables d;
     db_migrations := db_migrations d; db_sessions := rows;
     db_messages := db_messages d |}.

Definition with_migrations (ids : list Z) (d : Database) : Database :=
  {| db_file := db_file d; db_read_error := db_read_error d;
     db_readonly := db_readonly d; db_tables := db_tables d;
     db_migrations := ids; db_sessions := db_sessions d;
     db_messages := db_messages d |}.

Definition with_tables (names : list string) (d : Database) : Database :=
  {| db_file := db_file d; db_read_error := db_read_error d;
     db_readonly := db_readonly d; db_tables := names;
     db_migrations := db_migrations d; db_sessions := db_sessions d;
     db_messages := db_messages d |}.

Definition with_file (bytes : list byte) (d : Database) : Database :=
  {| db_file := bytes; db_read_error := db_read_error d;
     db_readonly := db_readonly d; db_tables := db_tables d;
     db_migrations := db_migrations d; db_sessions := db_sessions d;
     db_messages := db_messages d |}.

Definition with_db (d : Database) (w : World) : World :=
  {| w_db := d; w_snapshot := w_snapshot w; w_bound := w_bound w;
     w_last_insert_rowid := w_last_insert_rowid w;
     w_connected := w_connected w; w_live := w_live w; w_next := w_next w;
     w_finalized := w_finalized w; w_error := w_error w;
     w_warnings := w_warnings w |}.

Definition with_snapshot (s : option Database) (w : World) : World :=
  {| w_db := w_db w; w_snapshot := s; w_bound := w_bound w;
     w_last_insert_rowid := w_last_insert_rowid w;
     w_connected := w_connected w; w_live := w_live w; w_next := w_next w;
     w_finalized := w_finalized w; w_error := w_error w;
     w_warnings := w_warnings w |}.

Definition with_bound (b : list (DP_ProjectStatement * Z * Value)) (w : World)
  : World :=
  {| w_db := w_db w; w_snapshot := w_snapshot w; w_bound := b;
     w_last_insert_rowid := w_last_insert_rowid w;
     w_connected := w_connected w; w_live := w_live w; w_next := w_next w;
     w_finalized := w_finalized w; w_error := w_error w;
     w_warnings := w_warnings w |}.

Definition with_last_insert_rowid (r : Z) (w : World) : World :=
  {| w_db := w_db w; w_snapshot := w_snapshot w; w_bound := w_bound w;
     w_last_insert_rowid := r;
     w_connected := w_connected w; w_live := w_live w; w_next := w_next w;
     w_finalized := w_finalized w; w_error := w_error w;
     w_warnings := w_warnings w |}.

Definition with_connected (c : bool) (w : World) : World :=
  {| w_db := w_db w; w_snapshot := w_snapshot w; w_bound := w_bound w;
     w_last_insert_rowid := w_last_insert_rowid w;
     w_connected := c; w_live := w_live w; w_next := w_next w;
     w_finalized := w_finalized w; w_error := w_error w;
     w_warnings := w_warnings w |}.

Definition with_live (l : list nat) (next : nat) (w : World) : World :=
  {| w_db := w_db w; w_snapshot := w_snapshot w; w_bound := w_bound w;
     w_last_insert_rowid := w_last_insert_rowid w;
     w_connected := w_connected w; w_live := l; w_next := next;
     w_finalized := w_finalized w; w_error := w_error w;
     w_warnings := w_warnings w |}.

Definition with_finalized (f : list (option nat)) (w : World) : World :=
  {| w_db := w_db w; w_snapshot := w_snapshot w; w_bound := w_bound w;
     w_last_insert_rowid := w_last_insert_rowid w;
     w_connected := w_connected w; w_live := w_live w; w_next := w_next w;
     w_finalized := f; w_error := w_error w;
     w_warnings := w_warnings w |}.

(** [DP_error_set]: the process-visible error slot. *)
Definition DP_error_set (message : string) (w : World) : World :=
  {| w_db := w_db w; w_snapshot := w_snapshot w; w_bound := w_bound w;
     w_last_insert_rowid := w_last_insert_rowid w;
     w_connected := w_connected w; w_live := w_live w; w_next := w_next w;
     w_finalized := w_finalized w; w_error := message;
     w_warnings := w_warnings w |}.

(** [DP_warn]: a log line. *)
Definition DP_warn (message : string) (w : World) : World :=
  {| w_db := w_db w; w_snapshot := w_snapshot w; w_bound := w_bound w;
     w_last_insert_rowid := w_last_insert_rowid w;
     w_connected := w_connected w; w_live := w_live w; w_next := w_next w;
     w_finalized := w_finalized w; w_error := w_error w;
     w_warnings := w_warnings w ++ [message] |}.

(** ** Prepared project statements *)

Definition bound_value (w : World) (ps : DP_ProjectStatement) (param : Z)
  : Value :=
  match find (fun b => ps_eqb (fst (fst b)) ps && (snd (fst b) =? param))
             (w_bound w) with
  | Some b => snd b
  | None => Null
  end.

Definition sqlite3_bind (env : Env) (ps : DP_ProjectStatement) (param : Z)
    (v : Value) (w : World) : Z * World :=
  match env_fault env (CallBind (SqlProject ps) param) with
  | Some e => (code e, w)
  | None => (SQLITE_OK, with_bound ((ps, param, v) :: w_bound w) w)
  end.

Definition sqlite3_clear_bindings (env : Env) (ps : DP_ProjectStatement)
    (w : World) : Z * World :=
  match env_fault env (CallClearBindings (SqlProject ps)) with
  | Some e => (code e, w)
  | None =>
      (SQLITE_OK,
       with_bound (filter (fun b => negb (ps_eqb (fst (fst b)) ps)) (w_bound w))
                  w)
  end.

Definition sqlite3_reset (env : Env) (ps : DP_ProjectStatement) : Z :=
  match env_fault env (CallReset (SqlProject ps)) with
  | Some e => code e
  | None => SQLITE_OK
  end.

(** The rowid the engine gives to a row inserted without one: 1 in an
    empty table, else one more than the largest in use. *)
Definition next_rowid (rows : list SessionRow) : Z :=
  match map sr_session_id rows with
  | [] => 1
  | x :: xs => fold_left Z.max xs x + 1
  end.

Definition key_in_use (sid seq : Z) (rows : list MessageRow) : bool :=
  existsb (fun r => (mr_session_id r =? sid) && (mr_sequence_id r =? seq)) rows.

(** [insert into messages ... values (?1, ?2, now, ?3, ?4, ?5)]: the four
    integer columns are [not null] and (session_id, sequence_id) is the
    primary key. *)
Definition step_message_insert (env : Env) (w : World) : Z * World :=
  let ps := DP_PROJECT_STATEMENT_MESSAGE_INSERT in
  match bound_value w ps 1, bound_value w ps 2,
        bound_value w ps 3, bound_value w ps 4 with
  | Int sid, Int seq, Int type, Int context_id =>
      if key_in_use sid seq (db_messages (w_db w))
      then (code SQLITE_CONSTRAINT, w)
      else
        let body := match bound_value w ps 5 with
                    | Blob b => Some b
                    | _ => None
                    end in
        let row := {| mr_session_id := sid; mr_sequence_id := seq;
                      mr_recorded_at := env_now env; mr_type := type;
                      mr_context_id := context_id; mr_body := body |} in
        (SQLITE_DONE,
         with_db (with_messages (db_messages (w_db w) ++ [row]) (w_db w)) w)
  | _, _, _, _ => (code SQLITE_CONSTRAINT, w)
  end.

(** [insert into sessions (source_type, source_param, protocol,
    process_id, opened_at) values (?1, ?2, ?3, ?4, now)]. *)
Definition step_session_open (env : Env) (w : World) : Z * World :=
  let ps := DP_PROJECT_STATEMENT_SESSION_OPEN in
  match bound_value w ps 1, bound_value w ps 3, bound_value w ps 4 with
  | Int source_type, Text protocol, Int process_id =>
      let source_param := match bound_value w ps 2 with
                          | Text s => Some s
                          | _ => None
                          end in
      let rowid := next_rowid (db_sessions (w_db w)) in
      let row := {| sr_session_id := rowid; sr_source_type := source_type;
                    sr_source_param := source_param; sr_protocol := protocol;
                    sr_process_id := process_id; sr_opened_at := env_now env;
                    sr_closed_at := None |} in
      (SQLITE_DONE,
       with_last_insert_rowid rowid
         (with_db (with_sessions (db_sessions (w_db w) ++ [row]) (w_db w)) w))
  | _, _, _ => (code SQLITE_CONSTRAINT, w)
  end.

Definition close_row (now sid : Z) (r : SessionRow) : SessionRow :=
  if sr_session_id r =? sid
  then {| sr_session_id := sr_session_id r;
          sr_source_type := sr_source_type r;
          sr_source_param := sr_source_param r;
          sr_protocol := sr_protocol r; sr_process_id := sr_process_id r;
          sr_opened_at := sr_opened_at r; sr_closed_at := Some now |}
  else r.

(** [update sessions set closed_at = now where session_id = ?1]. *)
Definition step_session_close (env : Env) (w : World) : Z * World :=
  match bound_value w DP_PROJECT_STATEMENT_SESSION_CLOSE 1 with
  | Int sid =>
      (SQLITE_DONE,
       with_db (with_sessions (map (close_row (env_now env) sid)
                                   (db_sessions (w_db w))) (w_db w)) w)
  | _ => (SQLITE_DONE, w)
  end.

Definition sqlite3_step (env : Env) (ps : DP_ProjectStatement) (w : World)
  : Z * World :=
  match env_fault env (CallStep (SqlProject ps)) with
  | Some e => (code e, w)
  | None =>
      match ps with
      | DP_PROJECT_STATEMENT_MESSAGE_INSERT => step_message_insert env w
      | DP_PROJECT_STATEMENT_SESSION_OPEN => step_session_open env w
      | DP_PROJECT_STATEMENT_SESSION_CLOSE => step_session_close env w
      end
  end.

(* ================================================================== *)
(** * project.c: sessions and messages *)
(* ================================================================== *)

(** [struct DP_Project]; the [db] field is the connection, whose state
    is the [World]. A slot of [stmts] that was never assigned is [None]. *)
Record DP_Project := {
  session_id : Z;
  sequence_id : Z;
  stmts : list (option nat);
  serialize_buffer : list byte
}.

Definition set_session_id (v : Z) (prj : DP_Project) : DP_Project :=
  {| session_id := v; sequence_id := sequence_id prj; stmts := stmts prj;
     serialize_buffer := serialize_buffer prj |}.

Definition set_sequence_id (v : Z) (prj : DP_Project) : DP_Project :=
  {| session_id := session_id prj; sequence_id := v; stmts := stmts prj;
     serialize_buffer := serialize_buffer prj |}.

Definition set_serialize_buffer (b : list byte) (prj : DP_Project)
  : DP_Project :=
  {| session_id := session_id prj; sequence_id := sequence_id prj;
     stmts := stmts prj; serialize_buffer := b |}.

(** Calls that change the project and the connection. *)
Definition State : Type := DP_Project * World.
Definition M (A : Type) : Type := State -> A * State.

(** [a && b] where both operands have effects: [b] runs only after [a]
    gave true. *)
Definition and_then {St : Type} (a b : St -> bool * St) : St -> bool * St :=
  fun s => let '(r, s1) := a s in if r then b s1 else (false, s1).

Local Infix "&&>" := and_then (at level 41, right associativity).

Definition is_ok (result : Z) : bool := result =? SQLITE_OK.

Definition db_error (env : Env) : string :=
  match env_errmsg env with
  | Some message => message
  | None => "unknown error"
  end.

Definition prj_db_error (env : Env) : string := db_error env.

Definition ps_title (ps : DP_ProjectStatement) : string :=
  match ps with
  | DP_PROJECT_STATEMENT_MESSAGE_INSERT => "message insert"
  | DP_PROJECT_STATEMENT_SESSION_OPEN => "session open"
  | DP_PROJECT_STATEMENT_SESSION_CLOSE => "session close"
  end.

(** The four binders differ in the value they bind and in their message. *)
Definition ps_bind (kind : string) (env : Env) (ps : DP_ProjectStatement)
    (param : Z) (v : Value) : M bool :=
  fun s =>
    let '(bind_result, w) := sqlite3_bind env ps param v (snd s) in
    if is_ok bind_result then (true, (fst s, w))
    else
      (false,
       (fst s,
        DP_error_set
          ("Error " +++ CInt.dec bind_result +++ " binding " +++ kind
           +++ " parameter " +++ CInt.dec param +++ " to " +++ ps_title ps
           +++ ": " +++ prj_db_error env) w)).

Definition ps_bind_int (env : Env) (ps : DP_ProjectStatement) (param : Z)
    (value : Z) : M bool :=
  ps_bind "int" env ps param (Int value).

Definition ps_bind_int64 (env : Env) (ps : DP_ProjectStatement) (param : Z)
    (value : Z) : M bool :=
  ps_bind "int64" env ps param (Int value).

Definition ps_bind_blob (env : Env) (ps : DP_ProjectStatement) (param : Z)
    (value : list byte) (length : Z) : M bool :=
  ps_bind "blob" env ps param (Blob (firstn (Z.to_nat length) value)).

(** A null pointer binds NULL; the message says "blob" here too. *)
Definition ps_bind_text (env : Env) (ps : DP_ProjectStatement) (param : Z)
    (value : option string) : M bool :=
  ps_bind "blob" env ps param
    (match value with Some s => Text s | None => Null end).

(** [out_insert_rowid] is a pointer to a field of the project, or NULL. *)
Definition ps_exec_write (env : Env) (ps : DP_ProjectStatement)
    (out_insert_rowid : option (Z -> DP_Project -> DP_Project)) : M bool :=
  fun s =>
    let '(step_result, w) := sqlite3_step env ps (snd s) in
    if step_result =? SQLITE_DONE then
      let reset_result := sqlite3_reset env ps in
      if is_ok reset_result then
        match out_insert_rowid with
        | Some store => (true, (store (w_last_insert_rowid w) (fst s), w))
        | None => (true, (fst s, w))
        end
      else
        (false,
         (fst s,
          DP_error_set ("Error " +++ CInt.dec reset_result +++ " resetting "
                        +++ ps_title ps +++ ": " +++ prj_db_error env) w))
    else
      let title := ps_title ps in
      let w1 := DP_error_set ("Error " +++ CInt.dec step_result
                              +++ " executing " +++ title +++ ": "
                              +++ prj_db_error env) w in
      let reset_result := sqlite3_reset env ps in
      if negb (is_ok reset_result) then
        (false,
         (fst s,
          DP_warn ("Error " +++ CInt.dec reset_result
                   +++ " resetting failed " +++ title +++ ": "
                   +++ prj_db_error env) w1))
      else (false, (fst s, w1)).

Definition ps_clear_bindings (env : Env) (ps : DP_ProjectStatement)
    (s : State) : State :=
  let '(clear_result, w) := sqlite3_clear_bindings env ps (snd s) in
  if negb (is_ok clear_result) then
    (fst s,
     DP_warn ("Error clearing bindings on " +++ ps_title ps +++ ": "
              +++ prj_db_error env) w)
  else (fst s, w).

Definition DP_project_session_id (prj : DP_Project) : Z := session_id prj.

Definition DP_project_session_open (env : Env)
    (source_type : DP_ProjectSourceType) (source_param : option string)
    (protocol : string) : M bool :=
  fun s =>
    let prj := fst s in
    if session_id prj =? 0 then
      let s0 := (set_sequence_id 0 prj, snd s) in
      let '(write_ok, s1) :=
        (ps_bind_int env DP_PROJECT_STATEMENT_SESSION_OPEN 1
                     (source_type_int source_type)
         &&> ps_bind_text env DP_PROJECT_STATEMENT_SESSION_OPEN 2 source_param
         &&> ps_bind_text env DP_PROJECT_STATEMENT_SESSION_OPEN 3
                          (Some protocol)
         &&> ps_bind_int64 env DP_PROJECT_STATEMENT_SESSION_OPEN 4
                           (env_pid env)
         &&> ps_exec_write env DP_PROJECT_STATEMENT_SESSION_OPEN
                           (Some set_session_id)) s0 in
      (write_ok, ps_clear_bindings env DP_PROJECT_STATEMENT_SESSION_OPEN s1)
    else
      (false,
       (prj,
        DP_error_set ("Error opening session: session "
                      +++ CInt.dec (session_id prj) +++ " already open")
                     (snd s))).

Definition DP_project_session_close (env : Env) : M Z :=
  fun s =>
    let sid := session_id (fst s) in
    if sid =? 0 then (-1, s)
    else
      let s0 := (set_session_id 0 (fst s), snd s) in
      let '(update_ok, s1) :=
        (ps_bind_int64 env DP_PROJECT_STATEMENT_SESSION_CLOSE 1 sid
         &&> ps_exec_write env DP_PROJECT_STATEMENT_SESSION_CLOSE None) s0 in
      (if update_ok then 1 else 0, s1).

(** Modelled from the spec: the message codec ([dpmsg/message.h]) is not
    among the sources. The specification gives it a type code, a
    context/author id and a body that is serialized into a buffer handed
    out by the caller, returning the length written. *)
Record DP_Message := {
  message_type : Z;
  message_context_id : Z;
  message_body : list byte
}.

Definition DP_message_type (msg : DP_Message) : Z := message_type msg.
Definition DP_message_context_id (msg : DP_Message) : Z :=
  message_context_id msg.

(** The body is written over the start of the project's buffer
    ([get_serialize_buffer] hands out [prj->serialize_buffer]). *)
Definition DP_message_serialize_body (msg : DP_Message) (prj : DP_Project)
  : Z * DP_Project :=
  let body := message_body msg in
  (Z.of_nat (List.length body),
   set_serialize_buffer
     (body ++ skipn (List.length body) (serialize_buffer prj)) prj).

(** [++prj->sequence_id], evaluated as the argument of the second bind. *)
Definition bind_next_sequence_id (env : Env) : M bool :=
  fun s =>
    let prj := set_sequence_id (CInt.int64 (sequence_id (fst s) + 1)) (fst s) in
    ps_bind_int64 env DP_PROJECT_STATEMENT_MESSAGE_INSERT 2 (sequence_id prj)
                  (prj, snd s).

Definition DP_project_message_record (env : Env) (msg : DP_Message) : M bool :=
  fun s =>
    let sid := session_id (fst s) in
    if sid =? 0 then (false, (fst s, DP_error_set "No open session" (snd s)))
    else
      let '(length, prj) := DP_message_serialize_body msg (fst s) in
      if length =? 0 then (false, (prj, snd s))
      else
        let '(write_ok, s1) :=
          (ps_bind_int64 env DP_PROJECT_STATEMENT_MESSAGE_INSERT 1 sid
           &&> bind_next_sequence_id env
           &&> ps_bind_int env DP_PROJECT_STATEMENT_MESSAGE_INSERT 3
                           (DP_message_type msg)
           &&> ps_bind_int64 env DP_PROJECT_STATEMENT_MESSAGE_INSERT 4
                             (DP_message_context_id msg)
           &&> ps_bind_blob env DP_PROJECT_STATEMENT_MESSAGE_INSERT 5
                            (serialize_buffer prj) length
           &&> ps_exec_write env DP_PROJECT_STATEMENT_MESSAGE_INSERT None)
            (prj, snd s) in
        (write_ok,
         ps_clear_bindings env DP_PROJECT_STATEMENT_MESSAGE_INSERT s1).

(** Consecutive [DP_project_message_record] calls, each in its own
    environment; the results in call order. *)
Fixpoint record_all (calls : list (Env * DP_Message)) (s : State)
  : list bool * State :=
  match calls with
  | [] => ([], s)
  | (env, msg) :: rest =>
      let '(r, s1) := DP_project_message_record env msg s in
      let '(rs, s2) := record_all rest s1 in
      (r :: rs, s2)
  end.

(** A call of the session API, and runs of such calls. *)
Inductive ApiCall :=
| api_message_record (env : Env) (msg : DP_Message)
| api_session_open (env : Env) (source_type : DP_ProjectSourceType)
    (source_param : option string) (protocol : string)
| api_session_id.

(** The boolean a call returns, if it returns one, and the state after
    it; [DP_project_session_id] only reads. *)
Definition api_call (call : ApiCall) (s : State) : option bool * State :=
  match call with
  | api_message_record env msg =>
      let '(r, s1) := DP_project_message_record env msg s in (Some r, s1)
  | api_session_open env source_type source_param protocol =>
      let '(r, s1) :=
        DP_project_session_open env source_type source_param protocol s in
      (Some r, s1)
  | api_session_id => (None, s)
  end.

Fixpoint api_run (calls : list ApiCall) (s : State)
  : list (option bool) * State :=
  match calls with
  | [] => ([], s)
  | call :: rest =>
      let '(r, s1) := api_call call s in
      let '(rs, s2) := api_run rest s1 in
      (r :: rs, s2)
  end.

Definition is_message_record (call : ApiCall) : bool :=
  match call with api_message_record _ _ => true | _ => false end.

(** Every record of the run succeeded and every other call failed. *)
Definition records_succeed_others_fail (call : ApiCall) (r : option bool)
  : Prop :=
  match call with
  | api_message_record _ _ => r = Some true
  | api_session_open _ _ _ _ => r = Some false
  | api_session_id => True
  end.

(** The close update is carried out when neither its bind, its step nor
    its reset fails. *)
Definition close_update_ok (env : Env) : bool :=
  match env_fault env (CallBind (SqlProject DP_PROJECT_STATEMENT_SESSION_CLOSE) 1),
        env_fault env (CallStep (SqlProject DP_PROJECT_STATEMENT_SESSION_CLOSE)),
        env_fault env (CallReset (SqlProject DP_PROJECT_STATEMENT_SESSION_CLOSE))
  with
  | None, None, None => true
  | _, _, _ => false
  end.

(** An environment without faults. *)
Definition fault_free (env : Env) : Prop :=
  forall call, env_fault env call = None.

(** ** The header fields of a project file, as the specification lays
    them out *)

Definition file_has_magic (bytes : list byte) : bool :=
  bytes_eqb (firstn 16 bytes) magic.

Definition file_application_id (bytes : list byte) : Z :=
  DP_read_bigendian_int32 (skipn 68 bytes).

Definition file_user_version (bytes : list byte) : Z :=
  DP_read_bigendian_int32 (skipn 60 bytes).

(** The outcome the specification gives to the header check, case by
    case: the file at the path and the result. *)
Inductive check_outcome : option Database -> Z -> Prop :=
| check_cannot_open :
    check_outcome None DP_PROJECT_CHECK_ERROR_OPEN
| check_cannot_read f :
    db_read_error f = true ->
    check_outcome (Some f) DP_PROJECT_CHECK_ERROR_READ
| check_short_header f :
    db_read_error f = false ->
    (List.length (db_file f) < 72)%nat ->
    check_outcome (Some f) DP_PROJECT_CHECK_ERROR_HEADER
| check_wrong_magic f :
    db_read_error f = false ->
    (72 <= List.length (db_file f))%nat ->
    file_has_magic (db_file f) = false ->
    check_outcome (Some f) DP_PROJECT_CHECK_ERROR_MAGIC
| check_wrong_application_id f :
    db_read_error f = false ->
    (72 <= List.length (db_file f))%nat ->
    file_has_magic (db_file f) = true ->
    file_application_id (db_file f) <> DP_PROJECT_APPLICATION_ID ->
    check_outcome (Some f) DP_PROJECT_CHECK_ERROR_APPLICATION_ID
| check_wrong_user_version f :
    db_read_error f = false ->
    (72 <= List.length (db_file f))%nat ->
    file_has_magic (db_file f) = true ->
    file_application_id (db_file f) = DP_PROJECT_APPLICATION_ID ->
    file_user_version (db_file f) < 1 ->
    check_outcome (Some f) DP_PROJECT_CHECK_ERROR_USER_VERSION
| check_valid f :
    db_read_error f = false ->
    (72 <= List.length (db_file f))%nat ->
    file_has_magic (db_file f) = true ->
    file_application_id (db_file f) = DP_PROJECT_APPLICATION_ID ->
    1 <= file_user_version (db_file f) ->
    check_outcome (Some f) (file_user_version (db_file f)).

Definition check_error_codes : list Z :=
  [DP_PROJECT_CHECK_ERROR_OPEN; DP_PROJECT_CHECK_ERROR_READ;
   DP_PROJECT_CHECK_ERROR_HEADER; DP_PROJECT_CHECK_ERROR_MAGIC;
   DP_PROJECT_CHECK_ERROR_APPLICATION_ID;
   DP_PROJECT_CHECK_ERROR_USER_VERSION].

(* ================================================================== *)
(** * The engine behind DP_project_open *)
(* ================================================================== *)

Definition byte_of_Z (z : Z) : byte :=
  match Byte.of_N (Z.to_N (z mod 256)) with
  | Some b => b
  | None => Byte.x00
  end.

(** The four bytes of a 32-bit integer, most significant first. *)
Definition bigendian_int32 (v : Z) : list byte :=
  [byte_of_Z (Z.shiftr v 24); byte_of_Z (Z.shiftr v 16);
   byte_of_Z (Z.shiftr v 8); byte_of_Z v].

(** A database header is 100 bytes long.  Only the magic and the two
    fields the program reads are modelled; a header written into an
    empty file has zeros elsewhere. *)
Definition header_size : nat := 100.

Definition blank_header : list byte :=
  magic ++ repeat Byte.x00 (header_size - 16).

Definition set_header_field (offset : nat) (v : Z) (bytes : list byte)
  : list byte :=
  let bytes := match bytes with [] => blank_header | _ => bytes end in
  firstn offset bytes ++ bigendian_int32 v ++ skipn (offset + 4) bytes.

(** Does the engine read the file as a database?  A zero-length file is
    an empty database; any other file needs a whole header that starts
    with the magic. *)
Definition engine_readable (d : Database) : option Error :=
  if db_read_error d then Some SQLITE_IOERR
  else
    match db_file d with
    | [] => None
    | bytes =>
        if (header_size <=? List.length bytes)%nat && file_has_magic bytes
        then None
        else Some SQLITE_NOTADB
    end.

(** The row a query yields: its first column, or [None] for no row. *)
Definition query_row (d : Database) (q : Query) : option Z :=
  match q with
  | QuerySchemaRow =>
      match db_tables d with [] => None | _ => Some 1 end
  | QueryApplicationId =>
      Some (match db_file d with
            | [] => 0
            | bytes => file_application_id bytes
            end)
  | QueryUserVersion =>
      Some (match db_file d with
            | [] => 0
            | bytes => file_user_version bytes
            end)
  end.

Definition has_table (name : string) (d : Database) : bool :=
  existsb (String.eqb name) (db_tables d).

(** The table a statement needs in the schema to be compiled. *)
Definition sql_table (s : Sql) : option string :=
  match s with
  | SqlQuery _ => None
  | SqlInsertMigration => Some "migrations"
  | SqlProject DP_PROJECT_STATEMENT_MESSAGE_INSERT => Some "messages"
  | SqlProject DP_PROJECT_STATEMENT_SESSION_OPEN => Some "sessions"
  | SqlProject DP_PROJECT_STATEMENT_SESSION_CLOSE => Some "sessions"
  end.

(** [sqlite3_prepare_v3]: the result code and the new statement. *)
Definition sqlite3_prepare_v3 (env : Env) (s : Sql) (w : World)
  : Z * option nat * World :=
  match env_fault env (CallPrepare s) with
  | Some e => (code e, None, w)
  | None =>
      match engine_readable (w_db w) with
      | Some e => (code e, None, w)
      | None =>
          let known := match sql_table s with
                       | Some name => has_table name (w_db w)
                       | None => true
                       end in
          if known
          then (SQLITE_OK, Some (w_next w),
                with_live (w_live w ++ [w_next w]) (S (w_next w)) w)
          else (code SQLITE_ERROR, None, w)
      end
  end.

(** [sqlite3_finalize]: the argument is logged; a pointer that was never
    assigned ([None]) releases nothing. *)
Definition sqlite3_finalize (stmt : option nat) (w : World) : World :=
  let w1 := with_finalized (w_finalized w ++ [stmt]) w in
  match stmt with
  | Some h => with_live (filter (fun x => negb (Nat.eqb x h)) (w_live w1))
                        (w_next w1) w1
  | None => w1
  end.

(** [sqlite3_close]: refused with SQLITE_BUSY, the connection staying
    open, while prepared statements are not finalized. *)
Definition sqlite3_close (env : Env) (w : World) : Z * World :=
  match w_live w with
  | [] =>
      match env_fault env CallClose with
      | Some e => (code e, w)
      | None => (SQLITE_OK, with_connected false w)
      end
  | _ => (code SQLITE_BUSY, w)
  end.

(** The tables each migration creates, in order. *)
Definition migrations : list (list string) :=
  [["sessions"; "messages"; "snapshots"; "snapshot_messages"]].

(** [create table] statements run one after the other; the first whose
    table exists already fails, leaving the earlier ones in place. *)
Fixpoint create_tables (names : list string) (d : Database)
  : option Error * Database :=
  match names with
  | [] => (None, d)
  | name :: rest =>
      if has_table name d then (Some SQLITE_ERROR, d)
      else create_tables rest (with_tables (db_tables d ++ [name]) d)
  end.

Definition truncated (d : Database) : Database :=
  {| db_file := []; db_read_error := db_read_error d;
     db_readonly := db_readonly d; db_tables := []; db_migrations := [];
     db_sessions := []; db_messages := [] |}.

(** [sqlite3_exec] of the statements the program runs directly.  The
    vacuum runs with SQLITE_DBCONFIG_RESET_DATABASE set, which empties
    the file whatever it holds. *)
Definition sqlite3_exec (env : Env) (e : Exec) (w : World) : Z * World :=
  match env_fault env (CallExec e), e with
  | Some err, _ => (code err, w)
  | None, ExecVacuum => (SQLITE_OK, with_db (truncated (w_db w)) w)
  | None, _ =>
      match engine_readable (w_db w) with
      | Some err => (code err, w)
      | None =>
          match e with
          | ExecBegin =>
              match w_snapshot w with
              | Some _ => (code SQLITE_ERROR, w)
              | None => (SQLITE_OK, with_snapshot (Some (w_db w)) w)
              end
          | ExecCommit =>
              match w_snapshot w with
              | Some _ => (SQLITE_OK, with_snapshot None w)
              | None => (code SQLITE_ERROR, w)
              end
          | ExecRollback =>
              match w_snapshot w with
              | Some d => (SQLITE_OK, with_snapshot None (with_db d w))
              | None => (code SQLITE_ERROR, w)
              end
          | ExecSetApplicationId =>
              (SQLITE_OK,
               with_db (with_file (set_header_field 68
                                     DP_PROJECT_APPLICATION_ID
                                     (db_file (w_db w))) (w_db w)) w)
          | ExecSetUserVersion =>
              (SQLITE_OK,
               with_db (with_file (set_header_field 60
                                     DP_PROJECT_USER_VERSION
                                     (db_file (w_db w))) (w_db w)) w)
          | ExecCreateMigrations =>
              if has_table "migrations" (w_db w) then (SQLITE_OK, w)
              else (SQLITE_OK,
                    with_db (with_tables (db_tables (w_db w) ++ ["migrations"])
                                         (w_db w)) w)
          | ExecMigration n =>
              match create_tables (nth n migrations []) (w_db w) with
              | (Some err, d) => (code err, with_db d w)
              | (None, d) => (SQLITE_OK, with_db d w)
              end
          | ExecVacuum => (SQLITE_OK, with_db (truncated (w_db w)) w)
          end
      end
  end.

(** [sqlite3_step] of a one-row query: the result code and the first
    column of the row, if there is one. *)
Definition sqlite3_step_query (env : Env) (q : Query) (w : World)
  : Z * option Z :=
  match env_fault env (CallStep (SqlQuery q)) with
  | Some e => (code e, None)
  | None =>
      match engine_readable (w_db w) with
      | Some e => (code e, None)
      | None =>
          match query_row (w_db w) q with
          | Some v => (SQLITE_ROW, Some v)
          | None => (SQLITE_DONE, None)
          end
      end
  end.

(** [sqlite3_step] of the migration insert ([insert or ignore]) bound to
    [id], followed by [sqlite3_changes]. *)
Definition sqlite3_step_migration (env : Env) (id : Z) (w : World)
  : Z * Z * World :=
  match env_fault env (CallStep SqlInsertMigration) with
  | Some e => (code e, 0, w)
  | None =>
      if existsb (Z.eqb id) (db_migrations (w_db w))
      then (SQLITE_DONE, 0, w)
      else (SQLITE_DONE, 1,
            with_db (with_migrations (db_migrations (w_db w) ++ [id])
                                     (w_db w)) w)
  end.

(** The state of a connection just opened on a database. *)
Definition connected (d : Database) : World :=
  {| w_db := d; w_snapshot := None; w_bound := [];
     w_last_insert_rowid := 0; w_connected := true; w_live := [];
     w_next := 0%nat; w_finalized := []; w_error := ""; w_warnings := [] |}.

Definition blank_database : Database :=
  {| db_file := []; db_read_error := false; db_readonly := false;
     db_tables := []; db_migrations := []; db_sessions := [];
     db_messages := [] |}.

(** [sqlite3_open_v2] with SQLITE_OPEN_READWRITE, and SQLITE_OPEN_CREATE
    when [create] is set: a missing file is created empty. *)
Definition sqlite3_open_v2 (env : Env) (fs : FileSystem) (path : string)
    (create : bool) : Z * World :=
  match env_fault env CallOpen with
  | Some e => (code e, with_connected false (connected blank_database))
  | None =>
      match fs path with
      | Some d => (SQLITE_OK, connected d)
      | None =>
          if create then (SQLITE_OK, connected blank_database)
          else (code SQLITE_CANTOPEN,
                with_connected false (connected blank_database))
      end
  end.

(* ================================================================== *)
(** * project.c: opening and closing a project *)
(* ================================================================== *)

Definition W (A : Type) : Type := World -> A * World.

Definition prepare (env : Env) (s : Sql) : W (option nat) :=
  fun w =>
    let '(prepare_result, stmt, w1) := sqlite3_prepare_v3 env s w in
    if is_ok prepare_result then (stmt, w1)
    else
      (None,
       DP_error_set ("Error " +++ CInt.dec prepare_result
                     +++ " preparing statement '" +++ sql_text s +++ "': "
                     +++ db_error env) w1).

Definition exec_write_stmt (env : Env) (e : Exec) (title : string) : W bool :=
  fun w =>
    let '(exec_result, w1) := sqlite3_exec env e w in
    if is_ok exec_result then (true, w1)
    else
      (false,
       DP_error_set ("Error " +++ CInt.dec exec_result +++ " " +++ title
                     +++ ": " +++ db_error env) w1).

(** The value read, or [None] for a false return. *)
Definition exec_int_stmt (env : Env) (q : Query) (default_value : Z)
  : W (option Z) :=
  fun w =>
    let '(stmt, w1) := prepare env (SqlQuery q) w in
    match stmt with
    | None => (None, w1)
    | Some h =>
        let '(step_result, row) := sqlite3_step_query env q w1 in
        let '(out_value, w2) :=
          if step_result =? SQLITE_DONE then (Some default_value, w1)
          else if step_result =? SQLITE_ROW then
            match row with
            | Some v => (Some v, w1)
            | None =>
                (None,
                 DP_error_set ("Statement '" +++ query_text q
                               +++ "' resulted in no columns") w1)
            end
          else
            (None,
             DP_error_set ("Error " +++ CInt.dec step_result
                           +++ " executing statement '" +++ query_text q
                           +++ "': " +++ db_error env) w1) in
        (out_value, sqlite3_finalize (Some h) w2)
    end.

Definition is_empty_db (env : Env) : W (option bool) :=
  fun w =>
    let '(value, w1) := exec_int_stmt env QuerySchemaRow 0 w in
    match value with
    | Some v => (Some (v =? 0), w1)
    | None => (None, w1)
    end.

Definition init_header (env : Env) : W bool :=
  exec_write_stmt env ExecSetApplicationId "setting application_id"
  &&> exec_write_stmt env ExecSetUserVersion "setting user_version".

Definition check_header (env : Env) : W bool :=
  fun w =>
    let '(application_id, w1) := exec_int_stmt env QueryApplicationId (-1) w in
    match application_id with
    | None => (false, w1)
    | Some application_id =>
        let '(user_version, w2) := exec_int_stmt env QueryUserVersion (-1) w1 in
        match user_version with
        | None => (false, w2)
        | Some user_version =>
            if negb (application_id =? DP_PROJECT_APPLICATION_ID) then
              (false,
               DP_error_set ("File has incorrect application id "
                             +++ CInt.dec application_id) w2)
            else if negb (user_version =? DP_PROJECT_USER_VERSION) then
              (false,
               DP_error_set ("File has unknown user version "
                             +++ CInt.dec user_version) w2)
            else (true, w2)
        end
    end.

(** [sqlite3_get_autocommit] is false inside a transaction. *)
Definition try_rollback (env : Env) (w : World) : World :=
  match w_snapshot w with
  | None => w
  | Some _ =>
      let '(rollback_result, w1) := sqlite3_exec env ExecRollback w in
      if negb (is_ok rollback_result) then
        DP_warn ("Error " +++ CInt.dec rollback_result
                 +++ " rolling back transaction: " +++ db_error env) w1
      else w1
  end.

Definition tx (env : Env) (block : W bool) : W bool :=
  fun w =>
    let '(begun, w1) := exec_write_stmt env ExecBegin "opening transaction" w in
    if begun then
      let '(done, w2) := block w1 in
      if done then
        let '(committed, w3) :=
          exec_write_stmt env ExecCommit "committing transaction" w2 in
        if committed then (true, w3) else (false, try_rollback env w3)
      else (false, try_rollback env w2)
    else (false, w1).

(** The loop of [apply_migrations] from index [i] on. *)
Fixpoint migration_loop (env : Env) (i : nat) (todo : list (list string))
    (w : World) : bool * World :=
  match todo with
  | [] => (true, w)
  | _ :: rest =>
      match env_fault env (CallBind SqlInsertMigration 1) with
      | Some e =>
          (false,
           DP_error_set ("Error " +++ CInt.dec (code e)
                         +++ " binding migration insertion: "
                         +++ db_error env) w)
      | None =>
          let bind_result := SQLITE_OK in
          let '(step_result, changes, w1) :=
            sqlite3_step_migration env (Z.of_nat i + 1) w in
          if negb (step_result =? SQLITE_DONE) then
            (false,
             DP_error_set ("Error " +++ CInt.dec bind_result
                           +++ " inserting migration: " +++ db_error env) w1)
          else
            match env_fault env (CallReset SqlInsertMigration) with
            | Some _ =>
                (false,
                 DP_error_set ("Error " +++ CInt.dec bind_result
                               +++ " resetting migration insertion: "
                               +++ db_error env) w1)
            | None =>
                if 0 <? changes then
                  let '(executed, w2) :=
                    exec_write_stmt env (ExecMigration i)
                                    "executing migration" w1 in
                  if executed then migration_loop env (S i) rest w2
                  else (false, w2)
                else migration_loop env (S i) rest w1
            end
      end
  end.

Definition apply_migrations (env : Env) : W bool :=
  fun w =>
    let '(created, w1) :=
      exec_write_stmt env ExecCreateMigrations "creating migrations table" w in
    if negb created then (false, w1)
    else
      let '(insert_migration_stmt, w2) := prepare env SqlInsertMigration w1 in
      match insert_migration_stmt with
      | None => (false, w2)
      | Some h =>
          let '(result, w3) := migration_loop env 0 migrations w2 in
          (result, sqlite3_finalize (Some h) w3)
      end.

Fixpoint store_at {A : Type} (i : nat) (x : A) (l : list A) : list A :=
  match i, l with
  | _, [] => []
  | O, _ :: rest => x :: rest
  | S k, y :: rest => y :: store_at k x rest
  end.

(** The loop of [DP_project_open] that prepares [sqls[i]], [sqls[i+1]],
    ...; on a failure at index [i] the source runs
    [for (j = 0; j < i; ++j) sqlite3_finalize(stmts[i]);] and closes. *)
Fixpoint prepare_loop (env : Env) (i : nat) (todo : list DP_ProjectStatement)
    (stmts : list (option nat)) (w : World)
  : option (list (option nat)) * World :=
  match todo with
  | [] => (Some stmts, w)
  | ps :: rest =>
      let '(stmt, w1) := prepare env (SqlProject ps) w in
      match stmt with
      | Some h => prepare_loop env (S i) rest (store_at i (Some h) stmts) w1
      | None =>
          let w2 := fold_left
                      (fun acc (j : nat) => sqlite3_finalize (nth i stmts None) acc)
                      (seq 0 i) w1 in
          (None, snd (sqlite3_close env w2))
      end
  end.

Definition all_statements : list DP_ProjectStatement :=
  [DP_PROJECT_STATEMENT_MESSAGE_INSERT; DP_PROJECT_STATEMENT_SESSION_OPEN;
   DP_PROJECT_STATEMENT_SESSION_CLOSE].

Definition flag_set (flags flag : Z) : bool := negb (Z.land flags flag =? 0).

(** The handle, or [None] for NULL, and the state of the connection. *)
Definition DP_project_open (env : Env) (fs : FileSystem) (path : string)
    (flags : Z) : option DP_Project * World :=
  let only_existing := flag_set flags DP_PROJECT_OPEN_EXISTING in
  let '(db_open_result, w) := sqlite3_open_v2 env fs path (negb only_existing) in
  if negb (is_ok db_open_result) then
    (None,
     snd (sqlite3_close env
            (DP_error_set ("Error " +++ CInt.dec db_open_result +++ " opening '"
                           +++ path +++ "': " +++ db_error env) w)))
  else if db_readonly (w_db w) then
    (None,
     snd (sqlite3_close env
            (DP_error_set ("Error opening '" +++ path
                           +++ "': database is read-only") w)))
  else
    let '(empty, w1) :=
      if flag_set flags DP_PROJECT_OPEN_TRUNCATE
      then (Some true, snd (sqlite3_exec env ExecVacuum w))
      else is_empty_db env w in
    match empty with
    | None => (None, snd (sqlite3_close env w1))
    | Some empty =>
        let '(init_ok, w2) :=
          ((fun w => if empty then init_header env w else (true, w))
           &&> check_header env
           &&> tx env (apply_migrations env)) w1 in
        if negb init_ok then (None, snd (sqlite3_close env w2))
        else
          let '(stmts, w3) :=
            prepare_loop env 0 all_statements
                         (repeat None DP_PROJECT_STATEMENT_COUNT) w2 in
          match stmts with
          | None => (None, w3)
          | Some stmts =>
              (Some {| session_id := 0; sequence_id := 0; stmts := stmts;
                       serialize_buffer := [] |}, w3)
          end
    end.

Definition DP_project_close (env : Env) (s : State) : bool * World :=
  let '(closed, (prj, w)) := DP_project_session_close env s in
  let w1 := if closed =? 0 then DP_warn ("Close project: " +++ w_error w) w
            else w in
  let w2 := fold_left (fun acc stmt => sqlite3_finalize stmt acc)
                      (stmts prj) w1 in
  let '(close_result, w3) := sqlite3_close env w2 in
  if is_ok close_result then (true, w3)
  else
    (false,
     DP_error_set ("Error " +++ CInt.dec close_result +++ " closing project")
                  w3).

(** The header [check_header] accepts, in terms of the file: the engine
    reads it, and the two fields hold the program's constants. *)
Definition accepted_header (d : Database) : Prop :=
  db_read_error d = false
  /\ (header_size <= List.length (db_file d))%nat
  /\ file_has_magic (db_file d) = true
  /\ file_application_id (db_file d) = DP_PROJECT_APPLICATION_ID
  /\ file_user_version (db_file d) = DP_PROJECT_USER_VERSION.

(** ** Sample data *)

Definition quiet_env : Env :=
  {| env_fault := fun _ => None; env_errmsg := None;
     env_now := 1700000000; env_pid := 4242 |}.

(** The disk is full when a project statement is stepped. *)
Definition full_disk_env : Env :=
  {| env_fault := fun call =>
       match call with
       | CallStep (SqlProject _) => Some SQLITE_FULL
       | _ => None
       end;
     env_errmsg := Some "database or disk is full";
     env_now := 1700000001; env_pid := 4242 |}.

(** A project file as a fresh open leaves it: header written, migration 1
    applied. *)
Definition fresh_project_file : Database :=
  {| db_file := set_header_field 60 DP_PROJECT_USER_VERSION
                  (set_header_field 68 DP_PROJECT_APPLICATION_ID []);
     db_read_error := false; db_readonly := false;
     db_tables := ["migrations"; "sessions"; "messages"; "snapshots";
                   "snapshot_messages"];
     db_migrations := [1]; db_sessions := []; db_messages := [] |}.

(** The same file written by a later version of the schema. *)
Definition newer_project_file : Database :=
  with_file (set_header_field 60 2 (db_file fresh_project_file))
            fresh_project_file.

(** A file that records migration 1 as applied but has lost its sessions
    table. *)
Definition damaged_project_file : Database :=
  with_tables ["migrations"; "messages"; "snapshots"; "snapshot_messages"]
              fresh_project_file.

Definition single_file (name : string) (d : Database) : FileSystem :=
  fun path => if String.eqb path name then Some d else None.

Definition sample_world : World :=
  {| w_db := fresh_project_file; w_snapshot := None; w_bound := [];
     w_last_insert_rowid := 0; w_connected := true;
     w_live := [0%nat; 1%nat; 2%nat]; w_next := 3%nat; w_finalized := [];
     w_error := ""; w_warnings := [] |}.

Definition sample_project : DP_Project :=
  {| session_id := 0; sequence_id := 0;
     stmts := [Some 0%nat; Some 1%nat; Some 2%nat]; serialize_buffer := [] |}.

Definition sample_message : DP_Message :=
  {| message_type := 64; message_context_id := 1;
     message_body := [Byte.x01; Byte.x02] |}.

(** The sample project with session 2 open and three messages recorded,
    and the database that goes with it. *)
Definition busy_project : DP_Project :=
  {| session_id := 2; sequence_id := 3;
     stmts := [Some 0%nat; Some 1%nat; Some 2%nat];
     serialize_buffer := [Byte.x01; Byte.x02] |}.

Definition recorded (seq : Z) : MessageRow :=
  {| mr_session_id := 2; mr_sequence_id := seq; mr_recorded_at := 1600000100;
     mr_type := 64; mr_context_id := 1;
     mr_body := Some [Byte.x01; Byte.x02] |}.

Definition busy_database : Database :=
  with_messages [recorded 1; recorded 2; recorded 3]
    (with_sessions
       [{| sr_session_id := 1; sr_source_type := 0; sr_source_param := None;
           sr_protocol := "dp:4.24.0"; sr_process_id := 4000;
           sr_opened_at := 1500000000; sr_closed_at := Some 1500003600 |};
        {| sr_session_id := 2; sr_source_type := 1;
           sr_source_param := Some "some/file.dppr";
           sr_protocol := "dp:4.24.1"; sr_process_id := 4242;
           sr_opened_at := 1600000000; sr_closed_at := None |}]
       fresh_project_file).

Definition busy_world : World :=
  {| w_db := busy_database; w_snapshot := None; w_bound := [];
     w_last_insert_rowid := 2; w_connected := true;
     w_live := [0%nat; 1%nat; 2%nat]; w_next := 3%nat; w_finalized := [];
     w_error := ""; w_warnings := [] |}.

(* ================================================================== *)
(** * libclient/net/client.cpp *)
(* ================================================================== *)

(** The message types [Client::handleMessages] tells apart. *)
Inductive MessageType :=
| DP_MSG_SERVER_COMMAND
| DP_MSG_DATA
| DP_MSG_DRAW_DABS_CLASSIC
| DP_MSG_DRAW_DABS_PIXEL
| DP_MSG_DRAW_DABS_PIXEL_SQUARE
| DP_MSG_OTHER.

Inductive ReplyType :=
| ReplyUnknown | ReplyLogin | ReplyMessage | ReplyAlert | ReplyError
| ReplyResult | ReplyLog | ReplySessionConf | ReplySizeLimitWarning
| ReplyResetRequest | ReplyStatus | ReplyReset | ReplyCatchup.

(** What [handleServerReply] reads of a [ServerReply]: its type,
    [reply["count"].toInt()] and [reply["state"]]. *)
Record ServerReply := {
  reply_type : ReplyType;
  reply_count : Z;
  reply_state : string
}.

(** The catch-up bookkeeping on its own: the counters [m_catchupTo],
    [m_caughtUp] and [m_catchupProgress] after a batch of [count]
    messages, and the percentages notified for it. *)
Definition Counters : Type := Z * Z * Z.

Definition counters_step (count : Z) (k : Counters) : Counters * list Z :=
  let '(catchupTo, caughtUp, progress) := k in
  if 0 <? catchupTo then
    let caughtUp1 := CInt.add32 caughtUp count in
    if catchupTo <=? caughtUp1 then ((0, caughtUp1, progress), [100])
    else
      let progress1 := CInt.div32 (CInt.mul32 100 caughtUp1) catchupTo in
      if negb (progress1 =? progress)
      then ((catchupTo, caughtUp1, progress1), [progress1])
      else ((catchupTo, caughtUp1, progress), [])
  else (k, []).

(** The counters and the notifications over a run of batches, given by
    their sizes. *)
Fixpoint counters_run (counts : list Z) (k : Counters) : Counters * list Z :=
  match counts with
  | [] => (k, [])
  | count :: rest =>
      let '(k1, vals1) := counters_step count k in
      let '(k2, vals2) := counters_run rest k1 in
      (k2, vals1 ++ vals2)
  end.


Section NetClient.

(** [net::Message] and the functions on it are declared outside the
    sources at hand; the client is modelled over any implementation of
    them.  A batch [(count, msgs)] is the list of its [count] messages. *)
Variable Message : Type.
Variable isNull : Message -> bool.
Variable typeName : Message -> string.
Variable msg_type : Message -> MessageType.
Variable makeMessageBackwardCompatible : Message -> Message.
Variable fromMessage : Message -> ServerReply.
Variable setIndirectCompatFlag : Message -> Message.
(** The signals [handleData] emits for a message, given the local user
    id. *)
Variable handleData_signals : Z -> Message -> list string.

(** What the client does to the outside: the signals it emits, the calls
    it makes on [m_server], and its log lines. *)
Inductive Event :=
| drawingCommandsLocal (msgs : list Message)
| messagesReceived (msgs : list Message)
| server_sendMessages (msgs : list Message)
| server_setSmoothEnabled (enabled : bool)
| catchupProgress (percent : Z)
| signal (name : string)
| qWarning (text : string)
| qInfo (text : string).

(** The fields of [Client] the message pipeline uses; [m_server] is
    modelled by whether it is set.  The events are in the order they
    happened. *)
Record Client := {
  m_server : bool;
  m_compatibilityMode : bool;
  m_myId : Z;
  m_catchupTo : Z;
  m_caughtUp : Z;
  m_catchupProgress : Z;
  events : list Event
}.

Definition emit (e : Event) (c : Client) : Client :=
  {| m_server := m_server c; m_compatibilityMode := m_compatibilityMode c;
     m_myId := m_myId c; m_catchupTo := m_catchupTo c;
     m_caughtUp := m_caughtUp c; m_catchupProgress := m_catchupProgress c;
     events := events c ++ [e] |}.

Definition set_catchup (catchupTo caughtUp progress : Z) (c : Client)
  : Client :=
  {| m_server := m_server c; m_compatibilityMode := m_compatibilityMode c;
     m_myId := m_myId c; m_catchupTo := catchupTo;
     m_caughtUp := caughtUp; m_catchupProgress := progress;
     events := events c |}.

(** [int count] of a batch. *)
Definition count_of (msgs : list Message) : Z := Z.of_nat (List.length msgs).

Definition sendCompatibleMessages (msgs : list Message) (c : Client)
  : Client :=
  if 0 <? count_of msgs then
    let c1 := emit (drawingCommandsLocal msgs) c in
    if m_server c1 then emit (server_sendMessages msgs) c1
    else emit (messagesReceived msgs) c1
  else c.

(** The compatible messages and the client after the warnings. *)
Fixpoint filterCompatibleMessages (msgs : list Message) (c : Client)
  : list Message * Client :=
  match msgs with
  | [] => ([], c)
  | msg :: rest =>
      let compatibleMsg := makeMessageBackwardCompatible msg in
      if isNull compatibleMsg then
        filterCompatibleMessages rest
          (emit (qWarning ("Incompatible " +++ typeName msg +++ " message")) c)
      else
        let '(compatibleMsgs, c1) := filterCompatibleMessages rest c in
        (compatibleMsg :: compatibleMsgs, c1)
  end.

Definition sendMessages (msgs : list Message) (c : Client) : Client :=
  if m_compatibilityMode c then
    let '(compatibleMsgs, c1) := filterCompatibleMessages msgs c in
    sendCompatibleMessages compatibleMsgs c1
  else sendCompatibleMessages msgs c.

Definition handleResetRequest (msg : ServerReply) (c : Client) : Client :=
  if String.eqb (reply_state msg) "init" then
    emit (signal "needSnapshot") c
  else if String.eqb (reply_state msg) "reset" then
    emit (signal "sessionResetted") c
  else
    emit (qWarning "") (emit (qWarning ("Unknown reset state: "
                                        +++ reply_state msg)) c).

Definition handleServerReply (msg : ServerReply) (c : Client) : Client :=
  match reply_type msg with
  | ReplyUnknown => emit (qWarning "Unknown server reply:") c
  | ReplyLogin => emit (qWarning "got login message while in session!") c
  | ReplyMessage | ReplyAlert | ReplyError | ReplyResult =>
      emit (signal "serverMessage") c
  | ReplyLog => emit (signal "serverLog") c
  | ReplySessionConf => emit (signal "sessionConfChange") c
  | ReplySizeLimitWarning => c
  | ReplyResetRequest => emit (signal "autoresetRequested") c
  | ReplyStatus => emit (signal "serverStatusUpdate") c
  | ReplyReset => handleResetRequest msg c
  | ReplyCatchup =>
      let c1 := emit (server_setSmoothEnabled false) c in
      let catchupTo := reply_count msg in
      let c2 := emit (qInfo ("Catching up to " +++ CInt.dec catchupTo
                             +++ " messages")) c1 in
      let c3 := set_catchup catchupTo 0 0 c2 in
      emit (catchupProgress (if 0 <? catchupTo then 0 else 100)) c3
  end.

Definition handleData (msg : Message) (c : Client) : Client :=
  fold_left (fun acc name => emit (signal name) acc)
            (handleData_signals (m_myId c) msg) c.

(** The loop of [handleMessages]: the messages as the loop leaves them in
    the array, and the client. *)
Fixpoint dispatch (msgs : list Message) (c : Client)
  : list Message * Client :=
  match msgs with
  | [] => ([], c)
  | msg :: rest =>
      let '(msg1, c1) :=
        match msg_type msg with
        | DP_MSG_SERVER_COMMAND => (msg, handleServerReply (fromMessage msg) c)
        | DP_MSG_DATA => (msg, handleData msg c)
        | DP_MSG_DRAW_DABS_CLASSIC
        | DP_MSG_DRAW_DABS_PIXEL
        | DP_MSG_DRAW_DABS_PIXEL_SQUARE =>
            if m_compatibilityMode c then (setIndirectCompatFlag msg, c)
            else (msg, c)
        | DP_MSG_OTHER => (msg, c)
        end in
      let '(rest1, c2) := dispatch rest c1 in
      (msg1 :: rest1, c2)
  end.

(** The catch-up bookkeeping at the end of [handleMessages]; all three
    counters are [int]. *)
Definition catchup_step (count : Z) (c : Client) : Client :=
  if 0 <? m_catchupTo c then
    let caughtUp := CInt.add32 (m_caughtUp c) count in
    let c1 := set_catchup (m_catchupTo c) caughtUp (m_catchupProgress c) c in
    if m_catchupTo c1 <=? caughtUp then
      let c2 := emit (qInfo ("Catchup: caught up to " +++ CInt.dec caughtUp
                             +++ " messages")) c1 in
      let c3 := emit (catchupProgress 100) c2 in
      emit (server_setSmoothEnabled true)
           (set_catchup 0 (m_caughtUp c3) (m_catchupProgress c3) c3)
    else
      let progress :=
        CInt.div32 (CInt.mul32 100 caughtUp) (m_catchupTo c1) in
      if negb (progress =? m_catchupProgress c1) then
        emit (catchupProgress progress)
             (set_catchup (m_catchupTo c1) caughtUp progress c1)
      else c1
  else c.

Definition handleMessages (msgs : list Message) (c : Client) : Client :=
  let '(msgs1, c1) := dispatch msgs c in
  catchup_step (count_of msgs) (emit (messagesReceived msgs1) c1).

(** The percentages notified, in order. *)
Definition progress_values (evs : list Event) : list Z :=
  flat_map (fun e => match e with
                     | catchupProgress percent => [percent]
                     | _ => []
                     end) evs.

(** The messages handed to the server, batch by batch. *)
Definition sent_to_server (evs : list Event) : list (list Message) :=
  flat_map (fun e => match e with
                     | server_sendMessages msgs => [msgs]
                     | _ => []
                     end) evs.

(** A catch-up: the announcement of [target] messages, then the batches. *)
Definition catchup_run (target : Z) (batches : list (list Message))
    (c : Client) : Client :=
  fold_left (fun acc msgs => handleMessages msgs acc) batches
            (handleServerReply
               {| reply_type := ReplyCatchup; reply_count := target;
                  reply_state := "" |} c).

(** A message that announces no catch-up. *)
Definition announces_no_catchup (msg : Message) : Prop :=
  msg_type msg = DP_MSG_SERVER_COMMAND ->
  reply_type (fromMessage msg) <> ReplyCatchup.

(** A message the translator has a compatible form for. *)
Definition translatable (msg : Message) : bool :=
  negb (isNull (makeMessageBackwardCompatible msg)).

Definition incompatible_warning (msg : Message) : Event :=
  qWarning ("Incompatible " +++ typeName msg +++ " message").

Definition counters (c : Client) : Counters :=
  (m_catchupTo c, m_caughtUp c, m_catchupProgress c).

End NetClient.

(** ** Sample messages *)

Inductive SampleMessage :=
| SampleNull
| SampleStroke (id : nat)
| SampleSelection
| SampleCatchup (count : Z).

Definition sample_isNull (m : SampleMessage) : bool :=
  match m with SampleNull => true | _ => false end.

Definition sample_typeName (m : SampleMessage) : string :=
  match m with
  | SampleNull => "null"
  | SampleStroke _ => "drawdabsclassic"
  | SampleSelection => "selectionput"
  | SampleCatchup _ => "servercommand"
  end.

Definition sample_type (m : SampleMessage) : MessageType :=
  match m with
  | SampleCatchup _ => DP_MSG_SERVER_COMMAND
  | SampleStroke _ => DP_MSG_DRAW_DABS_CLASSIC
  | _ => DP_MSG_OTHER
  end.

(** A selection has no form in the older protocol. *)
Definition sample_compatible (m : SampleMessage) : SampleMessage :=
  match m with
  | SampleSelection => SampleNull
  | _ => m
  end.

Definition sample_reply (m : SampleMessage) : ServerReply :=
  match m with
  | SampleCatchup count =>
      {| reply_type := ReplyCatchup; reply_count := count; reply_state := "" |}
  | _ => {| reply_type := ReplyUnknown; reply_count := 0; reply_state := "" |}
  end.

Definition sample_client (server compatibility : bool)
  : Client SampleMessage :=
  {| m_server := server; m_compatibilityMode := compatibility; m_myId := 1;
     m_catchupTo := 0; m_caughtUp := 0; m_catchupProgress := 0;
     events := [] |}.

Definition sample_flag (m : SampleMessage) : SampleMessage := m.

Definition sample_signals (myId : Z) (m : SampleMessage) : list string := [].

(** The batches of a long catch-up: 21474836 strokes, then one more. *)
Definition long_catchup_batches : list (list SampleMessage) :=
  [repeat (SampleStroke 0) (Z.to_nat 21474836); [SampleStroke 0]].


(* ================================================================== *)
(** * Further definitions: the state of a connection, the reset path *)
(* ================================================================== *)

(** Two states of a store that differ at most in the schema: the tables
    and the migrations recorded. *)
Definition same_store (d d' : Database) : Prop :=
  db_file d' = db_file d
  /\ db_read_error d' = db_read_error d
  /\ db_readonly d' = db_readonly d
  /\ db_sessions d' = db_sessions d
  /\ db_messages d' = db_messages d.

(** A connection at rest: open, with no prepared statement and no
    transaction. *)
Definition idle (w : World) : Prop :=
  w_live w = [] /\ w_snapshot w = None /\ w_connected w = true.

(** Two states of the connection that differ at most in the rows of the
    sessions and messages tables, the bindings, the last rowid and the
    error slot and log. *)
Definition same_connection (w w' : World) : Prop :=
  w_live w' = w_live w /\ w_next w' = w_next w
  /\ w_connected w' = w_connected w /\ w_snapshot w' = w_snapshot w
  /\ w_finalized w' = w_finalized w
  /\ db_file (w_db w') = db_file (w_db w)
  /\ db_read_error (w_db w') = db_read_error (w_db w)
  /\ db_readonly (w_db w') = db_readonly (w_db w)
  /\ db_tables (w_db w') = db_tables (w_db w)
  /\ db_migrations (w_db w') = db_migrations (w_db w).

(** The commit of a transaction fails. *)
Definition failing_commit_env : Env :=
  {| env_fault := fun call =>
       match call with
       | CallExec ExecCommit => Some SQLITE_FULL
       | _ => None
       end;
     env_errmsg := Some "database or disk is full";
     env_now := 1700000002; env_pid := 4242 |}.

(** [DP_project_close] as it is called, on a pointer that may be null
    ([None]); [DP_project_close] above is the function past its null
    check. *)
Definition DP_project_close_ptr (env : Env) (prj : option DP_Project)
    (w : World) : bool * World :=
  match prj with
  | None => (false, DP_error_set "Project is null" w)
  | Some p => DP_project_close env (p, w)
  end.

(** ** The reset path and the end of a connection *)

Section NetClientReset.

Variable Message : Type.
Variable isNull : Message -> bool.
Variable typeName : Message -> string.
Variable makeMessageBackwardCompatible : Message -> Message.

Definition sendMessage (msg : Message) (c : Client Message)
  : Client Message :=
  sendMessages Message isNull typeName makeMessageBackwardCompatible [msg] c.

Definition sendCompatibleResetMessages (msgs : list Message)
    (c : Client Message) : Client Message :=
  if 0 <? count_of Message msgs then
    if m_server Message c
    then emit Message (server_sendMessages Message msgs) c
    else emit Message (messagesReceived Message msgs) c
  else c.

Definition sendResetMessages (msgs : list Message) (c : Client Message)
  : Client Message :=
  if m_compatibilityMode Message c then
    let '(compatibleMsgs, c1) :=
      filterCompatibleMessages Message isNull typeName
        makeMessageBackwardCompatible msgs c in
    sendCompatibleResetMessages compatibleMsgs c1
  else sendCompatibleResetMessages msgs c.

Definition sendResetMessage (msg : Message) (c : Client Message)
  : Client Message :=
  sendResetMessages [msg] c.

(** [handleDisconnect], on the fields of the message pipeline: the
    compatibility mode is switched off, [serverDisconnected] is emitted
    and [m_server] is dropped. *)
Definition handleDisconnect (c : Client Message) : Client Message :=
  {| m_server := false; m_compatibilityMode := false;
     m_myId := m_myId Message c; m_catchupTo := m_catchupTo Message c;
     m_caughtUp := m_caughtUp Message c;
     m_catchupProgress := m_catchupProgress Message c;
     events := events Message c
               ++ [signal Message "serverDisconnected"] |}.

(** The echo of outbound drawing commands to the local canvas. *)
Definition is_local_echo (e : Event Message) : bool :=
  match e with
  | drawingCommandsLocal _ _ => true
  | _ => false
  end.

(** The batches handed to the canvas as received, in order. *)
Definition received_batches (evs : list (Event Message))
  : list (list Message) :=
  flat_map (fun e => match e with
                     | messagesReceived _ msgs => [msgs]
                     | _ => []
                     end) evs.

End NetClientReset.

(** The events that neither deliver messages nor touch the catch-up or
    the smoothing: signals and log lines. *)
Definition is_notice {Message : Type} (e : Event Message) : bool :=
  match e with
  | signal _ _ | qWarning _ _ | qInfo _ _ => true
  | _ => false
  end.

(** The message types whose messages get the indirect flag in
    compatibility mode. *)
Definition is_draw_dabs (t : MessageType) : bool :=
  match t with
  | DP_MSG_DRAW_DABS_CLASSIC | DP_MSG_DRAW_DABS_PIXEL
  | DP_MSG_DRAW_DABS_PIXEL_SQUARE => true
  | _ => false
  end.

(** The switches of the stroke smoothing the client asks the server
    connection for, in order. *)
Definition smooth_settings {Message : Type} (evs : list (Event Message))
  : list bool :=
  flat_map (fun e => match e with
                     | server_setSmoothEnabled _ enabled => [enabled]
                     | _ => []
                     end) evs.

(* ================================================================== *)
(** * Properties of the project store *)
(* ================================================================== *)

#[local] Arguments CInt.int64 : simpl never.
#[local] Arguments CInt.dec : simpl never.
#[local] Arguments String.append : simpl never.
#[local] Arguments Z.add : simpl never.

Lemma is_ok_code (e : Error) : is_ok (code e) = false.
Proof. destruct e; reflexivity. Qed.

Lemma code_not_done (e : Error) : (code e =? SQLITE_DONE) = false.
Proof. destruct e; reflexivity. Qed.

Ltac fault_cases env call :=
  let F := fresh "F" in
  destruct (env_fault env call) as [?e|] eqn:F;
  cbn [fst snd];
  rewrite ?is_ok_code, ?code_not_done;
  cbn.

Ltac close_case :=
  repeat split; intros; try discriminate; try congruence; auto.

Ltac unfold_statement_calls :=
  unfold and_then, bind_next_sequence_id, ps_bind_int64, ps_bind_int,
    ps_bind_text, ps_bind_blob, ps_bind, sqlite3_bind, ps_clear_bindings,
    sqlite3_clear_bindings, ps_exec_write, sqlite3_step, sqlite3_reset;
  cbn [fst snd].

(** What one call of [DP_project_message_record] does to the session id,
    the sequence counter and the messages table. *)
Lemma message_record_cases env msg prj w :
  let r := DP_project_message_record env msg (prj, w) in
  session_id (fst (snd r)) = session_id prj
  /\ (fst r = true ->
      session_id prj <> 0
      /\ sequence_id (fst (snd r)) = CInt.int64 (sequence_id prj + 1)
      /\ exists row,
           db_messages (w_db (snd (snd r))) = db_messages (w_db w) ++ [row]
           /\ mr_session_id row = session_id prj
           /\ mr_sequence_id row = CInt.int64 (sequence_id prj + 1))
  /\ (fst r = false ->
      env_fault env (CallReset (SqlProject DP_PROJECT_STATEMENT_MESSAGE_INSERT))
      = None ->
      db_messages (w_db (snd (snd r))) = db_messages (w_db w)).
Proof.
  cbv zeta. unfold DP_project_message_record. cbn [fst snd].
  destruct (session_id prj =? 0) eqn:Hsid.
  { cbn. close_case. }
  apply Z.eqb_neq in Hsid.
  unfold DP_message_serialize_body.
  destruct (Z.of_nat (Datatypes.length (message_body msg)) =? 0) eqn:Hlen.
  { cbn. close_case. }
  unfold_statement_calls.
  fault_cases env (CallBind (SqlProject DP_PROJECT_STATEMENT_MESSAGE_INSERT) 1).
  { fault_cases env
      (CallClearBindings (SqlProject DP_PROJECT_STATEMENT_MESSAGE_INSERT));
    close_case. }
  fault_cases env (CallBind (SqlProject DP_PROJECT_STATEMENT_MESSAGE_INSERT) 2).
  { fault_cases env
      (CallClearBindings (SqlProject DP_PROJECT_STATEMENT_MESSAGE_INSERT));
    close_case. }
  fault_cases env (CallBind (SqlProject DP_PROJECT_STATEMENT_MESSAGE_INSERT) 3).
  { fault_cases env
      (CallClearBindings (SqlProject DP_PROJECT_STATEMENT_MESSAGE_INSERT));
    close_case. }
  fault_cases env (CallBind (SqlProject DP_PROJECT_STATEMENT_MESSAGE_INSERT) 4).
  { fault_cases env
      (CallClearBindings (SqlProject DP_PROJECT_STATEMENT_MESSAGE_INSERT));
    close_case. }
  fault_cases env (CallBind (SqlProject DP_PROJECT_STATEMENT_MESSAGE_INSERT) 5).
  { fault_cases env
      (CallClearBindings (SqlProject DP_PROJECT_STATEMENT_MESSAGE_INSERT));
    close_case. }
  fault_cases env (CallStep (SqlProject DP_PROJECT_STATEMENT_MESSAGE_INSERT)).
  { fault_cases env (CallReset (SqlProject DP_PROJECT_STATEMENT_MESSAGE_INSERT));
    fault_cases env
      (CallClearBindings (SqlProject DP_PROJECT_STATEMENT_MESSAGE_INSERT));
    close_case. }
  destruct (key_in_use (session_id prj) (CInt.int64 (sequence_id prj + 1))
              (db_messages (w_db w))); cbn.
  { fault_cases env (CallReset (SqlProject DP_PROJECT_STATEMENT_MESSAGE_INSERT));
    fault_cases env
      (CallClearBindings (SqlProject DP_PROJECT_STATEMENT_MESSAGE_INSERT));
    close_case. }
  fault_cases env (CallReset (SqlProject DP_PROJECT_STATEMENT_MESSAGE_INSERT));
    fault_cases env
      (CallClearBindings (SqlProject DP_PROJECT_STATEMENT_MESSAGE_INSERT));
    close_case; eexists; repeat split; reflexivity.
Qed.

Lemma int64_in_range (z : Z) :
  - CInt.LLONG_MAX - 1 <= z <= CInt.LLONG_MAX -> CInt.int64 z = z.
Proof.
  intros H. unfold CInt.int64, CInt.wrap, CInt.LLONG_MAX in *.
  change (2 ^ (64 - 1)) with 9223372036854775808.
  change (2 ^ 64) with 18446744073709551616.
  rewrite Z.mod_small; lia.
Qed.

(** What one call of [DP_project_session_open] does. *)
Lemma session_open_cases env source_type source_param protocol prj w :
  let r := DP_project_session_open env source_type source_param protocol
             (prj, w) in
  (session_id prj <> 0 ->
   r = (false,
        (prj,
         DP_error_set ("Error opening session: session "
                       +++ CInt.dec (session_id prj) +++ " already open") w)))
  /\ (session_id prj = 0 ->
      sequence_id (fst (snd r)) = 0
      /\ db_messages (w_db (snd (snd r))) = db_messages (w_db w)
      /\ (fst r = true ->
          session_id (fst (snd r)) = next_rowid (db_sessions (w_db w)))
      /\ (fst r = false -> session_id (fst (snd r)) = 0)
      /\ (fault_free env -> fst r = true)).
Proof.
  cbv zeta. unfold DP_project_session_open. cbn [fst snd]. split.
  { intros H. apply Z.eqb_neq in H. rewrite H. reflexivity. }
  intros H. rewrite H. cbn [Z.eqb].
  unfold_statement_calls.
  fault_cases env (CallBind (SqlProject DP_PROJECT_STATEMENT_SESSION_OPEN) 1).
  { fault_cases env
      (CallClearBindings (SqlProject DP_PROJECT_STATEMENT_SESSION_OPEN));
    close_case; exfalso; match goal with Hf : fault_free _ |- _ =>
      rewrite Hf in F; discriminate end. }
  fault_cases env (CallBind (SqlProject DP_PROJECT_STATEMENT_SESSION_OPEN) 2).
  { fault_cases env
      (CallClearBindings (SqlProject DP_PROJECT_STATEMENT_SESSION_OPEN));
    close_case; exfalso; match goal with Hf : fault_free _ |- _ =>
      rewrite Hf in F0; discriminate end. }
  fault_cases env (CallBind (SqlProject DP_PROJECT_STATEMENT_SESSION_OPEN) 3).
  { fault_cases env
      (CallClearBindings (SqlProject DP_PROJECT_STATEMENT_SESSION_OPEN));
    close_case; exfalso; match goal with Hf : fault_free _ |- _ =>
      rewrite Hf in F1; discriminate end. }
  fault_cases env (CallBind (SqlProject DP_PROJECT_STATEMENT_SESSION_OPEN) 4).
  { fault_cases env
      (CallClearBindings (SqlProject DP_PROJECT_STATEMENT_SESSION_OPEN));
    close_case; exfalso; match goal with Hf : fault_free _ |- _ =>
      rewrite Hf in F2; discriminate end. }
  fault_cases env (CallStep (SqlProject DP_PROJECT_STATEMENT_SESSION_OPEN)).
  { fault_cases env (CallReset (SqlProject DP_PROJECT_STATEMENT_SESSION_OPEN));
    fault_cases env
      (CallClearBindings (SqlProject DP_PROJECT_STATEMENT_SESSION_OPEN));
    close_case; exfalso; match goal with Hf : fault_free _ |- _ =>
      rewrite Hf in F3; discriminate end. }
  fault_cases env (CallReset (SqlProject DP_PROJECT_STATEMENT_SESSION_OPEN));
    fault_cases env
      (CallClearBindings (SqlProject DP_PROJECT_STATEMENT_SESSION_OPEN));
    close_case; exfalso; match goal with Hf : fault_free _ |- _ =>
      rewrite Hf in F4; discriminate end.
Qed.

(** The rows a run of consecutive successful records appends, starting
    with the counter at [k]. *)
Lemma record_all_sequence calls : forall (k : nat) prj w,
  sequence_id prj = Z.of_nat k ->
  Z.of_nat k + Z.of_nat (List.length calls) <= CInt.LLONG_MAX ->
  Forall (fun r => r = true) (fst (record_all calls (prj, w))) ->
  let s := snd (record_all calls (prj, w)) in
  session_id (fst s) = session_id prj
  /\ sequence_id (fst s) = Z.of_nat (k + List.length calls)
  /\ exists rows,
       db_messages (w_db (snd s)) = db_messages (w_db w) ++ rows
       /\ map mr_sequence_id rows
          = map Z.of_nat (seq (S k) (List.length calls))
       /\ Forall (fun row => mr_session_id row = session_id prj) rows.
Proof.
  induction calls as [|[env msg] rest IH]; intros k prj w Hk Hmax Hall.
  - cbn. rewrite Nat.add_0_r. repeat split; auto.
    exists []. rewrite app_nil_r. repeat split; auto.
  - cbn [record_all] in *.
    pose proof (message_record_cases env msg prj w) as Hrec. cbv zeta in Hrec.
    destruct (DP_project_message_record env msg (prj, w)) as [r [prj1 w1]].
    cbn [fst snd] in Hrec. destruct Hrec as (Hsid & Hok & _).
    specialize (IH (S k) prj1 w1).
    destruct (record_all rest (prj1, w1)) as [rs [prj2 w2]] eqn:Hrest.
    cbn [fst snd] in *. inversion Hall as [|? ? Hr Hrs]; subst.
    destruct (Hok eq_refl) as (_ & Hseq & row & Hrows & Hrsid & Hrseq).
    cbn [List.length] in Hmax.
    assert (Hint : CInt.int64 (sequence_id prj + 1) = Z.of_nat (S k)).
    { rewrite Hk, int64_in_range; unfold CInt.LLONG_MAX in *; lia. }
    destruct IH as (Hsid2 & Hseq2 & rows & Hrows2 & Hids & Hsids); auto.
    { congruence. }
    { lia. }
    repeat split.
    + congruence.
    + rewrite Hseq2. cbn [List.length]. f_equal. lia.
    + exists (row :: rows). repeat split.
      * rewrite Hrows2, Hrows, <- app_assoc. reflexivity.
      * cbn [map seq List.length]. rewrite Hids. f_equal. congruence.
      * constructor; [assumption|].
        rewrite Hsid in Hsids. exact Hsids.
Qed.

(** C1. After a session was opened, N consecutive successful
    [DP_project_message_record] calls append N rows to the messages
    table, all under the session just opened, whose sequence ids are
    exactly 1, 2, ..., N: opening the session resets the counter to 0 and
    every recorded message increments it by one. *)
Theorem message_record_sequence_ids :
  forall env0 source_type source_param protocol prj w calls,
    let opened :=
      DP_project_session_open env0 source_type source_param protocol (prj, w) in
    let run := record_all calls (snd opened) in
    fst opened = true ->
    Z.of_nat (List.length calls) <= CInt.LLONG_MAX ->
    Forall (fun r => r = true) (fst run) ->
    sequence_id (fst (snd opened)) = 0
    /\ exists rows,
         db_messages (w_db (snd (snd run)))
         = db_messages (w_db (snd (snd opened))) ++ rows
         /\ map mr_sequence_id rows
            = map Z.of_nat (seq 1 (List.length calls))
         /\ Forall (fun row =>
                      mr_session_id row = session_id (fst (snd opened))) rows.
Proof.
  intros env0 source_type source_param protocol prj w calls opened run
         Hopen Hmax Hall.
  pose proof (session_open_cases env0 source_type source_param protocol prj w)
    as [Hbusy Hfree].
  fold opened in Hbusy, Hfree.
  destruct (Z.eq_dec (session_id prj) 0) as [Hzero|Hnonzero].
  2:{ rewrite (Hbusy Hnonzero) in Hopen. discriminate. }
  destruct (Hfree Hzero) as (Hseq & _).
  split; [exact Hseq|].
  subst run. destruct (snd opened) as [prj1 w1] eqn:Hs. cbn [fst snd] in *.
  destruct (record_all_sequence calls 0 prj1 w1 Hseq Hmax Hall)
    as (_ & _ & rows & Hrows & Hids & Hsids).
  exists rows. auto.
Qed.

Lemma message_record_sequence_ids_witness :
  let opened :=
    DP_project_session_open quiet_env DP_PROJECT_SOURCE_BLANK None "dp:4.24.0"
      (sample_project, sample_world) in
  let calls := [(quiet_env, sample_message); (quiet_env, sample_message);
                (quiet_env, sample_message)] in
  let run := record_all calls (snd opened) in
  fst opened = true
  /\ Z.of_nat (List.length calls) <= CInt.LLONG_MAX
  /\ Forall (fun r => r = true) (fst run)
  /\ map mr_sequence_id (db_messages (w_db (snd (snd run)))) = [1; 2; 3].
Proof.
  cbv zeta.
  assert (H1 : fst (DP_project_session_open quiet_env DP_PROJECT_SOURCE_BLANK
                      None "dp:4.24.0" (sample_project, sample_world)) = true)
    by reflexivity.
  assert (H2 : Z.of_nat (List.length
                 [(quiet_env, sample_message); (quiet_env, sample_message);
                  (quiet_env, sample_message)]) <= CInt.LLONG_MAX)
    by (vm_compute; discriminate).
  assert (H3 : Forall (fun r => r = true)
                 (fst (record_all
                    [(quiet_env, sample_message); (quiet_env, sample_message);
                     (quiet_env, sample_message)]
                    (snd (DP_project_session_open quiet_env
                            DP_PROJECT_SOURCE_BLANK None "dp:4.24.0"
                            (sample_project, sample_world))))))
    by (vm_compute; repeat constructor).
  split; [exact H1|]. split; [exact H2|]. split; [exact H3|].
  destruct (message_record_sequence_ids quiet_env DP_PROJECT_SOURCE_BLANK None
              "dp:4.24.0" sample_project sample_world _ H1 H2 H3)
    as (_ & rows & Hrows & Hids & _).
  rewrite Hrows, map_app, Hids. reflexivity.
Defined.

(** The rows appended by a run in which every record succeeds and every
    other call fails, starting with the counter at [k]. *)
Lemma api_run_sequence calls : forall (k : nat) prj w,
  (session_id prj <> 0 -> sequence_id prj = Z.of_nat k) ->
  Z.of_nat k + Z.of_nat (List.length (filter is_message_record calls))
  <= CInt.LLONG_MAX ->
  Forall2 records_succeed_others_fail calls (fst (api_run calls (prj, w))) ->
  let s := snd (api_run calls (prj, w)) in
  exists rows,
    db_messages (w_db (snd s)) = db_messages (w_db w) ++ rows
    /\ map mr_sequence_id rows
       = map Z.of_nat
             (seq (S k) (List.length (filter is_message_record calls)))
    /\ Forall (fun row => mr_session_id row = session_id prj) rows.
Proof.
  induction calls as [|call rest IH]; intros k prj w Hk Hmax Hall.
  { cbn. exists []. rewrite app_nil_r. auto. }
  cbn [api_run] in *.
  destruct call as [env msg|env source_type source_param protocol|];
    cbn [api_call filter is_message_record List.length] in *.
  - pose proof (message_record_cases env msg prj w) as Hrec. cbv zeta in Hrec.
    destruct (DP_project_message_record env msg (prj, w)) as [r [prj1 w1]].
    cbn [fst snd] in Hrec. destruct Hrec as (Hsid & Hok & _).
    specialize (IH (S k) prj1 w1).
    destruct (api_run rest (prj1, w1)) as [rs [prj2 w2]].
    cbn [fst snd] in *. apply Forall2_cons_iff in Hall as [Hr Hrs].
    cbn in Hr. injection Hr as ->.
    destruct (Hok eq_refl) as (Hopen & Hseq & row & Hrows & Hrsid & Hrseq).
    assert (Hint : CInt.int64 (sequence_id prj + 1) = Z.of_nat (S k)).
    { rewrite (Hk Hopen), int64_in_range; unfold CInt.LLONG_MAX in *; lia. }
    destruct IH as (rows & Hrows2 & Hids & Hsids).
    { intros _. congruence. }
    { lia. }
    { exact Hrs. }
    exists (row :: rows). repeat split.
    + rewrite Hrows2, Hrows, <- app_assoc. reflexivity.
    + cbn [map seq]. rewrite Hids. f_equal. congruence.
    + constructor; [assumption|]. rewrite Hsid in Hsids. exact Hsids.
  - pose proof (session_open_cases env source_type source_param protocol prj w)
      as [Hbusy Hfree]. cbv zeta in Hbusy, Hfree.
    destruct (DP_project_session_open env source_type source_param protocol
                (prj, w)) as [r [prj1 w1]] eqn:Hcall.
    specialize (IH k prj1 w1).
    destruct (api_run rest (prj1, w1)) as [rs [prj2 w2]].
    cbn [fst snd] in *. apply Forall2_cons_iff in Hall as [Hr Hrs].
    cbn in Hr. injection Hr as ->.
    destruct (Z.eq_dec (session_id prj) 0) as [Hzero|Hopen].
    + destruct (Hfree Hzero) as (_ & Hmsgs & _ & Hstay & _).
      destruct IH as (rows & Hrows2 & Hids & Hsids).
      { intros Hne. exfalso. apply Hne. auto. }
      { exact Hmax. }
      { exact Hrs. }
      exists rows. rewrite Hrows2, Hmsgs.
      rewrite (Hstay eq_refl) in Hsids. rewrite Hzero. auto.
    + injection (Hbusy Hopen) as Hprj Hw. subst prj1 w1.
      destruct IH as (rows & Hrows2 & Hids & Hsids); auto.
      exists rows. auto.
  - specialize (IH k prj w).
    destruct (api_run rest (prj, w)) as [rs [prj2 w2]].
    cbn [fst snd] in *. apply Forall2_cons_iff in Hall as [Hr Hrs].
    destruct IH as (rows & Hrows2 & Hids & Hsids); auto.
    exists rows. auto.
Qed.

(** Sequence monotonicity with other calls in between, as the
    specification words it under its testable properties: after a
    session was opened, in a
    run of calls in which every [DP_project_message_record] succeeds and
    every interleaved [DP_project_session_open] fails, the rows recorded
    carry the sequence ids 1, 2, ..., N in order, N being the number of
    records in the run. *)
Theorem message_record_sequence_ids_interleaved :
  forall env0 source_type source_param protocol prj w calls,
    let opened :=
      DP_project_session_open env0 source_type source_param protocol (prj, w) in
    let run := api_run calls (snd opened) in
    let N := List.length (filter is_message_record calls) in
    fst opened = true ->
    Z.of_nat N <= CInt.LLONG_MAX ->
    Forall2 records_succeed_others_fail calls (fst run) ->
    exists rows,
      db_messages (w_db (snd (snd run)))
      = db_messages (w_db (snd (snd opened))) ++ rows
      /\ map mr_sequence_id rows = map Z.of_nat (seq 1 N)
      /\ Forall (fun row =>
                   mr_session_id row = session_id (fst (snd opened))) rows.
Proof.
  intros env0 source_type source_param protocol prj w calls opened run N
         Hopen Hmax Hall.
  pose proof (session_open_cases env0 source_type source_param protocol prj w)
    as [Hbusy Hfree].
  fold opened in Hbusy, Hfree.
  destruct (Z.eq_dec (session_id prj) 0) as [Hzero|Hnonzero].
  2:{ rewrite (Hbusy Hnonzero) in Hopen. discriminate. }
  destruct (Hfree Hzero) as (Hseq & _).
  subst run N. destruct (snd opened) as [prj1 w1] eqn:Hs. cbn [fst snd] in *.
  apply (api_run_sequence calls 0 prj1 w1); auto.
Qed.

(** C2. While a session is open (the current session id is nonzero),
    [DP_project_session_open] returns false, sets an error that names the
    open session's id, and changes neither the current session id nor
    the sequence counter (nor anything else in the project or the
    database). *)
Theorem session_open_while_open_fails :
  forall env source_type source_param protocol prj w,
    session_id prj <> 0 ->
    let r := DP_project_session_open env source_type source_param protocol
               (prj, w) in
    fst r = false
    /\ w_error (snd (snd r))
       = "Error opening session: session " +++ CInt.dec (session_id prj)
         +++ " already open"
    /\ session_id (fst (snd r)) = session_id prj
    /\ sequence_id (fst (snd r)) = sequence_id prj
    /\ fst (snd r) = prj
    /\ w_db (snd (snd r)) = w_db w.
Proof.
  intros env source_type source_param protocol prj w Hopen r.
  destruct (session_open_cases env source_type source_param protocol prj w)
    as [Hbusy _].
  subst r. rewrite (Hbusy Hopen). cbn. repeat split; reflexivity.
Qed.

Lemma session_open_while_open_fails_witness :
  session_id busy_project <> 0
  /\ let r := DP_project_session_open quiet_env DP_PROJECT_SOURCE_SESSION_JOIN
                (Some "drawpile://whatever/something") "dp:4.24.2"
                (busy_project, busy_world) in
     fst r = false
     /\ w_error (snd (snd r)) = "Error opening session: session 2 already open"
     /\ session_id (fst (snd r)) = 2
     /\ sequence_id (fst (snd r)) = 3.
Proof.
  assert (H : session_id busy_project <> 0) by (cbn; discriminate).
  split; [exact H|].
  destruct (session_open_while_open_fails quiet_env
              DP_PROJECT_SOURCE_SESSION_JOIN
              (Some "drawpile://whatever/something") "dp:4.24.2"
              busy_project busy_world H)
    as (Hr & Herr & Hsid & Hseq & _).
  cbv zeta. split; [exact Hr|]. split; [rewrite Herr; reflexivity|].
  split; [rewrite Hsid; reflexivity|]. rewrite Hseq. reflexivity.
Defined.

(** C3. A [DP_project_message_record] call made while a session is open
    that gets as far as the insert (the body serialized and the session
    id bound) and then fails has already incremented the sequence
    counter: the failed call consumes a sequence number, and the next
    successful record is written under the number after it.  When the
    failed call wrote no row, the recorded stream therefore has a gap. *)
Theorem failed_insert_consumes_sequence_number :
  forall env msg prj w env2 msg2,
    session_id prj <> 0 ->
    message_body msg <> [] ->
    env_fault env (CallBind (SqlProject DP_PROJECT_STATEMENT_MESSAGE_INSERT) 1)
    = None ->
    let r := DP_project_message_record env msg (prj, w) in
    let r2 := DP_project_message_record env2 msg2 (snd r) in
    fst r = false ->
    session_id (fst (snd r)) = session_id prj
    /\ sequence_id (fst (snd r)) = CInt.int64 (sequence_id prj + 1)
    /\ (env_fault env (CallReset (SqlProject DP_PROJECT_STATEMENT_MESSAGE_INSERT))
        = None ->
        db_messages (w_db (snd (snd r))) = db_messages (w_db w))
    /\ (fst r2 = true ->
        exists row,
          db_messages (w_db (snd (snd r2)))
          = db_messages (w_db (snd (snd r))) ++ [row]
          /\ mr_session_id row = session_id prj
          /\ mr_sequence_id row
             = CInt.int64 (CInt.int64 (sequence_id prj + 1) + 1)).
Proof.
  intros env msg prj w env2 msg2 Hsid Hbody Hbind r r2 Hfail.
  assert (Hseq : sequence_id (fst (snd r)) = CInt.int64 (sequence_id prj + 1)).
  { revert Hfail. subst r2 r. unfold DP_project_message_record. cbn [fst snd].
    apply Z.eqb_neq in Hsid. rewrite Hsid.
    unfold DP_message_serialize_body.
    destruct (Z.of_nat (Datatypes.length (message_body msg)) =? 0) eqn:Hlen.
    { apply Z.eqb_eq in Hlen. destruct (message_body msg); [congruence|].
      cbn [List.length] in Hlen. lia. }
    unfold_statement_calls. rewrite Hbind. cbn.
    fault_cases env
      (CallBind (SqlProject DP_PROJECT_STATEMENT_MESSAGE_INSERT) 2).
    { fault_cases env
        (CallClearBindings (SqlProject DP_PROJECT_STATEMENT_MESSAGE_INSERT));
      close_case. }
    fault_cases env
      (CallBind (SqlProject DP_PROJECT_STATEMENT_MESSAGE_INSERT) 3).
    { fault_cases env
        (CallClearBindings (SqlProject DP_PROJECT_STATEMENT_MESSAGE_INSERT));
      close_case. }
    fault_cases env
      (CallBind (SqlProject DP_PROJECT_STATEMENT_MESSAGE_INSERT) 4).
    { fault_cases env
        (CallClearBindings (SqlProject DP_PROJECT_STATEMENT_MESSAGE_INSERT));
      close_case. }
    fault_cases env
      (CallBind (SqlProject DP_PROJECT_STATEMENT_MESSAGE_INSERT) 5).
    { fault_cases env
        (CallClearBindings (SqlProject DP_PROJECT_STATEMENT_MESSAGE_INSERT));
      close_case. }
    fault_cases env (CallStep (SqlProject DP_PROJECT_STATEMENT_MESSAGE_INSERT)).
    { fault_cases env
        (CallReset (SqlProject DP_PROJECT_STATEMENT_MESSAGE_INSERT));
      fault_cases env
        (CallClearBindings (SqlProject DP_PROJECT_STATEMENT_MESSAGE_INSERT));
      close_case. }
    destruct (key_in_use (session_id prj) (CInt.int64 (sequence_id prj + 1))
                (db_messages (w_db w))); cbn;
      fault_cases env
        (CallReset (SqlProject DP_PROJECT_STATEMENT_MESSAGE_INSERT));
      fault_cases env
        (CallClearBindings (SqlProject DP_PROJECT_STATEMENT_MESSAGE_INSERT));
      close_case. }
  pose proof (message_record_cases env msg prj w) as H1. cbv zeta in H1.
  fold r in H1. destruct H1 as (Hsame & _ & Hkeep).
  pose proof (message_record_cases env2 msg2 (fst (snd r)) (snd (snd r)))
    as H2. cbv zeta in H2.
  replace (fst (snd r), snd (snd r)) with (snd r) in H2
    by (destruct (snd r); reflexivity).
  fold r2 in H2. destruct H2 as (_ & Hnext & _).
  split; [exact Hsame|]. split; [exact Hseq|]. split; [auto|].
  intros Hok. destruct (Hnext Hok) as (_ & _ & row & Hrows & Hrsid & Hrseq).
  exists row. rewrite Hrows, Hrsid, Hrseq, Hsame, Hseq. auto.
Qed.

(** A record that fails before the insert is attempted, because the body
    serializes to nothing or because the session id cannot be bound, does
    not touch the sequence counter. *)
Lemma failure_before_insert_keeps_sequence_number env msg prj w :
  session_id prj <> 0 ->
  message_body msg = []
  \/ env_fault env (CallBind (SqlProject DP_PROJECT_STATEMENT_MESSAGE_INSERT) 1)
     <> None ->
  let r := DP_project_message_record env msg (prj, w) in
  fst r = false
  /\ sequence_id (fst (snd r)) = sequence_id prj
  /\ db_messages (w_db (snd (snd r))) = db_messages (w_db w).
Proof.
  intros Hsid Hearly. cbv zeta. unfold DP_project_message_record.
  cbn [fst snd]. apply Z.eqb_neq in Hsid. rewrite Hsid.
  unfold DP_message_serialize_body.
  destruct (Z.of_nat (Datatypes.length (message_body msg)) =? 0) eqn:Hlen.
  { cbn. auto. }
  destruct Hearly as [Hbody|Hbind].
  { rewrite Hbody in Hlen. discriminate. }
  unfold_statement_calls.
  fault_cases env (CallBind (SqlProject DP_PROJECT_STATEMENT_MESSAGE_INSERT) 1);
    [|congruence].
  fault_cases env
    (CallClearBindings (SqlProject DP_PROJECT_STATEMENT_MESSAGE_INSERT)); auto.
Qed.

Lemma failed_insert_consumes_sequence_number_witness :
  let r := DP_project_message_record full_disk_env sample_message
             (busy_project, busy_world) in
  let r2 := DP_project_message_record quiet_env sample_message (snd r) in
  session_id busy_project <> 0
  /\ message_body sample_message <> []
  /\ env_fault full_disk_env
       (CallBind (SqlProject DP_PROJECT_STATEMENT_MESSAGE_INSERT) 1) = None
  /\ fst r = false
  /\ sequence_id busy_project = 3
  /\ sequence_id (fst (snd r)) = 4
  /\ map mr_sequence_id (db_messages (w_db (snd (snd r)))) = [1; 2; 3]
  /\ fst r2 = true
  /\ map mr_sequence_id (db_messages (w_db (snd (snd r2)))) = [1; 2; 3; 5].
Proof.
  cbv zeta.
  assert (H1 : session_id busy_project <> 0) by (cbn; discriminate).
  assert (H2 : message_body sample_message <> []) by (cbn; discriminate).
  assert (H3 : env_fault full_disk_env
                 (CallBind (SqlProject DP_PROJECT_STATEMENT_MESSAGE_INSERT) 1)
               = None) by reflexivity.
  assert (H4 : fst (DP_project_message_record full_disk_env sample_message
                      (busy_project, busy_world)) = false)
    by (vm_compute; reflexivity).
  assert (H5 : fst (DP_project_message_record quiet_env sample_message
                 (snd (DP_project_message_record full_disk_env sample_message
                         (busy_project, busy_world)))) = true)
    by (vm_compute; reflexivity).
  destruct (failed_insert_consumes_sequence_number full_disk_env sample_message
              busy_project busy_world quiet_env sample_message H1 H2 H3 H4)
    as (_ & Hseq & Hkeep & Hnext).
  destruct (Hnext H5) as (row & Hrows & _ & Hrseq).
  split; [exact H1|]. split; [exact H2|]. split; [exact H3|].
  split; [exact H4|]. split; [reflexivity|].
  split; [rewrite Hseq; reflexivity|].
  split; [rewrite (Hkeep eq_refl); reflexivity|].
  split; [exact H5|].
  rewrite Hrows, (Hkeep eq_refl), map_app. cbn [map]. rewrite Hrseq.
  reflexivity.
Defined.

(** C9. [DP_project_session_close] returns one of three distinct
    results: -1 when no session is open (and then nothing changes), 0
    when a session was open and the close update failed, 1 when a session
    was open and the update was carried out (and then the session's row
    carries the close time). *)
Theorem session_close_tristate :
  forall env prj w,
    let r := DP_project_session_close env (prj, w) in
    (session_id prj = 0 -> fst r = -1 /\ snd r = (prj, w))
    /\ (session_id prj <> 0 -> close_update_ok env = false -> fst r = 0)
    /\ (session_id prj <> 0 -> close_update_ok env = true ->
        fst r = 1
        /\ db_sessions (w_db (snd (snd r)))
           = map (close_row (env_now env) (session_id prj))
                 (db_sessions (w_db w)))
    /\ (fst r = -1 \/ fst r = 0 \/ fst r = 1)
    /\ (fst r = -1 <-> session_id prj = 0).
Proof.
  intros env prj w. cbv zeta. unfold DP_project_session_close, close_update_ok.
  cbn [fst snd].
  destruct (session_id prj =? 0) eqn:Hsid.
  { apply Z.eqb_eq in Hsid. cbn. repeat split; intros; auto; congruence. }
  apply Z.eqb_neq in Hsid.
  unfold_statement_calls.
  fault_cases env (CallBind (SqlProject DP_PROJECT_STATEMENT_SESSION_CLOSE) 1).
  { repeat split; intros; auto; try congruence; discriminate. }
  fault_cases env (CallStep (SqlProject DP_PROJECT_STATEMENT_SESSION_CLOSE)).
  { fault_cases env (CallReset (SqlProject DP_PROJECT_STATEMENT_SESSION_CLOSE));
      repeat split; intros; auto; try congruence; discriminate. }
  fault_cases env (CallReset (SqlProject DP_PROJECT_STATEMENT_SESSION_CLOSE));
    repeat split; intros; auto; try congruence; discriminate.
Qed.

Lemma session_close_tristate_witness :
  (session_id sample_project = 0
   /\ fst (DP_project_session_close quiet_env (sample_project, sample_world))
      = -1)
  /\ (session_id busy_project <> 0 /\ close_update_ok full_disk_env = false
      /\ fst (DP_project_session_close full_disk_env
                (busy_project, busy_world)) = 0)
  /\ (close_update_ok quiet_env = true
      /\ fst (DP_project_session_close quiet_env (busy_project, busy_world))
         = 1).
Proof.
  assert (H0 : session_id sample_project = 0) by reflexivity.
  assert (H1 : session_id busy_project <> 0) by (cbn; discriminate).
  assert (H2 : close_update_ok full_disk_env = false) by reflexivity.
  assert (H3 : close_update_ok quiet_env = true) by reflexivity.
  destruct (session_close_tristate quiet_env sample_project sample_world)
    as (Hnone & _).
  destruct (session_close_tristate full_disk_env busy_project busy_world)
    as (_ & Hfail & _).
  destruct (session_close_tristate quiet_env busy_project busy_world)
    as (_ & _ & Hdone & _).
  split; [split; [exact H0 | exact (proj1 (Hnone H0))]|].
  split; [split; [exact H1 | split; [exact H2 | exact (Hfail H1 H2)]]|].
  split; [exact H3 | exact (proj1 (Hdone H1 H3))].
Defined.

(** When no session is open, a [DP_project_session_open] that fails
    fails in the engine: the error it leaves is not the rejection for an
    open session. *)
Lemma session_open_failure_is_engine_error env source_type source_param
    protocol prj w :
  session_id prj = 0 ->
  let r := DP_project_session_open env source_type source_param protocol
             (prj, w) in
  fst r = false ->
  String.prefix "Error opening session" (w_error (snd (snd r))) = false.
Proof.
  intros Hzero. cbv zeta. unfold DP_project_session_open. cbn [fst snd].
  rewrite Hzero. cbn [Z.eqb].
  unfold_statement_calls.
  fault_cases env (CallBind (SqlProject DP_PROJECT_STATEMENT_SESSION_OPEN) 1).
  { fault_cases env
      (CallClearBindings (SqlProject DP_PROJECT_STATEMENT_SESSION_OPEN));
      intros _; destruct e; reflexivity. }
  fault_cases env (CallBind (SqlProject DP_PROJECT_STATEMENT_SESSION_OPEN) 2).
  { fault_cases env
      (CallClearBindings (SqlProject DP_PROJECT_STATEMENT_SESSION_OPEN));
      intros _; destruct e; reflexivity. }
  fault_cases env (CallBind (SqlProject DP_PROJECT_STATEMENT_SESSION_OPEN) 3).
  { fault_cases env
      (CallClearBindings (SqlProject DP_PROJECT_STATEMENT_SESSION_OPEN));
      intros _; destruct e; reflexivity. }
  fault_cases env (CallBind (SqlProject DP_PROJECT_STATEMENT_SESSION_OPEN) 4).
  { fault_cases env
      (CallClearBindings (SqlProject DP_PROJECT_STATEMENT_SESSION_OPEN));
      intros _; destruct e; reflexivity. }
  fault_cases env (CallStep (SqlProject DP_PROJECT_STATEMENT_SESSION_OPEN)).
  { fault_cases env (CallReset (SqlProject DP_PROJECT_STATEMENT_SESSION_OPEN));
    fault_cases env
      (CallClearBindings (SqlProject DP_PROJECT_STATEMENT_SESSION_OPEN));
      intros _; destruct e; reflexivity. }
  fault_cases env (CallReset (SqlProject DP_PROJECT_STATEMENT_SESSION_OPEN));
    fault_cases env
      (CallClearBindings (SqlProject DP_PROJECT_STATEMENT_SESSION_OPEN));
    intros H; try discriminate H; destruct e; reflexivity.
Qed.

(** C10. [DP_project_session_close] on a project with an open session
    clears the current session id before it attempts the update: whatever
    the update's outcome, also when it fails and the call returns 0, the
    project reports no open session afterwards, and a later
    [DP_project_session_open] is not rejected for a session being open:
    if it fails, it fails in the engine, and in an environment without
    faults it succeeds. *)
Theorem session_close_clears_session_id :
  forall env prj w,
    session_id prj <> 0 ->
    let r := DP_project_session_close env (prj, w) in
    DP_project_session_id (fst (snd r)) = 0
    /\ (fst r = 0 \/ fst r = 1)
    /\ forall env2 source_type source_param protocol,
         let r2 := DP_project_session_open env2 source_type source_param
                     protocol (snd r) in
         (fst r2 = false ->
          String.prefix "Error opening session" (w_error (snd (snd r2)))
          = false)
         /\ (fault_free env2 ->
             fst r2 = true
             /\ session_id (fst (snd r2))
                = next_rowid (db_sessions (w_db (snd (snd r))))
             /\ sequence_id (fst (snd r2)) = 0).
Proof.
  intros env prj w Hopen r.
  assert (Hid : session_id (fst (snd r)) = 0
                /\ (fst r = 0 \/ fst r = 1)).
  { subst r. unfold DP_project_session_close. cbn [fst snd].
    apply Z.eqb_neq in Hopen. rewrite Hopen.
    unfold_statement_calls.
    fault_cases env
      (CallBind (SqlProject DP_PROJECT_STATEMENT_SESSION_CLOSE) 1); auto.
    fault_cases env
      (CallStep (SqlProject DP_PROJECT_STATEMENT_SESSION_CLOSE)).
    { fault_cases env
        (CallReset (SqlProject DP_PROJECT_STATEMENT_SESSION_CLOSE)); auto. }
    fault_cases env
      (CallReset (SqlProject DP_PROJECT_STATEMENT_SESSION_CLOSE)); auto. }
  destruct Hid as [Hid Hres].
  split; [exact Hid|]. split; [exact Hres|].
  intros env2 source_type source_param protocol r2.
  pose proof (session_open_cases env2 source_type source_param protocol
                (fst (snd r)) (snd (snd r))) as [_ Hzero].
  pose proof (session_open_failure_is_engine_error env2 source_type
                source_param protocol (fst (snd r)) (snd (snd r)) Hid)
    as Hengine.
  cbv zeta in Hengine.
  replace (fst (snd r), snd (snd r)) with (snd r) in Hzero, Hengine
    by (destruct (snd r); reflexivity).
  fold r2 in Hzero, Hengine.
  destruct (Hzero Hid) as (Hseq & _ & Hnew & _ & Hok).
  split; [exact Hengine|]. intros Hfree.
  split; [auto|]. split; [auto|exact Hseq].
Qed.

Lemma session_close_clears_session_id_witness :
  let r := DP_project_session_close full_disk_env (busy_project, busy_world) in
  let r2 := DP_project_session_open quiet_env DP_PROJECT_SOURCE_BLANK None
              "dp:4.24.0" (snd r) in
  session_id busy_project <> 0
  /\ fault_free quiet_env
  /\ fst r = 0
  /\ DP_project_session_id (fst (snd r)) = 0
  /\ fst r2 = true
  /\ session_id (fst (snd r2)) = 3.
Proof.
  cbv zeta.
  assert (H1 : session_id busy_project <> 0) by (cbn; discriminate).
  assert (H2 : fault_free quiet_env) by (intros call; reflexivity).
  destruct (session_close_clears_session_id full_disk_env busy_project
              busy_world H1) as (Hid & _ & Hopen).
  destruct (proj2 (Hopen quiet_env DP_PROJECT_SOURCE_BLANK None "dp:4.24.0")
              H2) as (Hok & Hnew & _).
  split; [exact H1|]. split; [exact H2|]. split; [reflexivity|].
  split; [exact Hid|]. split; [exact Hok|].
  rewrite Hnew. reflexivity.
Defined.

(** ** The header check *)

Lemma read_prefix_only (n : nat) (p : list byte) :
  (4 <= n)%nat ->
  DP_read_bigendian_int32 (firstn n p) = DP_read_bigendian_int32 p.
Proof.
  intros Hn.
  do 4 (destruct n as [|n]; [lia|]).
  destruct p as [|b0 [|b1 [|b2 [|b3 p]]]]; reflexivity.
Qed.

Lemma buffer_application_id (bytes : list byte) :
  DP_read_bigendian_int32 (skipn 68 (firstn 72 bytes))
  = file_application_id bytes.
Proof.
  unfold file_application_id. rewrite skipn_firstn_comm.
  apply read_prefix_only. cbn. lia.
Qed.

Lemma buffer_user_version (bytes : list byte) :
  DP_read_bigendian_int32 (skipn 60 (firstn 72 bytes))
  = file_user_version bytes.
Proof.
  unfold file_user_version. rewrite skipn_firstn_comm.
  apply read_prefix_only. cbn. lia.
Qed.

Lemma buffer_magic (bytes : list byte) :
  memcmp_eq (firstn 72 bytes) magic 16 = file_has_magic bytes.
Proof.
  unfold memcmp_eq, file_has_magic. rewrite firstn_firstn.
  reflexivity.
Qed.

Lemma project_check_outcome (fs : FileSystem) (path : string) :
  check_outcome (fs path) (DP_project_check fs path).
Proof.
  unfold DP_project_check, DP_file_input_new_from_path, DP_input_read.
  destruct (fs path) as [f|]; [|constructor].
  destruct (db_read_error f) eqn:Herr; [constructor; assumption|].
  rewrite buffer_magic, buffer_application_id, buffer_user_version.
  destruct (Z.of_nat (Datatypes.length (firstn 72 (db_file f))) <? 72)
    eqn:Hlen.
  { apply Z.ltb_lt in Hlen. rewrite length_firstn in Hlen.
    apply check_short_header; [assumption|lia]. }
  apply Z.ltb_ge in Hlen. rewrite length_firstn in Hlen.
  assert (Hlong : (72 <= Datatypes.length (db_file f))%nat) by lia.
  destruct (file_has_magic (db_file f)) eqn:Hmagic; cbn [negb];
    [|apply check_wrong_magic; assumption].
  destruct (file_application_id (db_file f) =? DP_PROJECT_APPLICATION_ID)
    eqn:Happ; cbn [negb].
  2:{ apply Z.eqb_neq in Happ. apply check_wrong_application_id; assumption. }
  apply Z.eqb_eq in Happ.
  destruct (file_user_version (db_file f) <? 1) eqn:Hver.
  - apply Z.ltb_lt in Hver. apply check_wrong_user_version; assumption.
  - apply Z.ltb_ge in Hver. apply check_valid; assumption.
Qed.

(** C5. [DP_project_check] answers every failure case with its own
    error code: the file cannot be opened, it cannot be read, it has fewer
    than 72 bytes, its first 16 bytes are not the magic signature, the
    big-endian application id at offset 68 is wrong, or the big-endian
    user version at offset 60 is below 1.  Otherwise it returns that user
    version, which is at least 1.  The six codes are negative and
    pairwise distinct, so the result is never 0, is negative exactly in
    the failure cases and is one of the six codes then. *)
Theorem project_check_distinct_codes :
  forall fs path,
    let r := DP_project_check fs path in
    check_outcome (fs path) r
    /\ r <> 0
    /\ (r < 0 -> In r check_error_codes)
    /\ (0 < r ->
        exists f, fs path = Some f /\ r = file_user_version (db_file f))
    /\ NoDup check_error_codes
    /\ Forall (fun c => c < 0) check_error_codes.
Proof.
  intros fs path r.
  pose proof (project_check_outcome fs path) as H. fold r in H.
  split; [exact H|].
  assert (Hcodes : NoDup check_error_codes
                   /\ Forall (fun c => c < 0) check_error_codes).
  { split.
    - unfold check_error_codes.
      repeat (constructor; [cbn; intuition discriminate|]). constructor.
    - unfold check_error_codes. repeat constructor. }
  destruct Hcodes as [Hnodup Hneg].
  repeat split; try assumption.
  - inversion H; subst; try discriminate. lia.
  - intros Hlt. inversion H; subst; cbn; auto 10.
    match goal with Hr : _ = r |- _ => rewrite <- Hr in Hlt end. lia.
  - intros Hpos. inversion H as [| | | | | |f ? ? ? ? ? Hf Hr];
      subst; try (rewrite <- H1 in Hpos; discriminate);
      try (match goal with Hr : _ = r |- _ =>
             rewrite <- Hr in Hpos; discriminate end).
    exists f. auto.
Qed.

Lemma project_check_distinct_codes_witness :
  let r := DP_project_check (single_file "a.dppr" fresh_project_file) "a.dppr" in
  0 < r /\ r = 1
  /\ DP_project_check (single_file "a.dppr" fresh_project_file) "b.dppr" = -1.
Proof.
  cbv zeta.
  destruct (project_check_distinct_codes
              (single_file "a.dppr" fresh_project_file) "a.dppr")
    as (_ & _ & _ & Hpos & _).
  assert (H : 0 < DP_project_check (single_file "a.dppr" fresh_project_file)
                    "a.dppr") by reflexivity.
  destruct (Hpos H) as (f & Hf & Hr).
  split; [exact H|]. split; [|reflexivity].
  rewrite Hr. injection Hf as <-. reflexivity.
Defined.

(** ** Opening a project *)

Lemma finalize_keeps_db stmt w : w_db (sqlite3_finalize stmt w) = w_db w.
Proof. destruct stmt; reflexivity. Qed.

Lemma prepare_keeps_db env s w : w_db (snd (prepare env s w)) = w_db w.
Proof.
  unfold prepare, sqlite3_prepare_v3.
  destruct (env_fault env (CallPrepare s)); [rewrite is_ok_code; reflexivity|].
  destruct (engine_readable (w_db w)); [rewrite is_ok_code; reflexivity|].
  destruct (match sql_table s with Some _ => _ | None => _ end);
    reflexivity.
Qed.

Lemma prepare_some env s w h :
  fst (prepare env s w) = Some h -> engine_readable (w_db w) = None.
Proof.
  unfold prepare, sqlite3_prepare_v3.
  destruct (env_fault env (CallPrepare s));
    [rewrite is_ok_code; discriminate|].
  destruct (engine_readable (w_db w)); [rewrite is_ok_code; discriminate|].
  reflexivity.
Qed.

(** A value read by [exec_int_stmt] is the row of the query, or the
    default when there is no row; the database is left as it was. *)
Lemma exec_int_stmt_spec env q default_value w :
  let r := exec_int_stmt env q default_value w in
  w_db (snd r) = w_db w
  /\ forall v, fst r = Some v ->
       engine_readable (w_db w) = None
       /\ (query_row (w_db w) q = Some v
           \/ (query_row (w_db w) q = None /\ v = default_value)).
Proof.
  cbv zeta. unfold exec_int_stmt.
  pose proof (prepare_keeps_db env (SqlQuery q) w) as Hdb.
  pose proof (prepare_some env (SqlQuery q) w) as Hsome.
  destruct (prepare env (SqlQuery q) w) as [[h|] w1]; cbn [fst snd] in *.
  2:{ split; [exact Hdb|]. discriminate. }
  specialize (Hsome h eq_refl).
  unfold sqlite3_step_query. rewrite Hdb, Hsome.
  destruct (env_fault env (CallStep (SqlQuery q))) as [e|].
  { rewrite code_not_done.
    assert (Hrow : (code e =? SQLITE_ROW) = false) by (destruct e; reflexivity).
    rewrite Hrow. cbn. split; [exact Hdb|]. discriminate. }
  destruct (query_row (w_db w) q) as [v0|]; cbn;
    (split; [exact Hdb|]); intros v Hv; injection Hv as <-; auto.
Qed.

Lemma readable_nonempty_file d :
  engine_readable d = None -> db_file d <> [] ->
  db_read_error d = false
  /\ (header_size <= List.length (db_file d))%nat
  /\ file_has_magic (db_file d) = true.
Proof.
  unfold engine_readable. intros H Hne.
  destruct (db_read_error d); [discriminate|].
  destruct (db_file d) as [|b bytes] eqn:Hfile; [congruence|].
  destruct (header_size <=? Datatypes.length (b :: bytes))%nat eqn:Hlen;
    [|discriminate].
  destruct (file_has_magic (b :: bytes)); [|discriminate].
  apply Nat.leb_le in Hlen. auto.
Qed.

Lemma check_header_spec env w :
  let r := check_header env w in
  w_db (snd r) = w_db w
  /\ (fst r = true -> accepted_header (w_db w)).
Proof.
  cbv zeta. unfold check_header.
  pose proof (exec_int_stmt_spec env QueryApplicationId (-1) w) as H1.
  cbv zeta in H1.
  destruct (exec_int_stmt env QueryApplicationId (-1) w) as [[a|] w1];
    cbn [fst snd] in *; destruct H1 as [Hdb1 Hv1].
  2:{ split; [exact Hdb1|discriminate]. }
  pose proof (exec_int_stmt_spec env QueryUserVersion (-1) w1) as H2.
  cbv zeta in H2.
  destruct (exec_int_stmt env QueryUserVersion (-1) w1) as [[u|] w2];
    cbn [fst snd] in *; destruct H2 as [Hdb2 Hv2].
  2:{ split; [congruence|discriminate]. }
  destruct (a =? DP_PROJECT_APPLICATION_ID) eqn:Ha; cbn.
  2:{ split; [congruence|discriminate]. }
  destruct (u =? DP_PROJECT_USER_VERSION) eqn:Hu; cbn.
  2:{ split; [congruence|discriminate]. }
  split; [congruence|]. intros _.
  apply Z.eqb_eq in Ha, Hu.
  destruct (Hv1 a eq_refl) as [Hread [Hrow|[Hrow _]]]; [|discriminate].
  destruct (Hv2 u eq_refl) as [_ [Hrow2|[Hrow2 _]]]; [|discriminate].
  rewrite Hdb1 in Hrow2. cbn in Hrow, Hrow2.
  destruct (db_file (w_db w)) as [|b bytes] eqn:Hfile.
  { injection Hrow as <-. discriminate. }
  destruct (readable_nonempty_file (w_db w) Hread) as (Hr & Hlen & Hmagic).
  { rewrite Hfile. discriminate. }
  unfold accepted_header. rewrite Hfile in *.
  injection Hrow as Hrow. injection Hrow2 as Hrow2.
  repeat split; congruence.
Qed.

Lemma accepted_header_checks (fs : FileSystem) path d :
  fs path = Some d -> accepted_header d ->
  DP_project_check fs path = DP_PROJECT_USER_VERSION.
Proof.
  intros Hfs (Hread & Hlen & Hmagic & Happ & Hver).
  pose proof (project_check_outcome fs path) as H. rewrite Hfs in H.
  unfold header_size in Hlen. unfold DP_PROJECT_USER_VERSION in *.
  inversion H; subst; try congruence; try lia.
Qed.

Lemma is_empty_db_spec env w :
  let r := is_empty_db env w in
  w_db (snd r) = w_db w
  /\ forall empty, fst r = Some empty ->
       db_tables (w_db w) <> [] -> empty = false.
Proof.
  cbv zeta. unfold is_empty_db.
  pose proof (exec_int_stmt_spec env QuerySchemaRow 0 w) as H.
  cbv zeta in H.
  destruct (exec_int_stmt env QuerySchemaRow 0 w) as [[v|] w1];
    cbn [fst snd] in *; destruct H as [Hdb Hv].
  2:{ split; [exact Hdb|discriminate]. }
  split; [exact Hdb|]. intros empty Hempty Htables.
  injection Hempty as <-.
  destruct (Hv v eq_refl) as [_ [Hrow|[Hrow _]]]; cbn in Hrow;
    destruct (db_tables (w_db w)); try congruence.
  injection Hrow as <-. reflexivity.
Qed.

(** An open without truncation of a store that has tables succeeds only
    on a header [check_header] accepts. *)
Lemma open_accepts_header env (fs : FileSystem) path flags d :
  fs path = Some d ->
  db_tables d <> [] ->
  flag_set flags DP_PROJECT_OPEN_TRUNCATE = false ->
  fst (DP_project_open env fs path flags) <> None ->
  accepted_header d.
Proof.
  intros Hfs Htables Htrunc. unfold DP_project_open, sqlite3_open_v2.
  destruct (env_fault env CallOpen) as [e|].
  { rewrite is_ok_code. cbn. congruence. }
  rewrite Hfs. cbn [is_ok SQLITE_OK Z.eqb negb].
  change (w_db (connected d)) with d.
  destruct (db_readonly d); [cbn; congruence|].
  rewrite Htrunc.
  pose proof (is_empty_db_spec env (connected d)) as Hempty.
  cbv zeta in Hempty.
  destruct (is_empty_db env (connected d)) as [[empty|] w1];
    cbn [fst snd] in *; destruct Hempty as [Hdb1 Hval].
  2:{ congruence. }
  rewrite (Hval empty eq_refl Htables).
  unfold and_then.
  pose proof (check_header_spec env w1) as Hcheck. cbv zeta in Hcheck.
  destruct (check_header env w1) as [[|] w2]; cbn [fst snd] in *.
  2:{ cbn. congruence. }
  intros _. destruct Hcheck as [_ Hacc]. rewrite Hdb1 in Hacc. auto.
Qed.

Lemma accepted_header_readable d :
  accepted_header d -> engine_readable d = None /\ db_file d <> [].
Proof.
  intros (Hread & Hlen & Hmagic & _). unfold engine_readable, header_size in *.
  rewrite Hread. destruct (db_file d) as [|b bytes] eqn:Hfile.
  { cbn in Hlen. lia. }
  apply Nat.leb_le in Hlen. unfold header_size. rewrite Hlen, Hmagic.
  split; [reflexivity|discriminate].
Qed.

Lemma exec_int_stmt_fault_free env q default_value w :
  fault_free env -> engine_readable (w_db w) = None ->
  fst (exec_int_stmt env q default_value w)
  = Some (match query_row (w_db w) q with
          | Some v => v
          | None => default_value
          end).
Proof.
  intros Hfree Hread.
  unfold exec_int_stmt, prepare, sqlite3_prepare_v3, sqlite3_step_query.
  rewrite !Hfree, Hread. cbn. rewrite Hread.
  destruct (query_row (w_db w) q); reflexivity.
Qed.

Lemma check_header_accepts env w :
  fault_free env -> accepted_header (w_db w) ->
  fst (check_header env w) = true.
Proof.
  intros Hfree Hacc.
  destruct (accepted_header_readable _ Hacc) as [Hread Hne].
  destruct Hacc as (_ & _ & _ & Happ & Hver).
  unfold check_header.
  pose proof (exec_int_stmt_fault_free env QueryApplicationId (-1) w
                Hfree Hread) as H1.
  pose proof (exec_int_stmt_spec env QueryApplicationId (-1) w) as [Hdb1 _].
  destruct (exec_int_stmt env QueryApplicationId (-1) w) as [a w1].
  cbn [fst snd] in *. subst a.
  rewrite <- Hdb1 in Hread.
  pose proof (exec_int_stmt_fault_free env QueryUserVersion (-1) w1
                Hfree Hread) as H2.
  destruct (exec_int_stmt env QueryUserVersion (-1) w1) as [u w2].
  cbn [fst snd] in *. subst u. rewrite Hdb1. cbn [query_row].
  destruct (db_file (w_db w)) as [|b bytes]; [congruence|].
  rewrite Happ, Hver. reflexivity.
Qed.

Lemma close_keeps_error env w :
  w_error (snd (sqlite3_close env w)) = w_error w.
Proof.
  unfold sqlite3_close. destruct (w_live w); [|reflexivity].
  destruct (env_fault env CallClose); reflexivity.
Qed.

(** Without faults, a readable file with the application id of a
    project and another user version than the program's is refused by
    [check_header] with the message that names the version. *)
Lemma check_header_unknown_version env w :
  fault_free env -> engine_readable (w_db w) = None ->
  db_file (w_db w) <> [] ->
  file_application_id (db_file (w_db w)) = DP_PROJECT_APPLICATION_ID ->
  file_user_version (db_file (w_db w)) <> DP_PROJECT_USER_VERSION ->
  fst (check_header env w) = false
  /\ w_error (snd (check_header env w))
     = "File has unknown user version "
       +++ CInt.dec (file_user_version (db_file (w_db w))).
Proof.
  intros Hfree Hread Hne Happ Hver. unfold check_header.
  pose proof (exec_int_stmt_fault_free env QueryApplicationId (-1) w
                Hfree Hread) as H1.
  pose proof (exec_int_stmt_spec env QueryApplicationId (-1) w) as [Hdb1 _].
  destruct (exec_int_stmt env QueryApplicationId (-1) w) as [a w1].
  cbn [fst snd] in *. subst a.
  rewrite <- Hdb1 in Hread.
  pose proof (exec_int_stmt_fault_free env QueryUserVersion (-1) w1
                Hfree Hread) as H2.
  pose proof (exec_int_stmt_spec env QueryUserVersion (-1) w1) as [Hdb2 _].
  destruct (exec_int_stmt env QueryUserVersion (-1) w1) as [u w2].
  cbn [fst snd] in *. subst u. rewrite Hdb1. cbn [query_row].
  destruct (db_file (w_db w)) as [|b bytes]; [congruence|].
  rewrite Happ. rewrite Z.eqb_refl. cbn [negb].
  apply Z.eqb_neq in Hver. rewrite Hver. cbn [negb fst snd].
  split; reflexivity.
Qed.

Lemma is_empty_db_fault_free env w :
  fault_free env -> engine_readable (w_db w) = None ->
  db_tables (w_db w) <> [] ->
  fst (is_empty_db env w) = Some false.
Proof.
  intros Hfree Hread Htables.
  pose proof (exec_int_stmt_fault_free env QuerySchemaRow 0 w Hfree Hread)
    as H.
  unfold is_empty_db.
  destruct (exec_int_stmt env QuerySchemaRow 0 w) as [v w1].
  cbn [fst] in H. subst v. cbn [query_row].
  destruct (db_tables (w_db w)); [congruence|reflexivity].
Qed.

(** The open of a writable, readable store with tables whose header
    passes the standalone check with another version than the program's
    fails with the message of [check_header]. *)
Lemma open_unknown_version env (fs : FileSystem) path flags d :
  fs path = Some d ->
  db_tables d <> [] ->
  flag_set flags DP_PROJECT_OPEN_TRUNCATE = false ->
  fault_free env -> db_readonly d = false -> engine_readable d = None ->
  0 < DP_project_check fs path ->
  DP_project_check fs path <> DP_PROJECT_USER_VERSION ->
  fst (DP_project_open env fs path flags) = None
  /\ w_error (snd (DP_project_open env fs path flags))
     = "File has unknown user version "
       +++ CInt.dec (DP_project_check fs path).
Proof.
  intros Hfs Htables Htrunc Hfree Hro Hread Hpos Hver.
  pose proof (project_check_outcome fs path) as H. rewrite Hfs in H.
  set (v := DP_project_check fs path) in *. clearbody v.
  inversion H as [|f|f|f|f|f|f Herr Hlen Hmagic Happ Hge]; subst;
    try (unfold DP_PROJECT_CHECK_ERROR_READ, DP_PROJECT_CHECK_ERROR_HEADER,
           DP_PROJECT_CHECK_ERROR_MAGIC,
           DP_PROJECT_CHECK_ERROR_APPLICATION_ID,
           DP_PROJECT_CHECK_ERROR_USER_VERSION in Hpos; lia).
  assert (Hne : db_file d <> []).
  { intros Hnil. rewrite Hnil in Hlen. cbn in Hlen. lia. }
  unfold DP_project_open, sqlite3_open_v2. rewrite Hfree, Hfs.
  cbn [is_ok SQLITE_OK Z.eqb negb].
  change (w_db (connected d)) with d. rewrite Hro, Htrunc.
  pose proof (is_empty_db_fault_free env (connected d) Hfree Hread Htables)
    as Hempty.
  pose proof (is_empty_db_spec env (connected d)) as [Hdb1 _].
  destruct (is_empty_db env (connected d)) as [empty w1].
  cbn [fst snd] in *. subst empty. unfold and_then.
  change (w_db (connected d)) with d in Hdb1.
  destruct (check_header_unknown_version env w1 Hfree)
    as [Hfalse Herror]; try (rewrite Hdb1; assumption).
  rewrite Hdb1 in Herror.
  destruct (check_header env w1) as [ok w2]. cbn [fst snd] in *. subst ok.
  cbn [negb fst snd]. rewrite close_keeps_error. split; [reflexivity|].
  exact Herror.
Qed.

(** C6, as the code has it. For an existing store with tables, opened
    without the truncate flag: the open fails whenever the standalone
    check fails, and indeed whenever the check returns anything but
    [DP_PROJECT_USER_VERSION]; the header validation of the open accepts
    the file only when the check returns that constant, and, when the
    engine reads the file without faults, exactly then.  A writable file
    the engine reads without faults and for which the check returns
    another positive version is refused with the message "File has
    unknown user version" followed by that version. *)
Theorem open_validates_header :
  forall env (fs : FileSystem) path flags d,
    fs path = Some d ->
    db_tables d <> [] ->
    flag_set flags DP_PROJECT_OPEN_TRUNCATE = false ->
    let opened := fst (DP_project_open env fs path flags) in
    let checked := DP_project_check fs path in
    (checked < 0 -> opened = None)
    /\ (checked <> DP_PROJECT_USER_VERSION -> opened = None)
    /\ (fst (check_header env (connected d)) = true ->
        checked = DP_PROJECT_USER_VERSION)
    /\ (fault_free env -> engine_readable d = None ->
        checked = DP_PROJECT_USER_VERSION ->
        fst (check_header env (connected d)) = true)
    /\ (fault_free env -> db_readonly d = false ->
        engine_readable d = None ->
        0 < checked -> checked <> DP_PROJECT_USER_VERSION ->
        w_error (snd (DP_project_open env fs path flags))
        = "File has unknown user version " +++ CInt.dec checked).
Proof.
  intros env fs path flags d Hfs Htables Htrunc opened checked.
  assert (Hopen : checked <> DP_PROJECT_USER_VERSION -> opened = None).
  { intros Hne. destruct opened as [prj|] eqn:Ho; [|reflexivity].
    exfalso. apply Hne. apply (accepted_header_checks fs path d Hfs).
    apply (open_accepts_header env fs path flags d Hfs Htables Htrunc).
    subst opened. rewrite Ho. discriminate. }
  split.
  { intros Hneg. apply Hopen. unfold DP_PROJECT_USER_VERSION. lia. }
  split; [exact Hopen|]. split.
  { intros Hok. apply (accepted_header_checks fs path d Hfs).
    apply (proj2 (check_header_spec env (connected d))). exact Hok. }
  split.
  2:{ intros Hfree Hro Hread Hpos Hne.
      apply (open_unknown_version env fs path flags d); assumption. }
  intros Hfree Hread Hchecked. apply check_header_accepts; [exact Hfree|].
  change (w_db (connected d)) with d.
  pose proof (project_check_outcome fs path) as H. fold checked in H.
  rewrite Hfs, Hchecked in H.
  inversion H as [| | | | | |f Herr Hlen Hmagic Happ Hver Hf Hv];
    subst f.
  assert (Hne : db_file d <> []).
  { intros Hnil. rewrite Hnil in Hlen. cbn in Hlen. lia. }
  destruct (readable_nonempty_file d Hread Hne) as (_ & Hsize & _).
  unfold accepted_header. auto.
Qed.

Lemma open_validates_header_witness :
  let fs := single_file "a.dppr" fresh_project_file in
  let fs2 := single_file "a.dppr" newer_project_file in
  fs "a.dppr" = Some fresh_project_file
  /\ db_tables fresh_project_file <> []
  /\ flag_set DP_PROJECT_OPEN_EXISTING DP_PROJECT_OPEN_TRUNCATE = false
  /\ fault_free quiet_env
  /\ engine_readable fresh_project_file = None
  /\ DP_project_check fs "a.dppr" = DP_PROJECT_USER_VERSION
  /\ fst (check_header quiet_env (connected fresh_project_file)) = true
  /\ fs2 "a.dppr" = Some newer_project_file
  /\ db_readonly newer_project_file = false
  /\ engine_readable newer_project_file = None
  /\ DP_project_check fs2 "a.dppr" = 2
  /\ w_error (snd (DP_project_open quiet_env fs2 "a.dppr"
                     DP_PROJECT_OPEN_EXISTING))
     = "File has unknown user version " +++ CInt.dec 2.
Proof.
  cbv zeta.
  assert (H1 : single_file "a.dppr" fresh_project_file "a.dppr"
               = Some fresh_project_file) by reflexivity.
  assert (H2 : db_tables fresh_project_file <> []) by (cbn; discriminate).
  assert (H3 : flag_set DP_PROJECT_OPEN_EXISTING DP_PROJECT_OPEN_TRUNCATE
               = false) by reflexivity.
  assert (H4 : fault_free quiet_env) by (intros call; reflexivity).
  assert (H5 : engine_readable fresh_project_file = None) by reflexivity.
  assert (H6 : DP_project_check (single_file "a.dppr" fresh_project_file)
                 "a.dppr" = DP_PROJECT_USER_VERSION) by reflexivity.
  assert (N1 : single_file "a.dppr" newer_project_file "a.dppr"
               = Some newer_project_file) by reflexivity.
  assert (N2 : db_tables newer_project_file <> []) by (cbn; discriminate).
  assert (N3 : db_readonly newer_project_file = false) by reflexivity.
  assert (N4 : engine_readable newer_project_file = None) by reflexivity.
  assert (N5 : DP_project_check (single_file "a.dppr" newer_project_file)
                 "a.dppr" = 2) by reflexivity.
  destruct (open_validates_header quiet_env _ "a.dppr"
              DP_PROJECT_OPEN_EXISTING fresh_project_file H1 H2 H3)
    as (_ & _ & _ & Hacc & _).
  destruct (open_validates_header quiet_env _ "a.dppr"
              DP_PROJECT_OPEN_EXISTING newer_project_file N1 N2 H3)
    as (_ & _ & _ & _ & Hmsg).
  rewrite N5 in Hmsg.
  repeat (split; [assumption|]).
  split; [exact (Hacc H4 H5 H6)|].
  repeat (split; [assumption|]).
  apply Hmsg; [exact H4|exact N3|exact N4|lia|discriminate].
Defined.

(** C6 as the specification words it does not hold: a store written
    under user version 2 exists, has tables and passes the standalone
    check with a positive version, yet the header validation of the open
    rejects it and the open fails. *)
Lemma open_rejects_newer_version :
  ~ (forall env (fs : FileSystem) path flags d,
       fs path = Some d ->
       db_tables d <> [] ->
       flag_set flags DP_PROJECT_OPEN_TRUNCATE = false ->
       fault_free env ->
       0 < DP_project_check fs path ->
       fst (check_header env (connected d)) = true
       /\ fst (DP_project_open env fs path flags) <> None).
Proof.
  intros H.
  destruct (H quiet_env (single_file "a.dppr" newer_project_file) "a.dppr" 0
              newer_project_file) as [Hcheck _].
  - reflexivity.
  - cbn. discriminate.
  - reflexivity.
  - intros call. reflexivity.
  - reflexivity.
  - vm_compute in Hcheck. discriminate.
Qed.

(** ** The statements prepared by an open *)

Lemma prepare_resources env s w :
  let r := prepare env s w in
  w_finalized (snd r) = w_finalized w
  /\ w_connected (snd r) = w_connected w
  /\ (forall h, In h (w_live w) -> In h (w_live (snd r)))
  /\ (forall h, fst r = Some h -> In h (w_live (snd r))).
Proof.
  cbv zeta. unfold prepare, sqlite3_prepare_v3.
  destruct (env_fault env (CallPrepare s));
    [rewrite is_ok_code; cbn; repeat split; auto; discriminate|].
  destruct (engine_readable (w_db w));
    [rewrite is_ok_code; cbn; repeat split; auto; discriminate|].
  destruct (match sql_table s with Some _ => _ | None => _ end); cbn;
    repeat split; auto; try discriminate.
  - intros h Hh. apply in_or_app. auto.
  - intros h Hh. injection Hh as <-. apply in_or_app. right. left. reflexivity.
Qed.

Lemma finalize_unassigned_loop (js : list nat) : forall w,
  let w' := fold_left (fun acc (j : nat) => sqlite3_finalize None acc) js w in
  w_live w' = w_live w
  /\ w_connected w' = w_connected w
  /\ w_finalized w' = w_finalized w ++ repeat None (List.length js).
Proof.
  induction js as [|j js IH]; intros w; cbn [fold_left List.length repeat].
  - rewrite app_nil_r. auto.
  - destruct (IH (sqlite3_finalize None w)) as (Hl & Hc & Hf).
    rewrite Hl, Hc, Hf. cbn. rewrite <- app_assoc. auto.
Qed.

Lemma close_resources env w :
  w_live (snd (sqlite3_close env w)) = w_live w
  /\ w_finalized (snd (sqlite3_close env w)) = w_finalized w
  /\ (w_live w <> [] ->
      w_connected (snd (sqlite3_close env w)) = w_connected w).
Proof.
  unfold sqlite3_close. destruct (w_live w) as [|h l] eqn:Hlive.
  - destruct (env_fault env CallClose); cbn; repeat split; auto; congruence.
  - cbn. rewrite Hlive. auto.
Qed.

Lemma nth_store_at_other {A : Type} (x d : A) : forall l i k,
  k <> i -> nth k (store_at i x l) d = nth k l d.
Proof.
  induction l as [|y l IH]; intros [|i] [|k] Hne; cbn; auto; try congruence.
Qed.

(** When the loop fails, it has finalized none of the statements it
    prepared: every call of [sqlite3_finalize] got the unassigned slot of
    the statement that failed.  The statements prepared before stay
    live, and with one of them live the connection stays open. *)
Lemma prepare_loop_releases_nothing env todo : forall i stmts w,
  (forall k, (i <= k)%nat -> nth k stmts None = None) ->
  let r := prepare_loop env i todo stmts w in
  fst r = None ->
  (exists n, w_finalized (snd r) = w_finalized w ++ repeat None n)
  /\ (forall h, In h (w_live w) -> In h (w_live (snd r)))
  /\ (w_live (snd r) <> [] -> w_connected (snd r) = w_connected w).
Proof.
  induction todo as [|ps rest IH]; intros i stmts w Hslots; cbn.
  { discriminate. }
  pose proof (prepare_resources env (SqlProject ps) w) as Hprep.
  cbv zeta in Hprep.
  destruct (prepare env (SqlProject ps) w) as [[h|] w1]; cbn [fst snd] in *;
    destruct Hprep as (Hfin & Hconn & Hlive & Hnew).
  - intros Hfail.
    destruct (IH (S i) (store_at i (Some h) stmts) w1) as (Hf & Hl & Hc).
    { intros k Hk. rewrite nth_store_at_other by lia. apply Hslots. lia. }
    { exact Hfail. }
    rewrite Hfin, Hconn in *. repeat split; auto.
  - intros _. rewrite (Hslots i (Nat.le_refl i)).
    destruct (finalize_unassigned_loop (seq 0 i) w1) as (Hl & Hc & Hf).
    destruct (close_resources env
                (fold_left (fun acc (j : nat) => sqlite3_finalize None acc)
                           (seq 0 i) w1)) as (Hl2 & Hf2 & Hc2).
    rewrite Hl2, Hf2, Hf, Hl, Hfin. repeat split.
    + eexists. reflexivity.
    + exact Hlive.
    + intros Hne. rewrite Hc2 by (rewrite Hl; exact Hne). congruence.
Qed.

(** A handle comes with all three statements prepared. *)
Lemma open_handle_statements env fs path flags prj :
  fst (DP_project_open env fs path flags) = Some prj ->
  exists a b c, stmts prj = [Some a; Some b; Some c]
                /\ session_id prj = 0 /\ sequence_id prj = 0.
Proof.
  unfold DP_project_open.
  destruct (sqlite3_open_v2 env fs path _) as [db_open_result w].
  destruct (negb (is_ok db_open_result)); [discriminate|].
  destruct (db_readonly (w_db w)); [discriminate|].
  destruct (if flag_set flags DP_PROJECT_OPEN_TRUNCATE then _ else _)
    as [[empty|] w1]; [|discriminate].
  destruct (and_then _ _ w1) as [init_ok w2].
  destruct (negb init_ok); [discriminate|].
  unfold all_statements, DP_PROJECT_STATEMENT_COUNT. cbn [prepare_loop repeat].
  destruct (prepare env (SqlProject DP_PROJECT_STATEMENT_MESSAGE_INSERT) w2)
    as [[a|] w3]; [|discriminate].
  destruct (prepare env (SqlProject DP_PROJECT_STATEMENT_SESSION_OPEN) w3)
    as [[b|] w4]; [|discriminate].
  destruct (prepare env (SqlProject DP_PROJECT_STATEMENT_SESSION_CLOSE) w4)
    as [[c|] w5]; [|discriminate].
  cbn. intros H. injection H as <-. exists a, b, c. auto.
Qed.

(** C4, at the input where the code departs from it.  The file records
    migration 1 but has no sessions table, so the message insert is
    prepared (statement 4) and the session open statement is not.  The
    open returns NULL, but the one call of [sqlite3_finalize] it makes
    for the statements of the loop gets the unassigned slot of the failed
    statement: statement 4 is still live, and the close is refused for
    it, so the connection stays open.  (Statements 0 to 3 are the four
    one-off statements of the header check and the migrations.) *)
Theorem open_prepare_failure_leaks_statement :
  let r := DP_project_open quiet_env
             (single_file "a.dppr" damaged_project_file) "a.dppr" 0 in
  fst r = None
  /\ w_live (snd r) = [4%nat]
  /\ w_finalized (snd r)
     = [Some 0%nat; Some 1%nat; Some 2%nat; Some 3%nat; None]
  /\ w_connected (snd r) = true.
Proof. vm_compute. repeat split; reflexivity. Qed.

(* ================================================================== *)
(** * Properties of the network client *)
(* ================================================================== *)

Section NetClientProperties.

Context {Message : Type}.
Variable isNull : Message -> bool.
Variable typeName : Message -> string.
Variable msg_type : Message -> MessageType.
Variable makeMessageBackwardCompatible : Message -> Message.
Variable fromMessage : Message -> ServerReply.
Variable setIndirectCompatFlag : Message -> Message.
Variable handleData_signals : Z -> Message -> list string.

Lemma events_emit (e : Event Message) (c : Client Message) :
  events Message (emit Message e c) = events Message c ++ [e].
Proof. reflexivity. Qed.

(** The filter keeps the compatible forms of the translatable messages,
    in order, and logs one warning for each of the others. *)
Lemma filterCompatibleMessages_spec (msgs : list Message) :
  forall c,
    let r := filterCompatibleMessages Message isNull typeName
               makeMessageBackwardCompatible msgs c in
    fst r = map makeMessageBackwardCompatible (filter (translatable Message isNull makeMessageBackwardCompatible) msgs)
    /\ events Message (snd r)
       = events Message c
         ++ map (incompatible_warning Message typeName)
                (filter (fun m => negb (translatable Message isNull makeMessageBackwardCompatible m)) msgs)
    /\ m_server Message (snd r) = m_server Message c.
Proof.
  induction msgs as [|msg rest IH]; intros c;
    cbn [filterCompatibleMessages filter map].
  - cbn. rewrite app_nil_r. auto.
  - assert (Ht : translatable Message isNull makeMessageBackwardCompatible msg
                 = negb (isNull (makeMessageBackwardCompatible msg)))
      by reflexivity.
    rewrite Ht.
    destruct (isNull (makeMessageBackwardCompatible msg)); cbn [negb].
    + destruct (IH (emit Message (incompatible_warning Message typeName msg) c))
        as (Hkept & Hev & Hsrv).
      fold (incompatible_warning Message typeName msg).
      rewrite Hkept, Hev, Hsrv, events_emit. cbn [map].
      rewrite <- app_assoc. auto.
    + destruct (IH c) as (Hkept & Hev & Hsrv).
      destruct (filterCompatibleMessages Message isNull typeName
                  makeMessageBackwardCompatible rest c) as [kept c1].
      cbn [fst snd map] in *. rewrite Hkept, Hev, Hsrv. auto.
Qed.

Lemma warnings_send_nothing (l : list Message) :
  sent_to_server Message (map (incompatible_warning Message typeName) l) = [].
Proof. induction l as [|x l IH]; cbn; auto. Qed.

(** C7. In compatibility mode every message of an outbound batch goes
    through the translator.  The messages without a compatible form are
    left out, each with a warning in the log and nothing else; the
    compatible forms of all the others are handed to the server as one
    batch, in order (no batch is sent when none is left).  A batch of one
    translatable and one untranslatable message, in either order, sends
    exactly the compatible form of the translatable one. *)
Theorem compatibility_filter_keeps_translatable :
  forall (msgs : list Message) (c : Client Message),
    m_compatibilityMode Message c = true ->
    m_server Message c = true ->
    let sent := map makeMessageBackwardCompatible (filter (translatable Message isNull makeMessageBackwardCompatible) msgs) in
    let c' := sendMessages Message isNull typeName
                makeMessageBackwardCompatible msgs c in
    events Message c'
    = events Message c
      ++ map (incompatible_warning Message typeName) (filter (fun m => negb (translatable Message isNull makeMessageBackwardCompatible m)) msgs)
      ++ match sent with
         | [] => []
         | _ => [drawingCommandsLocal Message sent;
                 server_sendMessages Message sent]
         end
    /\ sent_to_server Message (events Message c')
       = sent_to_server Message (events Message c)
         ++ match sent with [] => [] | _ => [sent] end
    /\ (forall a b,
          translatable Message isNull makeMessageBackwardCompatible a = true ->
          translatable Message isNull makeMessageBackwardCompatible b = false ->
          (msgs = [a; b] \/ msgs = [b; a]) ->
          sent = [makeMessageBackwardCompatible a]).
Proof.
  intros msgs c Hmode Hserver sent c'.
  assert (Hev : events Message c'
    = events Message c
      ++ map (incompatible_warning Message typeName) (filter (fun m => negb (translatable Message isNull makeMessageBackwardCompatible m)) msgs)
      ++ match sent with
         | [] => []
         | _ => [drawingCommandsLocal Message sent;
                 server_sendMessages Message sent]
         end).
  { subst c'. unfold sendMessages. rewrite Hmode.
    destruct (filterCompatibleMessages_spec msgs c) as (Hkept & Hlog & Hsrv).
    destruct (filterCompatibleMessages Message isNull typeName
                makeMessageBackwardCompatible msgs c) as [kept c1].
    cbn [fst snd] in *. fold sent in Hkept. subst kept.
    unfold sendCompatibleMessages, count_of.
    destruct sent as [|m sent'].
    - cbn. rewrite Hlog, app_nil_r. reflexivity.
    - replace (0 <? Z.of_nat (Datatypes.length (m :: sent'))) with true
        by (symmetry; apply Z.ltb_lt; cbn [Datatypes.length]; lia).
      cbn [m_server emit]. rewrite Hsrv, Hserver.
      rewrite !events_emit, Hlog, <- !app_assoc. reflexivity. }
  split; [exact Hev|]. split.
  - rewrite Hev. unfold sent_to_server. rewrite !flat_map_app.
    fold (sent_to_server Message
            (map (incompatible_warning Message typeName)
               (filter (fun m => negb (translatable Message isNull
                                         makeMessageBackwardCompatible m))
                       msgs))).
    rewrite warnings_send_nothing. cbn [app]. f_equal.
    clear Hev. clearbody sent. destruct sent; reflexivity.
  - intros a b Ha Hb [Hmsgs|Hmsgs]; subst sent; rewrite Hmsgs; cbn;
      rewrite Ha, Hb; reflexivity.
Qed.

End NetClientProperties.

Lemma compatibility_filter_keeps_translatable_witness :
  let c := sample_client true true in
  let c' := sendMessages SampleMessage sample_isNull sample_typeName
              sample_compatible [SampleStroke 7; SampleSelection] c in
  m_compatibilityMode SampleMessage c = true
  /\ m_server SampleMessage c = true
  /\ translatable SampleMessage sample_isNull sample_compatible (SampleStroke 7) = true
  /\ translatable SampleMessage sample_isNull sample_compatible SampleSelection = false
  /\ sent_to_server SampleMessage (events SampleMessage c')
     = [[SampleStroke 7]].
Proof.
  cbv zeta.
  assert (H1 : m_compatibilityMode SampleMessage (sample_client true true)
               = true) by reflexivity.
  assert (H2 : m_server SampleMessage (sample_client true true) = true)
    by reflexivity.
  assert (H3 : translatable SampleMessage sample_isNull sample_compatible (SampleStroke 7)
               = true) by reflexivity.
  assert (H4 : translatable SampleMessage sample_isNull sample_compatible SampleSelection
               = false) by reflexivity.
  destruct (compatibility_filter_keeps_translatable sample_isNull
              sample_typeName sample_compatible
              [SampleStroke 7; SampleSelection] (sample_client true true)
              H1 H2) as (_ & Hsent & Hpair).
  split; [exact H1|]. split; [exact H2|]. split; [exact H3|].
  split; [exact H4|].
  rewrite Hsent.
  rewrite (Hpair (SampleStroke 7) SampleSelection H3 H4 (or_introl eq_refl)).
  reflexivity.
Defined.

(** ** Catch-up progress *)

Section NetClientCatchup.

Context {Message : Type}.
Variable msg_type : Message -> MessageType.
Variable fromMessage : Message -> ServerReply.
Variable setIndirectCompatFlag : Message -> Message.
Variable handleData_signals : Z -> Message -> list string.

Lemma progress_values_app (a b : list (Event Message)) :
  progress_values Message (a ++ b)
  = progress_values Message a ++ progress_values Message b.
Proof. apply flat_map_app. Qed.

Lemma signals_keep_counters (names : list string) : forall c : Client Message,
  let c' := fold_left (fun acc name => emit Message (signal Message name) acc)
                      names c in
  counters Message c' = counters Message c
  /\ m_compatibilityMode Message c' = m_compatibilityMode Message c
  /\ progress_values Message (events Message c')
     = progress_values Message (events Message c).
Proof.
  induction names as [|name names IH]; intros c; cbn [fold_left]; auto.
  destruct (IH (emit Message (signal Message name) c)) as (Hk & Hm & Hp).
  cbv zeta. rewrite Hk, Hm, Hp, events_emit, progress_values_app.
  cbn [progress_values flat_map app]. rewrite app_nil_r. auto.
Qed.

Lemma handleServerReply_keeps_counters (msg : ServerReply) (c : Client Message) :
  reply_type msg <> ReplyCatchup ->
  let c' := handleServerReply Message msg c in
  counters Message c' = counters Message c
  /\ m_compatibilityMode Message c' = m_compatibilityMode Message c
  /\ progress_values Message (events Message c')
     = progress_values Message (events Message c).
Proof.
  intros Hne. unfold handleServerReply, handleResetRequest.
  destruct (reply_type msg); try congruence;
    repeat match goal with
           | |- context [String.eqb ?a ?b] => destruct (String.eqb a b)
           end;
    rewrite ?events_emit, ?progress_values_app;
    cbn [progress_values flat_map app]; rewrite ?app_nil_r; auto.
Qed.

(** The loop over a batch that announces no catch-up leaves the counters
    and the notifications alone. *)
Lemma dispatch_keeps_counters (msgs : list Message) :
  Forall (announces_no_catchup Message msg_type fromMessage) msgs ->
  forall c,
    let c' := snd (dispatch Message msg_type fromMessage setIndirectCompatFlag
                     handleData_signals msgs c) in
    counters Message c' = counters Message c
    /\ m_compatibilityMode Message c' = m_compatibilityMode Message c
    /\ progress_values Message (events Message c')
       = progress_values Message (events Message c).
Proof.
  induction 1 as [|msg rest Hmsg Hrest IH]; intros c; cbn [dispatch]; auto.
  assert (Hstep :
    let c1 := snd (match msg_type msg with
                   | DP_MSG_SERVER_COMMAND =>
                       (msg, handleServerReply Message (fromMessage msg) c)
                   | DP_MSG_DATA =>
                       (msg, handleData Message handleData_signals msg c)
                   | DP_MSG_DRAW_DABS_CLASSIC
                   | DP_MSG_DRAW_DABS_PIXEL
                   | DP_MSG_DRAW_DABS_PIXEL_SQUARE =>
                       if m_compatibilityMode Message c
                       then (setIndirectCompatFlag msg, c) else (msg, c)
                   | DP_MSG_OTHER => (msg, c)
                   end) in
    counters Message c1 = counters Message c
    /\ m_compatibilityMode Message c1 = m_compatibilityMode Message c
    /\ progress_values Message (events Message c1)
       = progress_values Message (events Message c)).
  { unfold announces_no_catchup in Hmsg.
    destruct (msg_type msg); cbn [snd].
    - apply handleServerReply_keeps_counters. exact (Hmsg eq_refl).
    - apply signals_keep_counters.
    - destruct (m_compatibilityMode Message c) eqn:E; cbn [snd]; auto.
    - destruct (m_compatibilityMode Message c) eqn:E; cbn [snd]; auto.
    - destruct (m_compatibilityMode Message c) eqn:E; cbn [snd]; auto.
    - auto. }
  cbv zeta in Hstep.
  destruct (match msg_type msg with
            | DP_MSG_SERVER_COMMAND => _ | _ => _ end) as [msg1 c1].
  cbn [snd] in Hstep. destruct Hstep as (Hk & Hm & Hp).
  specialize (IH c1). cbv zeta in IH.
  destruct (dispatch Message msg_type fromMessage setIndirectCompatFlag
              handleData_signals rest c1) as [rest1 c2].
  cbn [snd] in *. destruct IH as (Hk2 & Hm2 & Hp2).
  rewrite Hk2, Hm2, Hp2. auto.
Qed.

(** [catchup_step], seen through the counters. *)
Lemma catchup_step_counters (count : Z) (c : Client Message) :
  let c' := catchup_step Message count c in
  counters Message c' = fst (counters_step count (counters Message c))
  /\ progress_values Message (events Message c')
     = progress_values Message (events Message c)
       ++ snd (counters_step count (counters Message c)).
Proof.
  unfold catchup_step, counters_step, counters.
  cbn [m_catchupTo m_caughtUp m_catchupProgress set_catchup].
  destruct (0 <? m_catchupTo Message c).
  2:{ cbn [fst snd]. rewrite app_nil_r. auto. }
  destruct (m_catchupTo Message c
            <=? CInt.add32 (m_caughtUp Message c) count).
  { cbn [m_catchupTo m_caughtUp m_catchupProgress events emit set_catchup
         fst snd].
    rewrite !progress_values_app. cbn [progress_values flat_map app].
    rewrite !app_nil_r. auto. }
  destruct (CInt.div32
              (CInt.mul32 100 (CInt.add32 (m_caughtUp Message c) count))
              (m_catchupTo Message c) =? m_catchupProgress Message c);
    cbn [negb m_catchupTo m_caughtUp m_catchupProgress events emit set_catchup
         fst snd];
    rewrite ?progress_values_app; cbn [progress_values flat_map app];
    rewrite ?app_nil_r; auto.
Qed.

(** [handleMessages] on a batch that announces no catch-up, seen through
    the counters: only the size of the batch matters. *)
Lemma handleMessages_counters (msgs : list Message) (c : Client Message) :
  Forall (announces_no_catchup Message msg_type fromMessage) msgs ->
  let c' := handleMessages Message msg_type fromMessage setIndirectCompatFlag
              handleData_signals msgs c in
  let next := counters_step (count_of Message msgs) (counters Message c) in
  counters Message c' = fst next
  /\ progress_values Message (events Message c')
     = progress_values Message (events Message c) ++ snd next.
Proof.
  intros Hmsgs. cbv zeta. unfold handleMessages.
  pose proof (dispatch_keeps_counters msgs Hmsgs c) as Hd. cbv zeta in Hd.
  destruct (dispatch Message msg_type fromMessage setIndirectCompatFlag
              handleData_signals msgs c) as [msgs1 c1].
  cbn [snd] in Hd. destruct Hd as (Hk & _ & Hp).
  pose proof (catchup_step_counters (count_of Message msgs)
                (emit Message (messagesReceived Message msgs1) c1)) as Hs.
  cbv zeta in Hs.
  replace (counters Message (emit Message (messagesReceived Message msgs1) c1))
    with (counters Message c) in Hs by (rewrite <- Hk; reflexivity).
  replace (progress_values Message
             (events Message (emit Message (messagesReceived Message msgs1) c1)))
    with (progress_values Message (events Message c)) in Hs.
  - exact Hs.
  - rewrite <- Hp, events_emit, progress_values_app.
    cbn [progress_values flat_map app]. rewrite app_nil_r. reflexivity.
Qed.

(** A catch-up, seen through the counters. *)
Lemma catchup_run_counters (target : Z) (batches : list (list Message)) :
  Forall (Forall (announces_no_catchup Message msg_type fromMessage)) batches ->
  forall c : Client Message,
    let c' := catchup_run Message msg_type fromMessage setIndirectCompatFlag
                handleData_signals target batches c in
    let run := counters_run (map (count_of Message) batches) (target, 0, 0) in
    counters Message c' = fst run
    /\ progress_values Message (events Message c')
       = progress_values Message (events Message c)
         ++ (if 0 <? target then 0 else 100) :: snd run.
Proof.
  intros Hbatches c. unfold catchup_run.
  set (c0 := handleServerReply Message _ c).
  assert (H0 : counters Message c0 = (target, 0, 0)
               /\ progress_values Message (events Message c0)
                  = progress_values Message (events Message c)
                    ++ [if 0 <? target then 0 else 100]).
  { subst c0. unfold handleServerReply.
    cbn [reply_type reply_count counters m_catchupTo m_caughtUp
         m_catchupProgress events emit set_catchup].
    rewrite !progress_values_app. cbn [progress_values flat_map app].
    rewrite !app_nil_r. auto. }
  destruct H0 as [Hk0 Hp0]. clearbody c0. cbv zeta.
  replace (progress_values Message (events Message c)
           ++ (if 0 <? target then 0 else 100)
              :: snd (counters_run (map (count_of Message) batches)
                        (target, 0, 0)))
    with (progress_values Message (events Message c0)
          ++ snd (counters_run (map (count_of Message) batches)
                    (target, 0, 0)))
    by (rewrite Hp0, <- app_assoc; reflexivity).
  rewrite <- Hk0. clear Hk0 Hp0 c. revert c0.
  induction Hbatches as [|msgs rest Hmsgs Hrest IH]; intros c0;
    cbn [fold_left map counters_run].
  - cbn. rewrite app_nil_r. auto.
  - destruct (handleMessages_counters msgs c0 Hmsgs) as [Hk Hp].
    destruct (counters_step (count_of Message msgs) (counters Message c0))
      as [k1 vals1].
    cbn [fst snd] in Hk, Hp.
    destruct (IH (handleMessages Message msg_type fromMessage
                    setIndirectCompatFlag handleData_signals msgs c0))
      as [Hk2 Hp2].
    rewrite Hk in Hk2, Hp2.
    destruct (counters_run (map (count_of Message) rest) k1) as [k2 vals2].
    cbn [fst snd] in *. rewrite Hk2, Hp2, Hp, <- app_assoc. auto.
Qed.

End NetClientCatchup.








Lemma strokes_announce_no_catchup (n : nat) :
  Forall (announces_no_catchup SampleMessage sample_type sample_reply)
         (repeat (SampleStroke 0) n).
Proof.
  apply Forall_forall. intros m Hm. apply repeat_spec in Hm. subst m.
  intros Htype. discriminate.
Qed.

(** C8, at an input where the code departs from it.  A catch-up to
    30000000 messages is announced; 21474836 messages arrive and 71 is
    notified; one more message arrives, [100 * m_caughtUp] no longer fits
    an [int], and -71 is notified: a value outside 0..100 and smaller
    than the one before it. *)
Theorem catchup_progress_overflows :
  progress_values SampleMessage
    (events SampleMessage
       (catchup_run SampleMessage sample_type sample_reply sample_flag
          sample_signals 30000000 long_catchup_batches
          (sample_client true false)))
  = [0; 71; -71].
Proof.
  assert (Hno : Forall (Forall (announces_no_catchup SampleMessage sample_type
                                  sample_reply)) long_catchup_batches).
  { unfold long_catchup_batches. constructor.
    - apply strokes_announce_no_catchup.
    - constructor; [|constructor].
      apply (strokes_announce_no_catchup 1). }
  destruct (catchup_run_counters sample_type sample_reply sample_flag
              sample_signals 30000000 long_catchup_batches Hno
              (sample_client true false)) as [_ Hp].
  rewrite Hp. unfold long_catchup_batches. cbn [map].
  unfold count_of at 1. rewrite repeat_length, Z2Nat.id by lia.
  reflexivity.
Qed.

(* ================================================================== *)
(** * Further properties of the project store *)
(* ================================================================== *)

(** ** Resources and content through an open *)

Lemma same_store_refl d : same_store d d.
Proof. unfold same_store. auto. Qed.

Lemma same_store_trans d1 d2 d3 :
  same_store d1 d2 -> same_store d2 d3 -> same_store d1 d3.
Proof. unfold same_store. intuition congruence. Qed.

Lemma same_store_readable d d' :
  same_store d d' -> engine_readable d' = engine_readable d.
Proof.
  intros (Hf & Hr & _). unfold engine_readable. rewrite Hf, Hr. reflexivity.
Qed.

Lemma same_store_accepted d d' :
  same_store d d' -> accepted_header d -> accepted_header d'.
Proof.
  intros (Hf & Hr & _). unfold accepted_header. rewrite Hf, Hr. auto.
Qed.

Lemma create_tables_frame names : forall d,
  same_store d (snd (create_tables names d))
  /\ db_migrations (snd (create_tables names d)) = db_migrations d
  /\ (forall name, has_table name d = true ->
        has_table name (snd (create_tables names d)) = true).
Proof.
  induction names as [|name rest IH]; intros d; cbn [create_tables].
  { split; [apply same_store_refl|auto]. }
  destruct (has_table name d) eqn:Hhas; cbn [snd].
  { split; [apply same_store_refl|auto]. }
  destruct (IH (with_tables (db_tables d ++ [name]) d)) as (Hs & Hm & Ht).
  split; [|split].
  - eapply same_store_trans; [|exact Hs]. unfold same_store. cbn. auto.
  - rewrite Hm. reflexivity.
  - intros other Hother. apply Ht. unfold has_table in *. cbn.
    rewrite existsb_app, Hother. reflexivity.
Qed.

(** [exec_write_stmt] touches neither the statements nor the
    connection. *)
Lemma exec_write_stmt_resources env e title w :
  let w' := snd (exec_write_stmt env e title w) in
  w_live w' = w_live w /\ w_next w' = w_next w
  /\ w_connected w' = w_connected w /\ w_finalized w' = w_finalized w
  /\ w_bound w' = w_bound w.
Proof.
  cbv zeta. unfold exec_write_stmt, sqlite3_exec.
  destruct (env_fault env (CallExec e)) as [err|].
  { rewrite is_ok_code. cbn. auto. }
  destruct e; try (cbn; auto; fail);
    destruct (engine_readable (w_db w)) as [err|];
    try (rewrite is_ok_code; cbn; auto; fail);
    try (destruct (w_snapshot w); rewrite ?is_ok_code; cbn; auto; fail);
    try (cbn; auto; fail).
  - destruct (has_table "migrations" (w_db w)); cbn; auto.
  - destruct (create_tables (nth n migrations []) (w_db w)) as [[err|] d];
      rewrite ?is_ok_code; cbn; auto.
Qed.

(** The two statements that change the schema change nothing else. *)
Lemma exec_schema_stmt_frame env e title w :
  e = ExecCreateMigrations \/ (exists n, e = ExecMigration n) ->
  let r := exec_write_stmt env e title w in
  same_store (w_db w) (w_db (snd r))
  /\ w_snapshot (snd r) = w_snapshot w
  /\ db_migrations (w_db (snd r)) = db_migrations (w_db w)
  /\ (forall name, has_table name (w_db w) = true ->
        has_table name (w_db (snd r)) = true)
  /\ (fst r = true -> engine_readable (w_db w) = None)
  /\ (fst r = true -> e = ExecCreateMigrations ->
      has_table "migrations" (w_db (snd r)) = true).
Proof.
  intros He. cbv zeta. unfold exec_write_stmt, sqlite3_exec.
  destruct (env_fault env (CallExec e)) as [err|].
  { rewrite is_ok_code. cbn.
    repeat split; auto using same_store_refl; intros; congruence. }
  destruct He as [->|[n ->]].
  - destruct (engine_readable (w_db w)) as [err|].
    { rewrite is_ok_code. cbn.
      repeat split; auto using same_store_refl; intros; congruence. }
    destruct (has_table "migrations" (w_db w)) eqn:Hhas; cbn.
    + repeat split; auto using same_store_refl.
    + repeat split; auto.
      * intros name Hname. unfold has_table in *. cbn.
        rewrite existsb_app, Hname. reflexivity.
      * intros _ _. unfold has_table. cbn. rewrite existsb_app. cbn.
        apply orb_true_r.
  - destruct (engine_readable (w_db w)) as [err|].
    { rewrite is_ok_code. cbn.
      repeat split; auto using same_store_refl; intros; congruence. }
    destruct (create_tables_frame (nth n migrations []) (w_db w))
      as (Hs & Hm & Ht).
    destruct (create_tables (nth n migrations []) (w_db w)) as [[err|] d];
      rewrite ?is_ok_code; cbn in *; (split; [exact Hs|]);
      repeat split; auto; intros; congruence.
Qed.

Lemma prepare_frame env s w :
  let r := prepare env s w in
  w_db (snd r) = w_db w
  /\ w_snapshot (snd r) = w_snapshot w
  /\ w_connected (snd r) = w_connected w
  /\ w_finalized (snd r) = w_finalized w
  /\ w_bound (snd r) = w_bound w
  /\ (fst r = None -> w_live (snd r) = w_live w /\ w_next (snd r) = w_next w)
  /\ (forall h, fst r = Some h ->
        h = w_next w
        /\ w_live (snd r) = w_live w ++ [h]
        /\ w_next (snd r) = S h
        /\ engine_readable (w_db w) = None
        /\ forall name, sql_table s = Some name ->
             has_table name (w_db w) = true).
Proof.
  cbv zeta. unfold prepare, sqlite3_prepare_v3.
  destruct (env_fault env (CallPrepare s)) as [e|].
  { rewrite is_ok_code. cbn. repeat split; auto; intros; congruence. }
  destruct (engine_readable (w_db w)) as [e|].
  { rewrite is_ok_code. cbn. repeat split; auto; intros; congruence. }
  destruct (sql_table s) as [name|] eqn:Hname.
  - destruct (has_table name (w_db w)) eqn:Hhas; cbn;
      repeat split; auto; try (intros; congruence);
      try (intros h Hh; injection Hh as <-; repeat split; auto;
           intros name' Hn; injection Hn as <-; exact Hhas).
  - cbn. repeat split; auto; try (intros; congruence).
Qed.

Lemma finalize_frame h w :
  let w' := sqlite3_finalize (Some h) w in
  w_db w' = w_db w /\ w_snapshot w' = w_snapshot w
  /\ w_connected w' = w_connected w /\ w_next w' = w_next w
  /\ w_bound w' = w_bound w
  /\ w_live w' = filter (fun x => negb (Nat.eqb x h)) (w_live w).
Proof. cbn. repeat split. Qed.

Lemma filter_out_last (l : list nat) (h : nat) :
  Forall (fun x => (x < h)%nat) l ->
  filter (fun x => negb (Nat.eqb x h)) (l ++ [h]) = l.
Proof.
  intros Hl. rewrite filter_app. cbn. rewrite Nat.eqb_refl. cbn.
  rewrite app_nil_r. induction Hl as [|x l Hx Hl IH]; cbn; [reflexivity|].
  replace (Nat.eqb x h) with false by (symmetry; apply Nat.eqb_neq; lia).
  cbn. rewrite IH. reflexivity.
Qed.

Ltac split_all := repeat match goal with |- _ /\ _ => split end.

Lemma live_below_weaken (l : list nat) (n m : nat) :
  (n <= m)%nat -> Forall (fun x => (x < n)%nat) l ->
  Forall (fun x => (x < m)%nat) l.
Proof. intros Hnm. apply Forall_impl. intros; lia. Qed.

(** A one-row query prepares and finalizes its own statement: the live
    statements, the transaction and the connection are as before. *)
Lemma exec_int_stmt_frame env q default_value w :
  Forall (fun x => (x < w_next w)%nat) (w_live w) ->
  let w' := snd (exec_int_stmt env q default_value w) in
  w_live w' = w_live w
  /\ Forall (fun x => (x < w_next w')%nat) (w_live w')
  /\ w_snapshot w' = w_snapshot w
  /\ w_connected w' = w_connected w.
Proof.
  intros Hlive. cbv zeta. unfold exec_int_stmt.
  pose proof (prepare_frame env (SqlQuery q) w) as Hp. cbv zeta in Hp.
  destruct (prepare env (SqlQuery q) w) as [[h|] w1]; cbn [fst snd] in *;
    destruct Hp as (_ & Hsnap & Hconn & _ & _ & Hnone & Hsome).
  2:{ destruct (Hnone eq_refl) as [Hl Hn]. rewrite Hl, Hn. auto. }
  destruct (Hsome h eq_refl) as (Hh & Hl & Hn & _).
  assert (Hfin : forall w2,
            w_live w2 = w_live w1 -> w_next w2 = w_next w1 ->
            w_snapshot w2 = w_snapshot w1 -> w_connected w2 = w_connected w1 ->
            w_live (sqlite3_finalize (Some h) w2) = w_live w
            /\ Forall (fun x => (x < w_next (sqlite3_finalize (Some h) w2))%nat)
                      (w_live (sqlite3_finalize (Some h) w2))
            /\ w_snapshot (sqlite3_finalize (Some h) w2) = w_snapshot w
            /\ w_connected (sqlite3_finalize (Some h) w2) = w_connected w).
  { intros w2 H1 H2 H3 H4.
    destruct (finalize_frame h w2) as (_ & Hs2 & Hc2 & Hn2 & _ & Hl2).
    cbv zeta in *. rewrite Hl2, Hs2, Hc2, Hn2, H1, H2, H3, H4, Hl, Hn.
    subst h. rewrite filter_out_last by exact Hlive.
    repeat split; auto. eapply live_below_weaken; [|exact Hlive]. lia. }
  destruct (sqlite3_step_query env q w1) as [step_result row].
  destruct (step_result =? SQLITE_DONE); cbn [snd]; [apply Hfin; auto|].
  destruct (step_result =? SQLITE_ROW); [destruct row|]; cbn [snd];
    apply Hfin; auto.
Qed.

(** The loop of [apply_migrations] changes at most the schema, and
    records every migration it gets through. *)
Lemma migration_loop_frame env : forall todo i w,
  let r := migration_loop env i todo w in
  same_store (w_db w) (w_db (snd r))
  /\ w_snapshot (snd r) = w_snapshot w
  /\ w_live (snd r) = w_live w /\ w_next (snd r) = w_next w
  /\ w_connected (snd r) = w_connected w
  /\ (forall id, In id (db_migrations (w_db w)) ->
        In id (db_migrations (w_db (snd r))))
  /\ (forall name, has_table name (w_db w) = true ->
        has_table name (w_db (snd r)) = true)
  /\ (fst r = true ->
      forall k, (k < List.length todo)%nat ->
        In (Z.of_nat (i + k) + 1) (db_migrations (w_db (snd r)))).
Proof.
  induction todo as [|m rest IH]; intros i w; cbn [migration_loop].
  { cbn. split_all; auto using same_store_refl. intros _ k Hk. lia. }
  destruct (env_fault env (CallBind SqlInsertMigration 1)) as [e|].
  { cbn. split_all; auto using same_store_refl; intros; congruence. }
  unfold sqlite3_step_migration.
  destruct (env_fault env (CallStep SqlInsertMigration)) as [e|].
  { rewrite code_not_done. cbn.
    split_all; auto using same_store_refl; intros; congruence. }
  destruct (existsb (Z.eqb (Z.of_nat i + 1)) (db_migrations (w_db w)))
    eqn:Hknown.
  - cbn [negb Z.eqb SQLITE_DONE Pos.eqb fst snd Z.ltb Z.compare].
    destruct (env_fault env (CallReset SqlInsertMigration)) as [e|].
    { cbn. split_all; auto using same_store_refl; intros; congruence. }
    destruct (IH (S i) w) as (Hs & Hsn & Hl & Hn & Hc & Hm & Ht & Hdone).
    cbv zeta in *. split_all; auto; try apply Hs.
    intros Hok [|k] Hk.
    + rewrite Nat.add_0_r. apply Hm.
      apply existsb_exists in Hknown as (id & Hin & Heq).
      apply Z.eqb_eq in Heq. subst id. exact Hin.
    + replace (i + S k)%nat with (S i + k)%nat by lia.
      apply Hdone; [exact Hok|]. cbn in Hk. lia.
  - cbn [negb Z.eqb SQLITE_DONE Pos.eqb fst snd Z.ltb Z.compare].
    destruct (env_fault env (CallReset SqlInsertMigration)) as [e|].
    { cbn. unfold same_store. cbn. split_all; auto; try (intros; congruence).
      intros id Hid. apply in_or_app. auto. }
    set (w1 := with_db (with_migrations
                          (db_migrations (w_db w) ++ [Z.of_nat i + 1])
                          (w_db w)) w).
    assert (H1 : same_store (w_db w) (w_db w1)
                 /\ w_snapshot w1 = w_snapshot w /\ w_live w1 = w_live w
                 /\ w_next w1 = w_next w /\ w_connected w1 = w_connected w
                 /\ (forall name, has_table name (w_db w1)
                                  = has_table name (w_db w))
                 /\ In (Z.of_nat i + 1) (db_migrations (w_db w1))
                 /\ (forall id, In id (db_migrations (w_db w)) ->
                                In id (db_migrations (w_db w1)))).
    { subst w1. unfold same_store. cbn. split_all; auto.
      - apply in_or_app. right. left. reflexivity.
      - intros id Hid. apply in_or_app. auto. }
    clearbody w1.
    destruct H1 as (Hs1 & Hsn1 & Hl1 & Hn1 & Hc1 & Ht1 & Hin1 & Hm1).
    pose proof (exec_schema_stmt_frame env (ExecMigration i)
                  "executing migration" w1
                  (or_intror (ex_intro _ i eq_refl))) as He.
    pose proof (exec_write_stmt_resources env (ExecMigration i)
                  "executing migration" w1) as Hr.
    cbv zeta in He, Hr.
    destruct (exec_write_stmt env (ExecMigration i) "executing migration" w1)
      as [executed w2].
    cbn [fst snd] in *.
    destruct He as (Hs2 & Hsn2 & Hm2 & Ht2 & _).
    destruct Hr as (Hl2 & Hn2 & Hc2 & _).
    destruct executed.
    + destruct (IH (S i) w2) as (Hs & Hsn & Hl & Hn & Hc & Hm & Ht & Hdone).
      cbv zeta in *. split_all; try congruence.
      * eapply same_store_trans; [exact Hs1|].
        eapply same_store_trans; [exact Hs2|exact Hs].
      * intros id Hid. apply Hm. rewrite Hm2. auto.
      * intros name Hname. apply Ht, Ht2. rewrite Ht1. exact Hname.
      * intros Hok [|k] Hk.
        -- rewrite Nat.add_0_r. apply Hm. rewrite Hm2. exact Hin1.
        -- replace (i + S k)%nat with (S i + k)%nat by lia.
           apply Hdone; [exact Hok|]. cbn in Hk. lia.
    + cbn [fst snd]. split_all; try congruence.
      * eapply same_store_trans; [exact Hs1|exact Hs2].
      * intros id Hid. rewrite Hm2. auto.
      * intros name Hname. apply Ht2. rewrite Ht1. exact Hname.
Qed.

(** [apply_migrations] changes at most the schema; when it succeeds every
    migration is recorded. *)
Lemma apply_migrations_frame env w :
  Forall (fun x => (x < w_next w)%nat) (w_live w) ->
  let r := apply_migrations env w in
  same_store (w_db w) (w_db (snd r))
  /\ w_snapshot (snd r) = w_snapshot w
  /\ w_live (snd r) = w_live w
  /\ Forall (fun x => (x < w_next (snd r))%nat) (w_live (snd r))
  /\ w_connected (snd r) = w_connected w
  /\ (forall id, In id (db_migrations (w_db w)) ->
        In id (db_migrations (w_db (snd r))))
  /\ (forall name, has_table name (w_db w) = true ->
        has_table name (w_db (snd r)) = true)
  /\ (fst r = true ->
      has_table "migrations" (w_db (snd r)) = true
      /\ forall k, (k < List.length migrations)%nat ->
           In (Z.of_nat k + 1) (db_migrations (w_db (snd r)))).
Proof.
  intros Hlive. cbv zeta. unfold apply_migrations.
  pose proof (exec_schema_stmt_frame env ExecCreateMigrations
                "creating migrations table" w (or_introl eq_refl)) as He.
  pose proof (exec_write_stmt_resources env ExecCreateMigrations
                "creating migrations table" w) as Hr.
  cbv zeta in He, Hr.
  destruct (exec_write_stmt env ExecCreateMigrations
              "creating migrations table" w) as [created w1].
  cbn [fst snd] in *.
  destruct He as (Hs1 & Hsn1 & Hm1 & Ht1 & _ & Hmig).
  destruct Hr as (Hl1 & Hn1 & Hc1 & _).
  destruct created; cbn [negb].
  2:{ cbn [fst snd]. split_all; try congruence; auto.
      rewrite Hl1, Hn1. exact Hlive. }
  specialize (Hmig eq_refl eq_refl).
  pose proof (prepare_frame env SqlInsertMigration w1) as Hp. cbv zeta in Hp.
  destruct (prepare env SqlInsertMigration w1) as [[h|] w2];
    cbn [fst snd] in *;
    destruct Hp as (Hdb2 & Hsn2 & Hc2 & _ & _ & Hnone & Hsome).
  2:{ destruct (Hnone eq_refl) as [Hl2 Hn2].
      split_all;
        first [ congruence
              | rewrite Hdb2; exact Hs1
              | rewrite Hl2, Hn2, Hl1, Hn1; exact Hlive
              | intros id Hid; rewrite Hdb2, Hm1; exact Hid
              | intros name Hname; rewrite Hdb2; auto ]. }
  destruct (Hsome h eq_refl) as (Hh & Hl2 & Hn2 & _).
  pose proof (migration_loop_frame env migrations 0 w2) as Hloop.
  cbv zeta in Hloop.
  destruct (migration_loop env 0 migrations w2) as [result w3].
  cbn [fst snd] in *.
  destruct Hloop as (Hs3 & Hsn3 & Hl3 & Hn3 & Hc3 & Hm3 & Ht3 & Hdone).
  destruct (finalize_frame h w3) as (Hdb4 & Hsn4 & Hc4 & Hn4 & _ & Hl4).
  cbv zeta in *.
  assert (Hlive4 : w_live (sqlite3_finalize (Some h) w3) = w_live w).
  { rewrite Hl4, Hl3, Hl2, Hl1. subst h. rewrite Hn1.
    apply filter_out_last. exact Hlive. }
  rewrite Hdb4.
  split_all;
    first [ congruence
          | eapply same_store_trans; [exact Hs1|]; rewrite <- Hdb2; exact Hs3
          | rewrite Hlive4, Hn4, Hn3, Hn2;
            eapply live_below_weaken; [|exact Hlive]; lia
          | intros id Hid; apply Hm3; rewrite Hdb2, Hm1; exact Hid
          | intros name Hname; apply Ht3; rewrite Hdb2; auto; fail
          | intros ->; split;
            [ apply Ht3; rewrite Hdb2; exact Hmig
            | intros k Hk; apply (Hdone eq_refl k Hk) ] ].
Qed.

(** The statements that begin and end a transaction. *)
Lemma exec_begin_spec env w :
  let r := exec_write_stmt env ExecBegin "opening transaction" w in
  w_db (snd r) = w_db w
  /\ (fst r = true ->
      w_snapshot w = None /\ w_snapshot (snd r) = Some (w_db w)
      /\ engine_readable (w_db w) = None)
  /\ (fst r = false -> w_snapshot (snd r) = w_snapshot w).
Proof.
  cbv zeta. unfold exec_write_stmt, sqlite3_exec.
  destruct (env_fault env (CallExec ExecBegin)) as [err|].
  { rewrite is_ok_code. cbn. split_all; auto; intros; congruence. }
  destruct (engine_readable (w_db w)) as [err|].
  { rewrite is_ok_code. cbn. split_all; auto; intros; congruence. }
  destruct (w_snapshot w) eqn:Hsnap; rewrite ?is_ok_code; cbn;
    split_all; auto; intros; congruence.
Qed.

Lemma exec_commit_spec env w :
  let r := exec_write_stmt env ExecCommit "committing transaction" w in
  w_db (snd r) = w_db w
  /\ (fst r = true -> w_snapshot (snd r) = None)
  /\ (fst r = false -> w_snapshot (snd r) = w_snapshot w).
Proof.
  cbv zeta. unfold exec_write_stmt, sqlite3_exec.
  destruct (env_fault env (CallExec ExecCommit)) as [err|].
  { rewrite is_ok_code. cbn. split_all; auto; intros; congruence. }
  destruct (engine_readable (w_db w)) as [err|].
  { rewrite is_ok_code. cbn. split_all; auto; intros; congruence. }
  destruct (w_snapshot w) eqn:Hsnap; rewrite ?is_ok_code; cbn;
    split_all; auto; intros; congruence.
Qed.

(** A rollback the engine carries out restores the content the
    transaction started from. *)
Lemma try_rollback_restores env w d :
  env_fault env (CallExec ExecRollback) = None ->
  w_snapshot w = Some d -> engine_readable (w_db w) = None ->
  w_db (try_rollback env w) = d /\ w_snapshot (try_rollback env w) = None.
Proof.
  intros Hfault Hsnap Hread. unfold try_rollback, sqlite3_exec.
  rewrite Hsnap, Hfault, Hread. cbn. auto.
Qed.

Lemma try_rollback_resources env w :
  w_live (try_rollback env w) = w_live w
  /\ w_next (try_rollback env w) = w_next w
  /\ w_connected (try_rollback env w) = w_connected w.
Proof.
  unfold try_rollback, sqlite3_exec.
  destruct (w_snapshot w) eqn:Hsnap; [|auto].
  destruct (env_fault env (CallExec ExecRollback)) as [err|].
  { rewrite is_ok_code. cbn. auto. }
  destruct (engine_readable (w_db w)) as [err|].
  { rewrite is_ok_code. cbn. auto. }
  cbn. auto.
Qed.

(** The migrations inside their transaction. *)
Lemma tx_apply_migrations_spec env w :
  Forall (fun x => (x < w_next w)%nat) (w_live w) ->
  let r := tx env (apply_migrations env) w in
  w_live (snd r) = w_live w
  /\ Forall (fun x => (x < w_next (snd r))%nat) (w_live (snd r))
  /\ w_connected (snd r) = w_connected w
  /\ (fst r = true ->
      w_snapshot (snd r) = None
      /\ same_store (w_db w) (w_db (snd r))
      /\ has_table "migrations" (w_db (snd r)) = true
      /\ (forall k, (k < List.length migrations)%nat ->
            In (Z.of_nat k + 1) (db_migrations (w_db (snd r))))
      /\ (forall name, has_table name (w_db w) = true ->
            has_table name (w_db (snd r)) = true))
  /\ (fst r = false -> w_snapshot w = None ->
      env_fault env (CallExec ExecRollback) = None ->
      w_db (snd r) = w_db w /\ w_snapshot (snd r) = None).
Proof.
  intros Hlive. cbv zeta. unfold tx.
  pose proof (exec_begin_spec env w) as Hb.
  pose proof (exec_write_stmt_resources env ExecBegin
                "opening transaction" w) as Hbr.
  cbv zeta in Hb, Hbr.
  destruct (exec_write_stmt env ExecBegin "opening transaction" w)
    as [begun w1].
  cbn [fst snd] in *.
  destruct Hb as (Hdb1 & Hbegun & Hnot).
  destruct Hbr as (Hl1 & Hn1 & Hc1 & _).
  destruct begun.
  2:{ cbn [fst snd].
      split_all;
        first [ congruence
              | rewrite Hl1, Hn1; exact Hlive
              | intros _ Hsnap _; split; [exact Hdb1|];
                rewrite (Hnot eq_refl); exact Hsnap ]. }
  destruct (Hbegun eq_refl) as (Hsnap0 & Hsnap1 & Hread).
  assert (Hlive1 : Forall (fun x => (x < w_next w1)%nat) (w_live w1))
    by (rewrite Hl1, Hn1; exact Hlive).
  pose proof (apply_migrations_frame env w1 Hlive1) as Ha. cbv zeta in Ha.
  destruct (apply_migrations env w1) as [done w2]. cbn [fst snd] in *.
  destruct Ha as (Hs2 & Hsn2 & Hl2 & Hlive2 & Hc2 & Hm2 & Ht2 & Hdone).
  assert (Hread2 : engine_readable (w_db w2) = None).
  { rewrite (same_store_readable _ _ Hs2), Hdb1. exact Hread. }
  destruct done.
  2:{ cbn [fst snd].
      destruct (try_rollback_resources env w2) as (Hl3 & Hn3 & Hc3).
      split_all;
        first [ congruence
              | rewrite Hl3, Hn3; exact Hlive2
              | intros _ _ Hfault; rewrite <- Hdb1;
                apply try_rollback_restores; congruence ]. }
  pose proof (exec_commit_spec env w2) as Hcm.
  pose proof (exec_write_stmt_resources env ExecCommit
                "committing transaction" w2) as Hcr.
  cbv zeta in Hcm, Hcr.
  destruct (exec_write_stmt env ExecCommit "committing transaction" w2)
    as [committed w3].
  cbn [fst snd] in *.
  destruct Hcm as (Hdb3 & Hyes & Hno).
  destruct Hcr as (Hl3 & Hn3 & Hc3 & _).
  destruct (Hdone eq_refl) as (Hmig & Hall).
  destruct committed; cbn [fst snd].
  - split_all;
      first [ congruence
            | rewrite Hl3, Hn3; exact Hlive2
            | intros _; split_all;
              first [ solve [auto]
                    | rewrite Hdb3, <- Hdb1; exact Hs2
                    | rewrite Hdb3; exact Hmig
                    | rewrite Hdb3; exact Hall
                    | intros name Hname; rewrite Hdb3; apply Ht2;
                      rewrite Hdb1; exact Hname ] ].
  - destruct (try_rollback_resources env w3) as (Hl4 & Hn4 & Hc4).
    split_all;
      first [ congruence
            | rewrite Hl4, Hn4, Hl3, Hn3; exact Hlive2
            | intros _ _ Hfault; rewrite <- Hdb1;
              apply try_rollback_restores;
              [exact Hfault|rewrite (Hno eq_refl); congruence|congruence] ].
Qed.

Lemma exec_int_stmt_idle env q default_value w :
  idle w -> idle (snd (exec_int_stmt env q default_value w)).
Proof.
  intros (Hl & Hs & Hc).
  assert (Hlive : Forall (fun x => (x < w_next w)%nat) (w_live w))
    by (rewrite Hl; constructor).
  destruct (exec_int_stmt_frame env q default_value w Hlive)
    as (Hl' & _ & Hs' & Hc').
  unfold idle. cbv zeta in *. rewrite Hl', Hs', Hc'. auto.
Qed.

(** Outside a transaction statement, [exec_write_stmt] leaves the
    transaction as it is. *)
Lemma exec_write_stmt_snapshot env e title w :
  e <> ExecBegin -> e <> ExecCommit -> e <> ExecRollback ->
  w_snapshot (snd (exec_write_stmt env e title w)) = w_snapshot w.
Proof.
  intros Hb Hc Hr. unfold exec_write_stmt, sqlite3_exec.
  destruct (env_fault env (CallExec e)) as [err|].
  { rewrite is_ok_code. reflexivity. }
  destruct e; try congruence; try reflexivity;
    destruct (engine_readable (w_db w)) as [err|];
    try (rewrite is_ok_code; reflexivity); try reflexivity.
  - destruct (has_table "migrations" (w_db w)); reflexivity.
  - destruct (create_tables (nth n migrations []) (w_db w)) as [[err|] d];
      rewrite ?is_ok_code; reflexivity.
Qed.

Lemma exec_write_stmt_idle env e title w :
  e <> ExecBegin -> e <> ExecCommit -> e <> ExecRollback ->
  idle w -> idle (snd (exec_write_stmt env e title w)).
Proof.
  intros Hb Hc Hr (Hl & Hs & Hcn).
  destruct (exec_write_stmt_resources env e title w) as (Hl' & _ & Hc' & _).
  pose proof (exec_write_stmt_snapshot env e title w Hb Hc Hr) as Hs'.
  unfold idle. cbv zeta in *. rewrite Hl', Hs', Hc'. auto.
Qed.

Lemma init_header_idle env w : idle w -> idle (snd (init_header env w)).
Proof.
  intros Hidle. unfold init_header, and_then.
  pose proof (exec_write_stmt_idle env ExecSetApplicationId
                "setting application_id" w) as H1.
  destruct (exec_write_stmt env ExecSetApplicationId
              "setting application_id" w) as [[] w1]; cbn [snd] in *.
  - apply exec_write_stmt_idle; try discriminate.
    apply H1; try discriminate. exact Hidle.
  - apply H1; try discriminate. exact Hidle.
Qed.

Lemma check_header_idle env w : idle w -> idle (snd (check_header env w)).
Proof.
  intros Hidle. unfold check_header.
  pose proof (exec_int_stmt_idle env QueryApplicationId (-1) w Hidle) as H1.
  destruct (exec_int_stmt env QueryApplicationId (-1) w) as [[a|] w1];
    cbn [snd] in *; [|exact H1].
  pose proof (exec_int_stmt_idle env QueryUserVersion (-1) w1 H1) as H2.
  destruct (exec_int_stmt env QueryUserVersion (-1) w1) as [[u|] w2];
    cbn [snd] in *; [|exact H2].
  destruct (negb (a =? DP_PROJECT_APPLICATION_ID)); [exact H2|].
  destruct (negb (u =? DP_PROJECT_USER_VERSION)); exact H2.
Qed.

(** A connection that [sqlite3_open_v2] reports open is at rest. *)
Lemma open_v2_idle env fs path create :
  is_ok (fst (sqlite3_open_v2 env fs path create)) = true ->
  idle (snd (sqlite3_open_v2 env fs path create)).
Proof.
  unfold sqlite3_open_v2.
  destruct (env_fault env CallOpen) as [e|].
  { cbn [fst]. rewrite is_ok_code. discriminate. }
  destruct (fs path) as [d|]; [intros _; cbn; unfold idle; auto|].
  destruct create; [intros _; cbn; unfold idle; auto|].
  cbn [fst]. rewrite is_ok_code. discriminate.
Qed.

(** The three statements of a project, prepared on a connection at
    rest. *)
Lemma prepare_loop_all env stmts0 w stmts w' :
  List.length stmts0 = 3%nat ->
  w_live w = [] ->
  prepare_loop env 0 all_statements stmts0 w = (Some stmts, w') ->
  w_db w' = w_db w /\ w_snapshot w' = w_snapshot w
  /\ w_connected w' = w_connected w
  /\ stmts = [Some (w_next w); Some (S (w_next w)); Some (S (S (w_next w)))]
  /\ w_live w' = [w_next w; S (w_next w); S (S (w_next w))]
  /\ engine_readable (w_db w) = None
  /\ has_table "messages" (w_db w) = true
  /\ has_table "sessions" (w_db w) = true.
Proof.
  intros Hlen Hlive. unfold all_statements. cbn [prepare_loop].
  destruct stmts0 as [|s0 [|s1 [|s2 [|]]]]; try discriminate.
  pose proof (prepare_frame env
                (SqlProject DP_PROJECT_STATEMENT_MESSAGE_INSERT) w) as H1.
  cbv zeta in H1.
  destruct (prepare env (SqlProject DP_PROJECT_STATEMENT_MESSAGE_INSERT) w)
    as [[a|] w1]; [|discriminate].
  cbn [fst snd] in H1. destruct H1 as (Hdb1 & Hs1 & Hc1 & _ & _ & _ & H1).
  destruct (H1 a eq_refl) as (-> & Hl1 & Hn1 & Hread & Ht1).
  pose proof (prepare_frame env
                (SqlProject DP_PROJECT_STATEMENT_SESSION_OPEN) w1) as H2.
  cbv zeta in H2.
  destruct (prepare env (SqlProject DP_PROJECT_STATEMENT_SESSION_OPEN) w1)
    as [[b|] w2]; [|discriminate].
  cbn [fst snd] in H2. destruct H2 as (Hdb2 & Hs2 & Hc2 & _ & _ & _ & H2).
  destruct (H2 b eq_refl) as (-> & Hl2 & Hn2 & _ & Ht2).
  pose proof (prepare_frame env
                (SqlProject DP_PROJECT_STATEMENT_SESSION_CLOSE) w2) as H3.
  cbv zeta in H3.
  destruct (prepare env (SqlProject DP_PROJECT_STATEMENT_SESSION_CLOSE) w2)
    as [[c|] w3]; [|discriminate].
  cbn [fst snd] in H3. destruct H3 as (Hdb3 & Hs3 & Hc3 & _ & _ & _ & H3).
  destruct (H3 c eq_refl) as (-> & Hl3 & Hn3 & _ & _).
  cbn [store_at]. intros H. injection H as <- <-.
  rewrite Hl3, Hl2, Hl1, Hlive, Hn2, Hn1. cbn [app].
  split_all; try congruence.
  - apply Ht1. reflexivity.
  - rewrite <- Hdb1. apply Ht2. reflexivity.
Qed.

Lemma vacuum_idle env w :
  idle w -> idle (snd (sqlite3_exec env ExecVacuum w)).
Proof.
  unfold sqlite3_exec, idle.
  destruct (env_fault env (CallExec ExecVacuum)); cbn; auto.
Qed.

Lemma is_empty_db_idle env w : idle w -> idle (snd (is_empty_db env w)).
Proof.
  intros Hidle. unfold is_empty_db.
  pose proof (exec_int_stmt_idle env QuerySchemaRow 0 w Hidle) as H.
  destruct (exec_int_stmt env QuerySchemaRow 0 w) as [[v|] w1]; exact H.
Qed.

(** The header and the migrations of [DP_project_open], once they went
    through. *)
Lemma open_init_spec env (empty : bool) w :
  idle w ->
  let r := ((fun w => if empty then init_header env w else (true, w))
            &&> check_header env
            &&> tx env (apply_migrations env)) w in
  fst r = true ->
  idle (snd r)
  /\ accepted_header (w_db (snd r))
  /\ forall k, (k < List.length migrations)%nat ->
       In (Z.of_nat k + 1) (db_migrations (w_db (snd r))).
Proof.
  intros Hidle. cbv zeta. unfold and_then.
  assert (H1 : idle (snd (if empty then init_header env w else (true, w)))).
  { destruct empty; [apply init_header_idle; exact Hidle|exact Hidle]. }
  destruct (if empty then init_header env w else (true, w)) as [[] w1];
    cbn [fst snd] in *; [|discriminate].
  pose proof (check_header_idle env w1 H1) as H2.
  pose proof (check_header_spec env w1) as Hc. cbv zeta in Hc.
  destruct (check_header env w1) as [[] w2]; cbn [fst snd] in *;
    [|discriminate].
  destruct Hc as (Hdb2 & Hacc). specialize (Hacc eq_refl).
  destruct H2 as (Hl2 & Hs2 & Hc2).
  assert (Hlive : Forall (fun x => (x < w_next w2)%nat) (w_live w2))
    by (rewrite Hl2; constructor).
  pose proof (tx_apply_migrations_spec env w2 Hlive) as Ht. cbv zeta in Ht.
  destruct (tx env (apply_migrations env) w2) as [done w3].
  cbn [fst snd] in *. intros ->.
  destruct Ht as (Hl3 & _ & Hc3 & Hyes & _).
  destruct (Hyes eq_refl) as (Hs3 & Hsame & _ & Hall & _).
  split; [unfold idle; split_all; congruence|]. split; [|exact Hall].
  apply (same_store_accepted (w_db w2)); [exact Hsame|].
  rewrite Hdb2. exact Hacc.
Qed.

(** What holds of every project that [DP_project_open] hands out. *)
Lemma open_success_spec env fs path flags prj w :
  DP_project_open env fs path flags = (Some prj, w) ->
  exists a b c,
    stmts prj = [Some a; Some b; Some c]
    /\ w_live w = [a; b; c] /\ NoDup [a; b; c]
    /\ session_id prj = 0 /\ sequence_id prj = 0
    /\ w_connected w = true /\ w_snapshot w = None
    /\ accepted_header (w_db w)
    /\ has_table "sessions" (w_db w) = true
    /\ has_table "messages" (w_db w) = true
    /\ In 1 (db_migrations (w_db w)).
Proof.
  unfold DP_project_open.
  pose proof (open_v2_idle env fs path
                (negb (flag_set flags DP_PROJECT_OPEN_EXISTING))) as Hopen.
  destruct (sqlite3_open_v2 env fs path _) as [db_open_result w0].
  cbn [fst snd] in Hopen.
  destruct (is_ok db_open_result); cbn [negb]; [|discriminate].
  specialize (Hopen eq_refl).
  destruct (db_readonly (w_db w0)); [discriminate|].
  assert (H1 : idle (snd (if flag_set flags DP_PROJECT_OPEN_TRUNCATE
                          then (Some true, snd (sqlite3_exec env ExecVacuum w0))
                          else is_empty_db env w0))).
  { destruct (flag_set flags DP_PROJECT_OPEN_TRUNCATE);
      [apply vacuum_idle|apply is_empty_db_idle]; exact Hopen. }
  destruct (if flag_set flags DP_PROJECT_OPEN_TRUNCATE then _ else _)
    as [[empty|] w1]; [|discriminate].
  cbn [snd] in H1.
  pose proof (open_init_spec env empty w1 H1) as Hinit. cbv zeta in Hinit.
  destruct (and_then _ _ w1) as [init_ok w2]. cbn [fst snd] in Hinit.
  destruct init_ok; cbn [negb]; [|discriminate].
  destruct (Hinit eq_refl) as ((Hl2 & Hs2 & Hc2) & Hacc & Hall).
  destruct (prepare_loop env 0 all_statements
              (repeat None DP_PROJECT_STATEMENT_COUNT) w2)
    as [[stmts3|] w3] eqn:Hloop; [|discriminate].
  intros H. injection H as <- <-.
  destruct (prepare_loop_all env (repeat None DP_PROJECT_STATEMENT_COUNT)
              w2 stmts3 w3 eq_refl Hl2 Hloop)
    as (Hdb & Hs3 & Hc3 & -> & Hl3 & _ & Hmsg & Hses).
  exists (w_next w2), (S (w_next w2)), (S (S (w_next w2))).
  cbn [stmts session_id sequence_id]. rewrite Hdb.
  split_all; try congruence.
  - repeat constructor; cbn; lia.
  - apply (Hall 0%nat). cbn. lia.
Qed.

(** A project that opens is ready for use: its three statements are
    prepared, distinct and the only ones live on the connection, no
    transaction is pending and no session is open, whatever the file
    held. *)
Theorem open_handle_is_ready env fs path flags prj w :
  DP_project_open env fs path flags = (Some prj, w) ->
  exists a b c,
    stmts prj = [Some a; Some b; Some c]
    /\ w_live w = [a; b; c] /\ NoDup [a; b; c]
    /\ DP_project_session_id prj = 0 /\ sequence_id prj = 0
    /\ w_connected w = true /\ w_snapshot w = None.
Proof.
  intros Hopen.
  destruct (open_success_spec env fs path flags prj w Hopen)
    as (a & b & c & H1 & H2 & H3 & H4 & H5 & H6 & H7 & _).
  exists a, b, c. unfold DP_project_session_id. auto 10.
Qed.

Lemma open_handle_is_ready_witness :
  exists a b c,
    [Some 4%nat; Some 5%nat; Some 6%nat] = [Some a; Some b; Some c]
    /\ w_live (snd (DP_project_open quiet_env (fun _ => None) "a.dppr" 0))
       = [a; b; c].
Proof.
  destruct (open_handle_is_ready quiet_env (fun _ => None) "a.dppr" 0
              {| session_id := 0; sequence_id := 0;
                 stmts := [Some 4%nat; Some 5%nat; Some 6%nat];
                 serialize_buffer := [] |}
              (snd (DP_project_open quiet_env (fun _ => None) "a.dppr" 0)))
    as (a & b & c & Hs & Hl & _).
  - vm_compute. reflexivity.
  - exists a, b, c. split; [exact Hs|exact Hl].
Defined.

(** The file of a project that opened passes [DP_project_check] with the
    current version, and holds the session and message tables and the
    record of migration 1. *)
Theorem opened_file_passes_check env fs path flags prj w (fs' : FileSystem) :
  DP_project_open env fs path flags = (Some prj, w) ->
  fs' path = Some (w_db w) ->
  DP_project_check fs' path = DP_PROJECT_USER_VERSION
  /\ has_table "sessions" (w_db w) = true
  /\ has_table "messages" (w_db w) = true
  /\ In 1 (db_migrations (w_db w)).
Proof.
  intros Hopen Hfs.
  destruct (open_success_spec env fs path flags prj w Hopen)
    as (a & b & c & _ & _ & _ & _ & _ & _ & _ & Hacc & Hs & Hm & Hmig).
  split; [|auto]. apply (accepted_header_checks fs' path (w_db w)); assumption.
Qed.

Lemma opened_file_passes_check_witness :
  let w := snd (DP_project_open quiet_env (fun _ => None) "a.dppr" 0) in
  DP_project_check (single_file "a.dppr" (w_db w)) "a.dppr"
  = DP_PROJECT_USER_VERSION
  /\ has_table "sessions" (w_db w) = true
  /\ has_table "messages" (w_db w) = true
  /\ In 1 (db_migrations (w_db w)).
Proof.
  assert (H1 : DP_project_open quiet_env (fun _ => None) "a.dppr" 0
               = (Some {| session_id := 0; sequence_id := 0;
                          stmts := [Some 4%nat; Some 5%nat; Some 6%nat];
                          serialize_buffer := [] |},
                  snd (DP_project_open quiet_env (fun _ => None) "a.dppr" 0)))
    by (vm_compute; reflexivity).
  assert (H2 : single_file "a.dppr"
                 (w_db (snd (DP_project_open quiet_env (fun _ => None)
                               "a.dppr" 0))) "a.dppr"
               = Some (w_db (snd (DP_project_open quiet_env (fun _ => None)
                                    "a.dppr" 0))))
    by reflexivity.
  exact (opened_file_passes_check quiet_env (fun _ => None) "a.dppr" 0 _ _
           (single_file "a.dppr"
              (w_db (snd (DP_project_open quiet_env (fun _ => None)
                            "a.dppr" 0))))
           H1 H2).
Defined.

(** Symbolic execution of an open in an environment without faults. *)
Ltac run_fault_free Hfree :=
  unfold and_then, is_empty_db, init_header, and_then, check_header, tx,
    apply_migrations, exec_int_stmt, exec_write_stmt, prepare,
    sqlite3_prepare_v3, sqlite3_exec, sqlite3_step_query, all_statements,
    migrations, try_rollback;
  cbn [migration_loop prepare_loop];
  unfold sqlite3_step_migration, exec_write_stmt, prepare, sqlite3_prepare_v3,
    sqlite3_exec;
  rewrite ?Hfree; vm_compute.

(** A new project.  Without faults, opening a path that does not exist
    (unless only existing files are asked for), or opening a writable
    file with the truncate flag, gives a handle, and the file is the
    fresh project file: header written, schema created, migration 1
    recorded, no session and no message. *)
Theorem open_creates_project env (fs : FileSystem) path flags :
  fault_free env ->
  (fs path = None /\ flag_set flags DP_PROJECT_OPEN_EXISTING = false)
  \/ (exists d, fs path = Some d /\ db_readonly d = false
                /\ db_read_error d = false
                /\ flag_set flags DP_PROJECT_OPEN_TRUNCATE = true) ->
  exists prj w,
    DP_project_open env fs path flags = (Some prj, w)
    /\ w_db w = fresh_project_file
    /\ DP_project_session_id prj = 0.
Proof.
  intros Hfree [[Hfs Hex]|(d & Hfs & Hro & Herr & Htrunc)];
    unfold DP_project_open, sqlite3_open_v2; rewrite Hfree, Hfs.
  - rewrite Hex. cbn [negb is_ok SQLITE_OK Z.eqb].
    change (db_readonly (w_db (connected blank_database))) with false.
    cbv iota.
    destruct (flag_set flags DP_PROJECT_OPEN_TRUNCATE).
    + unfold sqlite3_exec at 1. rewrite Hfree. cbn [snd].
      run_fault_free Hfree. eexists. eexists. split_all; reflexivity.
    + run_fault_free Hfree. eexists. eexists. split_all; reflexivity.
  - cbn [negb is_ok SQLITE_OK Z.eqb].
    change (db_readonly (w_db (connected d))) with (db_readonly d).
    rewrite Hro, Htrunc. cbv iota.
    unfold sqlite3_exec at 1. rewrite Hfree. cbn [snd].
    assert (Hblank : truncated (w_db (connected d)) = blank_database).
    { unfold truncated, blank_database. cbn. rewrite Hro, Herr. reflexivity. }
    rewrite Hblank.
    change (with_db blank_database (connected d))
      with (connected blank_database).
    run_fault_free Hfree. eexists. eexists. split_all; reflexivity.
Qed.

Lemma open_creates_project_witness :
  exists prj w,
    DP_project_open quiet_env (single_file "a.dppr" busy_database)
                    "a.dppr" DP_PROJECT_OPEN_TRUNCATE = (Some prj, w)
    /\ w_db w = fresh_project_file
    /\ DP_project_session_id prj = 0.
Proof.
  apply (open_creates_project quiet_env (single_file "a.dppr" busy_database)
           "a.dppr" DP_PROJECT_OPEN_TRUNCATE).
  - intros call. reflexivity.
  - right. exists busy_database. split_all; reflexivity.
Defined.

Lemma close_keeps_db env w : w_db (snd (sqlite3_close env w)) = w_db w.
Proof.
  unfold sqlite3_close. destruct (w_live w); [|reflexivity].
  destruct (env_fault env CallClose); reflexivity.
Qed.



(** ** Migrations that are already applied *)

Lemma migration_loop_noop env : forall todo i w,
  (forall k, (k < List.length todo)%nat ->
     In (Z.of_nat (i + k) + 1) (db_migrations (w_db w))) ->
  w_db (snd (migration_loop env i todo w)) = w_db w.
Proof.
  induction todo as [|m rest IH]; intros i w Hall; cbn [migration_loop].
  { reflexivity. }
  destruct (env_fault env (CallBind SqlInsertMigration 1)); [reflexivity|].
  unfold sqlite3_step_migration.
  destruct (env_fault env (CallStep SqlInsertMigration)).
  { rewrite code_not_done. reflexivity. }
  assert (Hknown : existsb (Z.eqb (Z.of_nat i + 1)) (db_migrations (w_db w))
                   = true).
  { apply existsb_exists. exists (Z.of_nat i + 1). split; [|apply Z.eqb_refl].
    specialize (Hall 0%nat). rewrite Nat.add_0_r in Hall. apply Hall.
    cbn. lia. }
  rewrite Hknown.
  cbn [negb Z.eqb SQLITE_DONE Pos.eqb fst snd Z.ltb Z.compare].
  destruct (env_fault env (CallReset SqlInsertMigration)); [reflexivity|].
  apply IH. intros k Hk.
  replace (S i + k)%nat with (i + S k)%nat by lia. apply Hall. cbn. lia.
Qed.

Lemma exec_create_migrations_noop env title w :
  has_table "migrations" (w_db w) = true ->
  w_db (snd (exec_write_stmt env ExecCreateMigrations title w)) = w_db w.
Proof.
  intros Hhas. unfold exec_write_stmt, sqlite3_exec.
  destruct (env_fault env (CallExec ExecCreateMigrations)).
  { rewrite is_ok_code. reflexivity. }
  destruct (engine_readable (w_db w)).
  { rewrite is_ok_code. reflexivity. }
  rewrite Hhas. reflexivity.
Qed.

Lemma apply_migrations_noop env w :
  has_table "migrations" (w_db w) = true ->
  (forall k, (k < List.length migrations)%nat ->
     In (Z.of_nat k + 1) (db_migrations (w_db w))) ->
  w_db (snd (apply_migrations env w)) = w_db w.
Proof.
  intros Hhas Hall. unfold apply_migrations.
  pose proof (exec_create_migrations_noop env "creating migrations table" w
                Hhas) as H1.
  destruct (exec_write_stmt env ExecCreateMigrations
              "creating migrations table" w) as [created w1].
  cbn [snd] in H1. destruct created; cbn [negb]; [|exact H1].
  pose proof (prepare_keeps_db env SqlInsertMigration w1) as H2.
  destruct (prepare env SqlInsertMigration w1) as [[h|] w2]; cbn [snd] in *;
    [|congruence].
  pose proof (migration_loop_noop env migrations 0 w2) as H3.
  destruct (migration_loop env 0 migrations w2) as [result w3].
  cbn [snd] in *. rewrite finalize_keeps_db, H3; [congruence|].
  intros k Hk. rewrite H2, H1. apply Hall. exact Hk.
Qed.

Lemma try_rollback_db env w :
  w_db (try_rollback env w) = w_db w
  \/ w_snapshot w = Some (w_db (try_rollback env w)).
Proof.
  unfold try_rollback, sqlite3_exec.
  destruct (w_snapshot w) as [d|] eqn:Hsnap; [|auto].
  destruct (env_fault env (CallExec ExecRollback)).
  { rewrite is_ok_code. cbn. auto. }
  destruct (engine_readable (w_db w)).
  { rewrite is_ok_code. cbn. auto. }
  cbn. auto.
Qed.

Lemma tx_apply_migrations_noop env w :
  has_table "migrations" (w_db w) = true ->
  (forall k, (k < List.length migrations)%nat ->
     In (Z.of_nat k + 1) (db_migrations (w_db w))) ->
  w_live w = [] ->
  w_db (snd (tx env (apply_migrations env) w)) = w_db w.
Proof.
  intros Hhas Hall Hlive. unfold tx.
  pose proof (exec_begin_spec env w) as Hb. cbv zeta in Hb.
  pose proof (exec_write_stmt_resources env ExecBegin
                "opening transaction" w) as Hbr. cbv zeta in Hbr.
  destruct (exec_write_stmt env ExecBegin "opening transaction" w)
    as [begun w1].
  cbn [fst snd] in *. destruct Hb as (Hdb1 & Hbegun & _).
  destruct Hbr as (Hl1 & _).
  destruct begun; [|exact Hdb1].
  destruct (Hbegun eq_refl) as (_ & Hsnap1 & _).
  assert (Hlive1 : Forall (fun x => (x < w_next w1)%nat) (w_live w1))
    by (rewrite Hl1, Hlive; constructor).
  pose proof (apply_migrations_frame env w1 Hlive1) as Hf. cbv zeta in Hf.
  pose proof (apply_migrations_noop env w1) as Hn.
  rewrite Hdb1 in Hn. specialize (Hn Hhas Hall).
  destruct (apply_migrations env w1) as [done w2]. cbn [fst snd] in *.
  destruct Hf as (_ & Hsnap2 & _).
  destruct done.
  - pose proof (exec_commit_spec env w2) as Hc. cbv zeta in Hc.
    destruct (exec_write_stmt env ExecCommit "committing transaction" w2)
      as [committed w3].
    cbn [fst snd] in *. destruct Hc as (Hdb3 & _ & Hno).
    destruct committed; cbn [snd]; [congruence|].
    destruct (try_rollback_db env w3) as [H|H]; [congruence|].
    rewrite (Hno eq_refl), Hsnap2, Hsnap1 in H. congruence.
  - cbn [snd]. destruct (try_rollback_db env w2) as [H|H]; [congruence|].
    rewrite Hsnap2, Hsnap1 in H. congruence.
Qed.

Lemma prepare_loop_keeps_db env : forall todo i stmts w,
  w_db (snd (prepare_loop env i todo stmts w)) = w_db w.
Proof.
  induction todo as [|ps rest IH]; intros i stmts w; cbn [prepare_loop].
  { reflexivity. }
  pose proof (prepare_keeps_db env (SqlProject ps) w) as H.
  destruct (prepare env (SqlProject ps) w) as [[h|] w1]; cbn [snd] in *.
  - rewrite IH. exact H.
  - rewrite close_keeps_db. rewrite <- H.
    generalize (seq 0 i). intros js. revert w1 H.
    induction js as [|j js IHjs]; intros w1 H; cbn [fold_left].
    + reflexivity.
    + rewrite IHjs; [apply finalize_keeps_db|].
      rewrite finalize_keeps_db. exact H.
Qed.

(** Opening a project file that is already set up changes nothing in
    it: with the migrations table present and every migration recorded,
    the file after the open is the file before, whether the open
    succeeds or fails and whatever faults the engine reports after the
    connection is made. *)
Theorem open_keeps_initialised_file env (fs : FileSystem) path flags d :
  fs path = Some d ->
  env_fault env CallOpen = None ->
  flag_set flags DP_PROJECT_OPEN_TRUNCATE = false ->
  has_table "migrations" d = true ->
  (forall k, (k < List.length migrations)%nat ->
     In (Z.of_nat k + 1) (db_migrations d)) ->
  w_db (snd (DP_project_open env fs path flags)) = d.
Proof.
  intros Hfs Hopen Htrunc Hhas Hall.
  unfold DP_project_open, sqlite3_open_v2. rewrite Hopen, Hfs.
  cbn [is_ok SQLITE_OK Z.eqb negb].
  change (w_db (connected d)) with d.
  destruct (db_readonly d).
  { cbn [snd]. rewrite close_keeps_db. reflexivity. }
  rewrite Htrunc.
  assert (Htables : db_tables d <> []).
  { unfold has_table in Hhas. destruct (db_tables d); [discriminate|].
    discriminate. }
  pose proof (is_empty_db_spec env (connected d)) as He. cbv zeta in He.
  pose proof (is_empty_db_idle env (connected d)) as Hi.
  destruct (is_empty_db env (connected d)) as [[empty|] w1];
    cbn [fst snd] in *; destruct He as (Hdb1 & Hval).
  2:{ rewrite close_keeps_db. exact Hdb1. }
  change (w_db (connected d)) with d in *.
  rewrite (Hval empty eq_refl Htables).
  assert (Hidle1 : idle w1) by (apply Hi; unfold idle; cbn; auto).
  unfold and_then.
  pose proof (check_header_spec env w1) as Hc. cbv zeta in Hc.
  pose proof (check_header_idle env w1 Hidle1) as Hidle2.
  destruct (check_header env w1) as [checked w2]. cbn [fst snd] in *.
  destruct Hc as (Hdb2 & _). destruct Hidle2 as (Hl2 & _).
  destruct checked.
  2:{ cbn [negb snd]. rewrite close_keeps_db. congruence. }
  pose proof (tx_apply_migrations_noop env w2) as Ht.
  rewrite Hdb2, Hdb1 in Ht. specialize (Ht Hhas Hall Hl2).
  destruct (tx env (apply_migrations env) w2) as [done w3]. cbn [snd] in Ht.
  destruct done; cbn [negb].
  2:{ cbn [snd]. rewrite close_keeps_db. exact Ht. }
  pose proof (prepare_loop_keeps_db env all_statements 0
                (repeat None DP_PROJECT_STATEMENT_COUNT) w3) as Hp.
  destruct (prepare_loop env 0 all_statements
              (repeat None DP_PROJECT_STATEMENT_COUNT) w3) as [[st|] w4];
    cbn [snd] in *; congruence.
Qed.

Lemma open_keeps_initialised_file_witness :
  w_db (snd (DP_project_open full_disk_env
               (single_file "a.dppr" busy_database) "a.dppr" 0))
  = busy_database.
Proof.
  apply (open_keeps_initialised_file full_disk_env
           (single_file "a.dppr" busy_database) "a.dppr" 0 busy_database).
  - reflexivity.
  - reflexivity.
  - reflexivity.
  - reflexivity.
  - intros [|k] Hk; [cbn; auto|cbn in Hk; lia].
Defined.

(** The migrations are all or nothing.  When the transaction around
    them fails, at the begin, in a migration or at the commit, and the
    engine carries out the rollback, the store is as it was before and no
    transaction is left open. *)
Theorem failed_migrations_roll_back env w :
  idle w ->
  env_fault env (CallExec ExecRollback) = None ->
  fst (tx env (apply_migrations env) w) = false ->
  w_db (snd (tx env (apply_migrations env) w)) = w_db w
  /\ idle (snd (tx env (apply_migrations env) w)).
Proof.
  intros (Hl & Hs & Hc) Hfault Hfail.
  assert (Hlive : Forall (fun x => (x < w_next w)%nat) (w_live w))
    by (rewrite Hl; constructor).
  destruct (tx_apply_migrations_spec env w Hlive)
    as (Hl' & _ & Hc' & _ & Hno).
  cbv zeta in *. destruct (Hno Hfail Hs Hfault) as [Hdb Hsnap].
  split; [exact Hdb|]. unfold idle. split_all; congruence.
Qed.

Lemma failed_migrations_roll_back_witness :
  w_db (snd (tx failing_commit_env (apply_migrations failing_commit_env)
               (connected blank_database)))
  = w_db (connected blank_database)
  /\ idle (snd (tx failing_commit_env (apply_migrations failing_commit_env)
                  (connected blank_database))).
Proof.
  apply (failed_migrations_roll_back failing_commit_env
           (connected blank_database)).
  - unfold idle. cbn. auto.
  - reflexivity.
  - vm_compute. reflexivity.
Defined.

(** ** The session calls and the connection *)

Ltac split_faults env :=
  repeat match goal with
         | |- context [env_fault env ?call] =>
             let F := fresh "F" in
             destruct (env_fault env call) eqn:F;
             cbn [fst snd]; rewrite ?is_ok_code, ?code_not_done; cbn
         end.

Ltac frame_done :=
  split_all; first [reflexivity | unfold same_connection; cbn; auto 12].

Lemma same_connection_refl w : same_connection w w.
Proof. unfold same_connection. auto 12. Qed.


Lemma session_close_frame env prj w :
  let s' := snd (DP_project_session_close env (prj, w)) in
  stmts (fst s') = stmts prj /\ same_connection w (snd s')
  /\ db_messages (w_db (snd s')) = db_messages (w_db w).
Proof.
  cbv zeta. unfold DP_project_session_close. cbn [fst snd].
  destruct (session_id prj =? 0).
  { cbn. frame_done. }
  unfold_statement_calls. split_faults env;
    frame_done.
Qed.

Lemma message_record_frame env msg prj w :
  let s' := snd (DP_project_message_record env msg (prj, w)) in
  stmts (fst s') = stmts prj /\ same_connection w (snd s')
  /\ db_sessions (w_db (snd s')) = db_sessions (w_db w).
Proof.
  cbv zeta. unfold DP_project_message_record. cbn [fst snd].
  destruct (session_id prj =? 0).
  { cbn. frame_done. }
  unfold DP_message_serialize_body.
  destruct (Z.of_nat (Datatypes.length (message_body msg)) =? 0).
  { cbn. frame_done. }
  unfold_statement_calls. split_faults env;
    try destruct (key_in_use _ _ _); cbn; split_faults env;
    frame_done.
Qed.

(** ** Closing a project *)

Lemma finalize_list_frame (l : list (option nat)) : forall w,
  let w' := fold_left (fun acc stmt => sqlite3_finalize stmt acc) l w in
  w_db w' = w_db w /\ w_connected w' = w_connected w
  /\ w_error w' = w_error w /\ w_warnings w' = w_warnings w
  /\ w_snapshot w' = w_snapshot w.
Proof.
  induction l as [|stmt l IH]; intros w; cbn [fold_left].
  { auto. }
  destruct (IH (sqlite3_finalize stmt w)) as (H1 & H2 & H3 & H4 & H5).
  cbv zeta in *. rewrite H1, H2, H3, H4, H5. destruct stmt; cbn; auto.
Qed.

Lemma finalize_list_live (l : list (option nat)) : forall w,
  w_live (fold_left (fun acc stmt => sqlite3_finalize stmt acc) l w)
  = filter (fun x => negb (existsb (fun stmt => match stmt with
                                                | Some h => Nat.eqb x h
                                                | None => false
                                                end) l))
           (w_live w).
Proof.
  induction l as [|stmt l IH]; intros w; cbn [fold_left existsb].
  { induction (w_live w) as [|x xs IHx]; cbn [filter negb];
      [reflexivity|f_equal; exact IHx]. }
  rewrite IH. destruct stmt as [h|]; cbn [sqlite3_finalize w_live with_live
                                            with_finalized].
  - induction (w_live w) as [|x xs IHx]; cbn [filter]; [reflexivity|].
    destruct (Nat.eqb x h); cbn [negb orb filter]; [exact IHx|].
    rewrite IHx. reflexivity.
  - reflexivity.
Qed.

Lemma session_close_result env prj w :
  session_id prj <> 0 ->
  let r := DP_project_session_close env (prj, w) in
  (close_update_ok env = true ->
   fst r = 1
   /\ db_sessions (w_db (snd (snd r)))
      = map (close_row (env_now env) (session_id prj)) (db_sessions (w_db w)))
  /\ (close_update_ok env = false -> fst r = 0).
Proof.
  intros Hsid. cbv zeta. unfold DP_project_session_close, close_update_ok.
  cbn [fst snd]. apply Z.eqb_neq in Hsid. rewrite Hsid.
  unfold_statement_calls. split_faults env; split; intros; try discriminate;
    auto.
Qed.

(** [DP_project_close] on a project whose three statements are the live
    statements of the connection. *)
Lemma close_project_spec env prj w a b c :
  stmts prj = [Some a; Some b; Some c] ->
  w_live w = [a; b; c] ->
  let r := DP_project_close env (prj, w) in
  w_live (snd r) = []
  /\ db_messages (w_db (snd r)) = db_messages (w_db w)
  /\ (env_fault env CallClose = None ->
      fst r = true /\ w_connected (snd r) = false)
  /\ (forall e, env_fault env CallClose = Some e ->
      fst r = false /\ w_connected (snd r) = w_connected w
      /\ w_error (snd r)
         = "Error " +++ CInt.dec (code e) +++ " closing project").
Proof.
  intros Hstmts Hlive. cbv zeta. unfold DP_project_close.
  destruct (session_close_frame env prj w) as (Hst & Hconn & Hmsg).
  cbv zeta in *.
  destruct (DP_project_session_close env (prj, w)) as [closed [prj1 w1]].
  cbn [fst snd] in *.
  set (w2 := if closed =? 0 then DP_warn ("Close project: " +++ w_error w1) w1
             else w1).
  assert (H2 : w_live w2 = w_live w1 /\ w_db w2 = w_db w1
               /\ w_connected w2 = w_connected w1).
  { subst w2. destruct (closed =? 0); cbn; auto. }
  clearbody w2. destruct H2 as (Hl2 & Hdb2 & Hc2).
  destruct Hconn as (Hl1 & _ & Hc1 & _).
  pose proof (finalize_list_live (stmts prj1) w2) as Hfl.
  destruct (finalize_list_frame (stmts prj1) w2) as (Hdb3 & Hc3 & _).
  cbv zeta in Hdb3, Hc3.
  set (w3 := fold_left (fun acc stmt => sqlite3_finalize stmt acc)
                       (stmts prj1) w2) in *.
  assert (Hl3 : w_live w3 = []).
  { rewrite Hfl, Hst, Hstmts, Hl2, Hl1, Hlive. cbn.
    rewrite !Nat.eqb_refl. cbn. rewrite !orb_true_r. reflexivity. }
  clearbody w3. unfold sqlite3_close. rewrite Hl3.
  destruct (env_fault env CallClose) as [e|].
  - rewrite is_ok_code. cbn.
    split_all;
      first [ congruence
            | intros e' He'; injection He' as <-; split_all; congruence ].
  - cbn.
    split_all;
      first [ congruence | solve [auto] | intros e He; discriminate ].
Qed.

(** [DP_project_close] releases what the open acquired: the three
    statements are finalized, so the engine closes the connection unless
    the close itself fails, which is the only way for the call on a
    project to return false; recorded messages are untouched.  On a null
    pointer the call only sets an error. *)
Theorem close_releases_project env prj w a b c :
  stmts prj = [Some a; Some b; Some c] ->
  w_live w = [a; b; c] ->
  let r := DP_project_close_ptr env (Some prj) w in
  w_live (snd r) = []
  /\ db_messages (w_db (snd r)) = db_messages (w_db w)
  /\ (env_fault env CallClose = None ->
      fst r = true /\ w_connected (snd r) = false)
  /\ (forall e, env_fault env CallClose = Some e ->
      fst r = false /\ w_connected (snd r) = w_connected w
      /\ w_error (snd r)
         = "Error " +++ CInt.dec (code e) +++ " closing project")
  /\ DP_project_close_ptr env None w
     = (false, DP_error_set "Project is null" w).
Proof.
  intros Hstmts Hlive. cbn [DP_project_close_ptr].
  destruct (close_project_spec env prj w a b c Hstmts Hlive)
    as (H1 & H2 & H3 & H4).
  cbv zeta in *. auto 10.
Qed.

Lemma close_releases_project_witness :
  let r := DP_project_close_ptr quiet_env (Some busy_project) busy_world in
  w_live (snd r) = []
  /\ db_messages (w_db (snd r)) = db_messages busy_database
  /\ fst r = true /\ w_connected (snd r) = false.
Proof.
  destruct (close_releases_project quiet_env busy_project busy_world
              0%nat 1%nat 2%nat eq_refl eq_refl) as (H1 & H2 & H3 & _).
  destruct (H3 eq_refl) as [H4 H5].
  split; [exact H1|]. split; [exact H2|]. split; [exact H4|exact H5].
Defined.

(** [DP_project_close] ends a session that is still open: its row gets
    the closing time when the update goes through, and when it does not
    the failure is only logged. Without an open session the sessions are
    left alone. *)
Theorem project_close_ends_session env prj w :
  let r := DP_project_close_ptr env (Some prj) w in
  (session_id prj = 0 -> db_sessions (w_db (snd r)) = db_sessions (w_db w))
  /\ (session_id prj <> 0 -> close_update_ok env = true ->
      db_sessions (w_db (snd r))
      = map (close_row (env_now env) (session_id prj)) (db_sessions (w_db w)))
  /\ (session_id prj <> 0 -> close_update_ok env = false ->
      exists reason, In ("Close project: " +++ reason) (w_warnings (snd r))).
Proof.
  cbv zeta. cbn [DP_project_close_ptr]. unfold DP_project_close.
  pose proof (session_close_result env prj w) as Hres. cbv zeta in Hres.
  assert (Hnone : session_id prj = 0 ->
                  DP_project_session_close env (prj, w) = (-1, (prj, w))).
  { intros H. unfold DP_project_session_close. cbn [fst snd]. rewrite H.
    reflexivity. }
  destruct (DP_project_session_close env (prj, w)) as [closed [prj1 w1]].
  cbn [fst snd] in *.
  set (w2 := if closed =? 0 then DP_warn ("Close project: " +++ w_error w1) w1
             else w1).
  assert (H2 : w_db w2 = w_db w1
               /\ (closed = 0 ->
                   In ("Close project: " +++ w_error w1) (w_warnings w2))).
  { subst w2. destruct (closed =? 0) eqn:Hc; cbn; split; auto.
    - intros _. apply in_or_app. right. left. reflexivity.
    - intros ->. discriminate. }
  clearbody w2. destruct H2 as (Hdb2 & Hwarn).
  destruct (finalize_list_frame (stmts prj1) w2) as (Hdb3 & _ & _ & Hw3 & _).
  cbv zeta in Hdb3, Hw3.
  set (w3 := fold_left (fun acc stmt => sqlite3_finalize stmt acc)
                       (stmts prj1) w2) in *.
  clearbody w3.
  assert (H4 : w_db (snd (let '(close_result, w4) := sqlite3_close env w3 in
                          if is_ok close_result then (true, w4)
                          else (false,
                                DP_error_set ("Error " +++ CInt.dec close_result
                                              +++ " closing project") w4)))
               = w_db w1
               /\ w_warnings (snd (let '(close_result, w4) :=
                                     sqlite3_close env w3 in
                                   if is_ok close_result then (true, w4)
                                   else (false,
                                         DP_error_set
                                           ("Error " +++ CInt.dec close_result
                                            +++ " closing project") w4)))
                  = w_warnings w2).
  { unfold sqlite3_close. destruct (w_live w3).
    - destruct (env_fault env CallClose); rewrite ?is_ok_code; cbn;
        split; congruence.
    - rewrite is_ok_code. cbn. split; congruence. }
  destruct H4 as (Hdb4 & Hw4). rewrite Hdb4, Hw4.
  split_all.
  - intros H. specialize (Hnone H). injection Hnone as _ _ <-. reflexivity.
  - intros H Hok. destruct (Hres H) as [Hyes _]. apply Hyes. exact Hok.
  - intros H Hbad. destruct (Hres H) as [_ Hno].
    exists (w_error w1). apply Hwarn. apply Hno. exact Hbad.
Qed.

Lemma project_close_ends_session_witness :
  db_sessions (w_db (snd (DP_project_close_ptr quiet_env
                            (Some busy_project) busy_world)))
  = map (close_row (env_now quiet_env) (session_id busy_project))
        (db_sessions (w_db busy_world)).
Proof.
  destruct (project_close_ends_session quiet_env busy_project busy_world)
    as (_ & H & _).
  apply H; [discriminate|reflexivity].
Defined.

(** ** Rows written by the session calls *)







Lemma firstn_written (body rest : list byte) :
  firstn (Z.to_nat (Z.of_nat (List.length body))) (body ++ rest) = body.
Proof.
  rewrite Nat2Z.id, firstn_app, Nat.sub_diag, firstn_all. cbn.
  apply app_nil_r.
Qed.

Lemma message_record_row env msg prj w :
  let r := DP_project_message_record env msg (prj, w) in
  fst r = true ->
  db_messages (w_db (snd (snd r)))
  = db_messages (w_db w)
    ++ [{| mr_session_id := session_id prj;
           mr_sequence_id := CInt.int64 (sequence_id prj + 1);
           mr_recorded_at := env_now env;
           mr_type := DP_message_type msg;
           mr_context_id := DP_message_context_id msg;
           mr_body := Some (message_body msg) |}]
  /\ key_in_use (session_id prj) (CInt.int64 (sequence_id prj + 1))
                (db_messages (w_db w)) = false.
Proof.
  cbv zeta. unfold DP_project_message_record. cbn [fst snd].
  destruct (session_id prj =? 0); [discriminate|].
  unfold DP_message_serialize_body.
  destruct (Z.of_nat (Datatypes.length (message_body msg)) =? 0);
    [discriminate|].
  unfold_statement_calls. split_faults env; try discriminate.
  all: destruct (key_in_use _ _ _) eqn:Hkey; cbn; split_faults env;
    try discriminate;
    intros _; rewrite firstn_written; split; reflexivity.
Qed.

(** A message that is recorded is stored as given: the new row, the last
    of the table, holds the open session, the next sequence number, the
    time of the call and the type, context id and whole body of the
    message, and no row had that session and sequence number before. *)
Theorem message_record_stores_message env msg prj w :
  let r := DP_project_message_record env msg (prj, w) in
  fst r = true ->
  db_messages (w_db (snd (snd r)))
  = db_messages (w_db w)
    ++ [{| mr_session_id := DP_project_session_id prj;
           mr_sequence_id := CInt.int64 (sequence_id prj + 1);
           mr_recorded_at := env_now env;
           mr_type := DP_message_type msg;
           mr_context_id := DP_message_context_id msg;
           mr_body := Some (message_body msg) |}]
  /\ message_body msg <> []
  /\ Forall (fun row => mr_session_id row <> DP_project_session_id prj
                        \/ mr_sequence_id row
                           <> CInt.int64 (sequence_id prj + 1))
            (db_messages (w_db w)).
Proof.
  cbv zeta. intros Hok.
  destruct (message_record_row env msg prj w Hok) as [Hrows Hkey].
  split; [exact Hrows|]. split.
  - intros Hnil. revert Hok. unfold DP_project_message_record.
    cbn [fst snd]. destruct (session_id prj =? 0); [discriminate|].
    unfold DP_message_serialize_body. rewrite Hnil. cbn. discriminate.
  - unfold key_in_use in Hkey. apply Forall_forall. intros row Hin.
    destruct (Z.eq_dec (mr_session_id row) (session_id prj)) as [Hs|Hs];
      [|left; exact Hs].
    destruct (Z.eq_dec (mr_sequence_id row)
                (CInt.int64 (sequence_id prj + 1))) as [Hq|Hq];
      [|right; exact Hq].
    exfalso. assert (Hex : existsb (fun r => (mr_session_id r =? session_id prj)
                                      && (mr_sequence_id r
                                          =? CInt.int64 (sequence_id prj + 1)))
                             (db_messages (w_db w)) = true).
    { apply existsb_exists. exists row. split; [exact Hin|].
      rewrite Hs, Hq, !Z.eqb_refl. reflexivity. }
    congruence.
Qed.

Lemma message_record_stores_message_witness :
  let r := DP_project_message_record quiet_env sample_message
             (busy_project, busy_world) in
  db_messages (w_db (snd (snd r)))
  = db_messages busy_database
    ++ [{| mr_session_id := 2; mr_sequence_id := CInt.int64 (3 + 1);
           mr_recorded_at := 1700000000; mr_type := 64; mr_context_id := 1;
           mr_body := Some [Byte.x01; Byte.x02] |}].
Proof.
  destruct (message_record_stores_message quiet_env sample_message
              busy_project busy_world) as (H & _).
  - vm_compute. reflexivity.
  - exact H.
Defined.


Lemma close_row_id now sid r :
  sr_session_id (close_row now sid r) = sr_session_id r.
Proof. unfold close_row. destruct (sr_session_id r =? sid); reflexivity. Qed.

Lemma close_rows_ids now sid (rows : list SessionRow) :
  map sr_session_id (map (close_row now sid) rows) = map sr_session_id rows.
Proof.
  induction rows as [|r rows IH]; cbn [map]; [reflexivity|].
  rewrite close_row_id, IH. reflexivity.
Qed.

Ltac appended_none := exists []; rewrite app_nil_r; reflexivity.

Lemma session_open_appends env source_type source_param protocol prj w :
  let s' := snd (DP_project_session_open env source_type source_param
                   protocol (prj, w)) in
  db_messages (w_db (snd s')) = db_messages (w_db w)
  /\ exists rows, db_sessions (w_db (snd s')) = db_sessions (w_db w) ++ rows.
Proof.
  cbv zeta. unfold DP_project_session_open. cbn [fst snd].
  destruct (session_id prj =? 0).
  2:{ cbn. split; [reflexivity|appended_none]. }
  unfold_statement_calls. split_faults env;
    (split; [reflexivity|first [appended_none|eexists; reflexivity]]).
Qed.

Lemma session_close_sessions env prj w :
  let s' := snd (DP_project_session_close env (prj, w)) in
  map sr_session_id (db_sessions (w_db (snd s')))
  = map sr_session_id (db_sessions (w_db w))
  /\ List.length (db_sessions (w_db (snd s')))
     = List.length (db_sessions (w_db w)).
Proof.
  cbv zeta. unfold DP_project_session_close. cbn [fst snd].
  destruct (session_id prj =? 0); [cbn; auto|].
  unfold_statement_calls. split_faults env;
    rewrite ?close_rows_ids, ?length_map; auto.
Qed.

Lemma message_record_appends env msg prj w :
  let s' := snd (DP_project_message_record env msg (prj, w)) in
  exists rows, db_messages (w_db (snd s')) = db_messages (w_db w) ++ rows.
Proof.
  cbv zeta. unfold DP_project_message_record. cbn [fst snd].
  destruct (session_id prj =? 0); [cbn; appended_none|].
  unfold DP_message_serialize_body.
  destruct (Z.of_nat (Datatypes.length (message_body msg)) =? 0);
    [cbn; appended_none|].
  unfold_statement_calls. split_faults env;
    try destruct (key_in_use _ _ _); cbn; split_faults env;
    first [appended_none|eexists; reflexivity].
Qed.

(** The store only grows.  No session call removes or rewrites a
    recorded message or adds one out of order, and none removes a
    session or changes a session id: a record appends messages, an open
    appends sessions, a close keeps the sessions and their ids. *)
Theorem session_calls_append_only env prj w :
  (forall msg,
     let s' := snd (DP_project_message_record env msg (prj, w)) in
     (exists rows,
        db_messages (w_db (snd s')) = db_messages (w_db w) ++ rows)
     /\ db_sessions (w_db (snd s')) = db_sessions (w_db w))
  /\ (forall source_type source_param protocol,
        let s' := snd (DP_project_session_open env source_type source_param
                         protocol (prj, w)) in
        db_messages (w_db (snd s')) = db_messages (w_db w)
        /\ exists rows,
             db_sessions (w_db (snd s')) = db_sessions (w_db w) ++ rows)
  /\ (let s' := snd (DP_project_session_close env (prj, w)) in
      db_messages (w_db (snd s')) = db_messages (w_db w)
      /\ map sr_session_id (db_sessions (w_db (snd s')))
         = map sr_session_id (db_sessions (w_db w))).
Proof.
  split; [|split].
  - intros msg. cbv zeta. split; [apply message_record_appends|].
    apply (message_record_frame env msg prj w).
  - intros source_type source_param protocol. apply session_open_appends.
  - cbv zeta. split.
    + apply (session_close_frame env prj w).
    + apply (session_close_sessions env prj w).
Qed.

(** The values bound for a call do not outlive it: once a record of a
    non-empty message in an open session, or a session open, has cleared
    its bindings, the statement holds none, so the engine keeps no
    reference to the serialize buffer. *)
Theorem statement_bindings_cleared env prj w :
  (forall msg,
     session_id prj <> 0 -> message_body msg <> [] ->
     env_fault env
       (CallClearBindings (SqlProject DP_PROJECT_STATEMENT_MESSAGE_INSERT))
     = None ->
     let s' := snd (DP_project_message_record env msg (prj, w)) in
     w_bound (snd s')
     = filter (fun b => negb (ps_eqb (fst (fst b))
                                     DP_PROJECT_STATEMENT_MESSAGE_INSERT))
              (w_bound w))
  /\ (forall source_type source_param protocol,
        session_id prj = 0 ->
        env_fault env
          (CallClearBindings (SqlProject DP_PROJECT_STATEMENT_SESSION_OPEN))
        = None ->
        let s' := snd (DP_project_session_open env source_type source_param
                         protocol (prj, w)) in
        w_bound (snd s')
        = filter (fun b => negb (ps_eqb (fst (fst b))
                                        DP_PROJECT_STATEMENT_SESSION_OPEN))
                 (w_bound w)).
Proof.
  split.
  - intros msg Hsid Hbody Hclear. cbv zeta.
    unfold DP_project_message_record. cbn [fst snd].
    apply Z.eqb_neq in Hsid. rewrite Hsid.
    unfold DP_message_serialize_body.
    assert (Hlen : (Z.of_nat (Datatypes.length (message_body msg)) =? 0)
                   = false).
    { apply Z.eqb_neq. destruct (message_body msg); [congruence|].
      cbn [Datatypes.length]. lia. }
    rewrite Hlen. unfold_statement_calls. rewrite Hclear.
    split_faults env; try destruct (key_in_use _ _ _); cbn;
      split_faults env; reflexivity.
  - intros source_type source_param protocol Hsid Hclear. cbv zeta.
    unfold DP_project_session_open. cbn [fst snd]. rewrite Hsid.
    cbn [Z.eqb]. unfold_statement_calls. rewrite Hclear.
    split_faults env; reflexivity.
Qed.

(** Open, use, close.  A project that was opened, in whatever state the
    session calls have left it since (they keep the statements and the
    connection), is closed by [DP_project_close] with nothing left
    behind: the call returns true, no statement is live and the
    connection is closed, provided the engine's close does not fail. *)
Theorem open_then_close_releases_everything env fs path flags prj w
    env' prj' w' :
  DP_project_open env fs path flags = (Some prj, w) ->
  stmts prj' = stmts prj -> same_connection w w' ->
  env_fault env' CallClose = None ->
  let r := DP_project_close_ptr env' (Some prj') w' in
  fst r = true /\ w_live (snd r) = [] /\ w_connected (snd r) = false.
Proof.
  intros Hopen Hstmts Hconn Hclose. cbv zeta. cbn [DP_project_close_ptr].
  destruct (open_success_spec env fs path flags prj w Hopen)
    as (a & b & c & Hs & Hl & _).
  destruct Hconn as (Hl' & _).
  destruct (close_project_spec env' prj' w' a b c) as (H1 & _ & H2 & _);
    [congruence|congruence|].
  cbv zeta in *. destruct (H2 Hclose) as [H3 H4]. auto.
Qed.

Lemma open_then_close_releases_everything_witness :
  let w := snd (DP_project_open quiet_env (fun _ => None) "a.dppr" 0) in
  let prj := {| session_id := 0; sequence_id := 0;
                stmts := [Some 4%nat; Some 5%nat; Some 6%nat];
                serialize_buffer := [] |} in
  let s' := snd (DP_project_session_open quiet_env DP_PROJECT_SOURCE_BLANK
                   None "dp:4.24.1" (prj, w)) in
  let r := DP_project_close_ptr quiet_env (Some (fst s')) (snd s') in
  fst r = true /\ w_live (snd r) = [] /\ w_connected (snd r) = false.
Proof.
  intros w prj s'.
  assert (H1 : DP_project_open quiet_env (fun _ => None) "a.dppr" 0
               = (Some prj, w)) by (vm_compute; reflexivity).
  assert (H2 : stmts (fst s') = stmts prj) by (vm_compute; reflexivity).
  assert (H3 : same_connection w (snd s')) by (vm_compute; repeat split).
  assert (H4 : env_fault quiet_env CallClose = None) by reflexivity.
  exact (open_then_close_releases_everything quiet_env (fun _ => None)
           "a.dppr" 0 prj w quiet_env (fst s') (snd s') H1 H2 H3 H4).
Defined.

(** [DP_project_check] looks at the first 72 bytes only: two files that
    agree on them, and on whether they can be read, get the same answer,
    whatever else they hold. *)
Theorem project_check_reads_header_only (fs fs' : FileSystem) path d d' :
  fs path = Some d -> fs' path = Some d' ->
  firstn 72 (db_file d) = firstn 72 (db_file d') ->
  db_read_error d = db_read_error d' ->
  DP_project_check fs path = DP_project_check fs' path.
Proof.
  intros Hfs Hfs' Hbytes Herr.
  unfold DP_project_check, DP_file_input_new_from_path, DP_input_read.
  rewrite Hfs, Hfs', Hbytes, Herr. reflexivity.
Qed.

Lemma project_check_reads_header_only_witness :
  DP_project_check (single_file "a.dppr" fresh_project_file) "a.dppr"
  = DP_project_check (single_file "a.dppr" busy_database) "a.dppr".
Proof.
  apply (project_check_reads_header_only
           (single_file "a.dppr" fresh_project_file)
           (single_file "a.dppr" busy_database) "a.dppr"
           fresh_project_file busy_database); reflexivity.
Defined.

(** * More of the client *)

Section NetClientSending.

Context {Message : Type}.
Variable isNull : Message -> bool.
Variable typeName : Message -> string.
Variable makeMessageBackwardCompatible : Message -> Message.

Lemma filter_keeps_warnings (l : list Message) :
  filter (fun e => negb (is_local_echo Message e))
         (map (incompatible_warning Message typeName) l)
  = map (incompatible_warning Message typeName) l.
Proof. induction l as [|x l IH]; cbn; congruence. Qed.

Lemma sent_to_server_app (a b : list (Event Message)) :
  sent_to_server Message (a ++ b)
  = sent_to_server Message a ++ sent_to_server Message b.
Proof. unfold sent_to_server. apply flat_map_app. Qed.

Lemma filter_keeps_compat (msgs : list Message) : forall c,
  m_compatibilityMode Message
    (snd (filterCompatibleMessages Message isNull typeName
            makeMessageBackwardCompatible msgs c))
  = m_compatibilityMode Message c.
Proof.
  induction msgs as [|msg rest IH]; intros c; cbn [filterCompatibleMessages].
  { reflexivity. }
  destruct (isNull (makeMessageBackwardCompatible msg)).
  - rewrite IH. reflexivity.
  - specialize (IH c).
    destruct (filterCompatibleMessages Message isNull typeName
                makeMessageBackwardCompatible rest c) as [kept c1].
    exact IH.
Qed.

(** The two ways out, side by side: what each emits for a batch that is
    already compatible. *)
Lemma send_compatible_events (msgs : list Message) (c : Client Message) :
  let out := if m_server Message c
             then server_sendMessages Message msgs
             else messagesReceived Message msgs in
  events Message (sendCompatibleMessages Message msgs c)
  = events Message c
    ++ match msgs with
       | [] => []
       | _ => [drawingCommandsLocal Message msgs; out]
       end
  /\ events Message (sendCompatibleResetMessages Message msgs c)
     = events Message c ++ match msgs with [] => [] | _ => [out] end.
Proof.
  cbv zeta. unfold sendCompatibleMessages, sendCompatibleResetMessages,
    count_of.
  destruct msgs as [|m rest].
  { cbn. rewrite app_nil_r. auto. }
  replace (0 <? Z.of_nat (Datatypes.length (m :: rest))) with true
    by (symmetry; apply Z.ltb_lt; cbn [Datatypes.length]; lia).
  cbn [m_server emit]. destruct (m_server Message c); cbn [events emit];
    rewrite <- ?app_assoc; split; reflexivity.
Qed.

(** What [sendMessages] and [sendResetMessages] emit for a batch: the
    warnings of the filter, then the batch that is left, if any. *)
Lemma send_events (msgs : list Message) (c : Client Message) :
  let batch := if m_compatibilityMode Message c
               then map makeMessageBackwardCompatible
                        (filter (translatable Message isNull
                                   makeMessageBackwardCompatible) msgs)
               else msgs in
  let warnings := if m_compatibilityMode Message c
                  then map (incompatible_warning Message typeName)
                           (filter (fun m => negb (translatable Message isNull
                                      makeMessageBackwardCompatible m)) msgs)
                  else [] in
  let out := if m_server Message c
             then server_sendMessages Message batch
             else messagesReceived Message batch in
  events Message (sendMessages Message isNull typeName
                    makeMessageBackwardCompatible msgs c)
  = events Message c ++ warnings
    ++ match batch with
       | [] => []
       | _ => [drawingCommandsLocal Message batch; out]
       end
  /\ events Message (sendResetMessages Message isNull typeName
                       makeMessageBackwardCompatible msgs c)
     = events Message c ++ warnings
       ++ match batch with [] => [] | _ => [out] end.
Proof.
  cbv zeta. unfold sendMessages, sendResetMessages.
  destruct (m_compatibilityMode Message c).
  - destruct (filterCompatibleMessages_spec isNull typeName
                makeMessageBackwardCompatible msgs c) as (Hkept & Hev & Hsrv).
    cbv zeta in *.
    destruct (filterCompatibleMessages Message isNull typeName
                makeMessageBackwardCompatible msgs c) as [kept c1].
    cbn [fst snd] in *.
    destruct (send_compatible_events kept c1) as [H1 H2]. cbv zeta in *.
    rewrite H1, H2, Hev, Hsrv, Hkept, <- !app_assoc. auto.
  - destruct (send_compatible_events msgs c) as [H1 H2]. cbv zeta in *.
    rewrite H1, H2. cbn [app]. auto.
Qed.

(** Reset messages take the way of ordinary messages, through the same
    filter and to the same destination, but are never echoed to the
    local canvas as drawing commands: the events of [sendResetMessages]
    are those of [sendMessages] without the echo. *)
Theorem reset_messages_skip_local_echo (msgs : list Message)
    (c : Client Message) :
  exists evs,
    events Message (sendMessages Message isNull typeName
                      makeMessageBackwardCompatible msgs c)
    = events Message c ++ evs
    /\ events Message (sendResetMessages Message isNull typeName
                         makeMessageBackwardCompatible msgs c)
       = events Message c
         ++ filter (fun e => negb (is_local_echo Message e)) evs
    /\ sent_to_server Message
         (events Message (sendResetMessages Message isNull typeName
                            makeMessageBackwardCompatible msgs c))
       = sent_to_server Message
           (events Message (sendMessages Message isNull typeName
                              makeMessageBackwardCompatible msgs c)).
Proof.
  destruct (send_events msgs c) as [H1 H2]. cbv zeta in *.
  rewrite H1, H2. eexists. split; [reflexivity|].
  rewrite !filter_app, !sent_to_server_app.
  destruct (m_compatibilityMode Message c).
  - rewrite filter_keeps_warnings.
    destruct (map makeMessageBackwardCompatible _) as [|m rest];
      destruct (m_server Message c); cbn; auto.
  - destruct msgs as [|m rest]; destruct (m_server Message c); cbn; auto.
Qed.

(** No empty batch leaves the client: whatever the mode, the batches
    [sendMessages] and [sendResetMessages] hand to the server are not
    empty, and neither sends more than one. *)
Theorem never_sends_empty_batch (msgs : list Message) (c : Client Message) :
  (exists batches,
     sent_to_server Message
       (events Message (sendMessages Message isNull typeName
                          makeMessageBackwardCompatible msgs c))
     = sent_to_server Message (events Message c) ++ batches
     /\ Forall (fun batch => batch <> []) batches
     /\ (List.length batches <= 1)%nat)
  /\ (exists batches,
        sent_to_server Message
          (events Message (sendResetMessages Message isNull typeName
                             makeMessageBackwardCompatible msgs c))
        = sent_to_server Message (events Message c) ++ batches
        /\ Forall (fun batch => batch <> []) batches
        /\ (List.length batches <= 1)%nat).
Proof.
  destruct (send_events msgs c) as [H1 H2]. cbv zeta in *.
  rewrite H1, H2, !sent_to_server_app.
  assert (Hw : sent_to_server Message
                 (if m_compatibilityMode Message c
                  then map (incompatible_warning Message typeName)
                         (filter (fun m => negb (translatable Message isNull
                                    makeMessageBackwardCompatible m)) msgs)
                  else []) = []).
  { destruct (m_compatibilityMode Message c);
      [apply warnings_send_nothing|reflexivity]. }
  rewrite Hw. cbn [app].
  set (batch := if m_compatibilityMode Message c then _ else msgs).
  clearbody batch.
  split; eexists; (split; [reflexivity|]);
    destruct batch as [|m rest]; destruct (m_server Message c); cbn;
    split; try lia; repeat constructor; discriminate.
Qed.

(** After a disconnect everything sent stays local and unfiltered: a
    batch goes to the local canvas once as drawing commands and once as
    received messages, exactly as given, whatever the mode of the
    connection was. *)
Theorem disconnected_client_loops_back (msgs : list Message)
    (c : Client Message) :
  msgs <> [] ->
  let c1 := handleDisconnect Message c in
  events Message (sendMessages Message isNull typeName
                    makeMessageBackwardCompatible msgs c1)
  = events Message c
    ++ [signal Message "serverDisconnected";
        drawingCommandsLocal Message msgs; messagesReceived Message msgs]
  /\ sent_to_server Message
       (events Message (sendMessages Message isNull typeName
                          makeMessageBackwardCompatible msgs c1))
     = sent_to_server Message (events Message c).
Proof.
  intros Hne. cbv zeta.
  destruct (send_events msgs (handleDisconnect Message c)) as [H1 _].
  cbv zeta in H1. cbn [handleDisconnect m_compatibilityMode m_server events]
    in H1.
  rewrite H1. destruct msgs as [|m rest]; [congruence|].
  cbn [app]. rewrite <- app_assoc. cbn [app]. split; [reflexivity|].
  rewrite sent_to_server_app. cbn. apply app_nil_r.
Qed.

End NetClientSending.

Section NetClientReceiving.

Context {Message : Type}.
Variable msg_type : Message -> MessageType.
Variable fromMessage : Message -> ServerReply.
Variable setIndirectCompatFlag : Message -> Message.
Variable handleData_signals : Z -> Message -> list string.

Lemma received_batches_app (a b : list (Event Message)) :
  received_batches Message (a ++ b)
  = received_batches Message a ++ received_batches Message b.
Proof. unfold received_batches. apply flat_map_app. Qed.

(** A handler that only emits events. *)
Lemma handleData_events (msg : Message) (c : Client Message) :
  let c' := handleData Message handleData_signals msg c in
  events Message c'
  = events Message c
    ++ map (signal Message) (handleData_signals (m_myId Message c) msg)
  /\ m_compatibilityMode Message c' = m_compatibilityMode Message c
  /\ m_server Message c' = m_server Message c
  /\ counters Message c' = counters Message c.
Proof.
  cbv zeta. unfold handleData.
  generalize (handleData_signals (m_myId Message c) msg). intros names.
  revert c. induction names as [|name names IH]; intros c; cbn [fold_left map].
  { rewrite app_nil_r. auto. }
  destruct (IH (emit Message (signal Message name) c)) as (H1 & H2 & H3 & H4).
  rewrite H1, H2, H3, H4. cbn [events emit]. rewrite <- app_assoc. auto.
Qed.

Lemma handleServerReply_events (msg : ServerReply) (c : Client Message) :
  let c' := handleServerReply Message msg c in
  exists evs,
    events Message c' = events Message c ++ evs
    /\ received_batches Message evs = []
    /\ m_compatibilityMode Message c' = m_compatibilityMode Message c
    /\ m_server Message c' = m_server Message c
    /\ (reply_type msg <> ReplyCatchup ->
        forallb is_notice evs = true
        /\ counters Message c' = counters Message c).
Proof.
  cbv zeta. unfold handleServerReply, handleResetRequest.
  destruct (reply_type msg);
    try (eexists; cbn [events emit];
         split; [reflexivity|]; split; [reflexivity|];
         split; [reflexivity|]; split; [reflexivity|];
         intros _; split; reflexivity).
  - exists []. rewrite app_nil_r. auto 10.
  - destruct (String.eqb (reply_state msg) "init");
      [|destruct (String.eqb (reply_state msg) "reset")];
      eexists; cbn [events emit]; rewrite <- ?app_assoc;
      (split; [reflexivity|]); auto 10.
  - eexists. cbn [events emit set_catchup]. rewrite <- !app_assoc.
    split; [reflexivity|]. split; [reflexivity|]. split; [reflexivity|].
    split; [reflexivity|]. congruence.
Qed.

(** The loop of [handleMessages] marks the drawing messages in
    compatibility mode and leaves every other message as it came; the
    handlers it calls deliver nothing themselves. *)
Lemma dispatch_events (msgs : list Message) : forall c : Client Message,
  let r := dispatch Message msg_type fromMessage setIndirectCompatFlag
             handleData_signals msgs c in
  fst r = map (fun msg => if m_compatibilityMode Message c
                             && is_draw_dabs (msg_type msg)
                          then setIndirectCompatFlag msg else msg) msgs
  /\ m_compatibilityMode Message (snd r) = m_compatibilityMode Message c
  /\ m_server Message (snd r) = m_server Message c
  /\ exists evs,
       events Message (snd r) = events Message c ++ evs
       /\ received_batches Message evs = []
       /\ (Forall (announces_no_catchup Message msg_type fromMessage) msgs ->
           forallb is_notice evs = true
           /\ counters Message (snd r) = counters Message c).
Proof.
  induction msgs as [|msg rest IH]; intros c; cbn [dispatch map].
  { cbn. split_all; auto. exists []. rewrite app_nil_r. auto. }
  assert (Hhead :
    let h := match msg_type msg with
             | DP_MSG_SERVER_COMMAND =>
                 (msg, handleServerReply Message (fromMessage msg) c)
             | DP_MSG_DATA => (msg, handleData Message handleData_signals msg c)
             | DP_MSG_DRAW_DABS_CLASSIC | DP_MSG_DRAW_DABS_PIXEL
             | DP_MSG_DRAW_DABS_PIXEL_SQUARE =>
                 if m_compatibilityMode Message c
                 then (setIndirectCompatFlag msg, c) else (msg, c)
             | DP_MSG_OTHER => (msg, c)
             end in
    fst h = (if m_compatibilityMode Message c && is_draw_dabs (msg_type msg)
             then setIndirectCompatFlag msg else msg)
    /\ m_compatibilityMode Message (snd h) = m_compatibilityMode Message c
    /\ m_server Message (snd h) = m_server Message c
    /\ exists evs,
         events Message (snd h) = events Message c ++ evs
         /\ received_batches Message evs = []
         /\ (announces_no_catchup Message msg_type fromMessage msg ->
             forallb is_notice evs = true
             /\ counters Message (snd h) = counters Message c)).
  { cbv zeta. unfold announces_no_catchup.
    destruct (msg_type msg) eqn:Htype; cbn [is_draw_dabs fst snd];
      rewrite ?andb_false_r, ?andb_true_r.
    - destruct (handleServerReply_events (fromMessage msg) c)
        as (evs & H1 & H2 & H3 & H4 & H5). cbv zeta in *.
      split_all; auto. exists evs. split_all; auto.
    - destruct (handleData_events msg c) as (H1 & H2 & H3 & H4).
      cbv zeta in *. split_all; auto.
      eexists. split; [exact H1|]. split.
      + generalize (handleData_signals (m_myId Message c) msg).
        intros names. induction names; cbn; auto.
      + intros _. split; [|exact H4].
        generalize (handleData_signals (m_myId Message c) msg).
        intros names. induction names; cbn; auto.
    - destruct (m_compatibilityMode Message c) eqn:Hmode; cbn [fst snd];
        split_all; auto; exists []; rewrite app_nil_r; auto.
    - destruct (m_compatibilityMode Message c) eqn:Hmode; cbn [fst snd];
        split_all; auto; exists []; rewrite app_nil_r; auto.
    - destruct (m_compatibilityMode Message c) eqn:Hmode; cbn [fst snd];
        split_all; auto; exists []; rewrite app_nil_r; auto.
    - split_all; auto. exists []. rewrite app_nil_r. auto. }
  cbv zeta in Hhead.
  destruct (match msg_type msg with
            | DP_MSG_SERVER_COMMAND => _
            | _ => _
            end) as [msg1 c1].
  cbn [fst snd] in Hhead.
  destruct Hhead as (Hm & Hc & Hs & evs1 & He & Hr & Hn).
  specialize (IH c1). cbv zeta in IH.
  destruct (dispatch Message msg_type fromMessage setIndirectCompatFlag
              handleData_signals rest c1) as [rest1 c2].
  cbn [fst snd] in *.
  destruct IH as (Hrest & Hc2 & Hs2 & evs2 & He2 & Hr2 & Hn2).
  rewrite Hc in Hrest. split_all; try congruence.
  exists (evs1 ++ evs2). split_all.
  - rewrite He2, He, <- app_assoc. reflexivity.
  - rewrite received_batches_app, Hr, Hr2. reflexivity.
  - intros Hall. inversion Hall as [|? ? Hhd Htl]; subst.
    destruct (Hn Hhd) as [Hn1 Hk1]. destruct (Hn2 Htl) as [Hn3 Hk2].
    rewrite forallb_app, Hn1, Hn3. split; [reflexivity|congruence].
Qed.

Lemma catchup_step_events (count : Z) (c : Client Message) :
  let c' := catchup_step Message count c in
  m_compatibilityMode Message c' = m_compatibilityMode Message c
  /\ m_server Message c' = m_server Message c
  /\ (exists evs,
        events Message c' = events Message c ++ evs
        /\ received_batches Message evs = [])
  /\ (m_catchupTo Message c <= 0 -> c' = c).
Proof.
  cbv zeta. unfold catchup_step.
  destruct (0 <? m_catchupTo Message c) eqn:Hpos.
  2:{ split_all; auto. exists []. rewrite app_nil_r. auto. }
  apply Z.ltb_lt in Hpos.
  cbn [m_catchupTo set_catchup m_caughtUp m_catchupProgress emit].
  destruct (m_catchupTo Message c <=? _).
  - cbn. split_all; auto; [|lia]. eexists. rewrite <- !app_assoc.
    split; reflexivity.
  - destruct (negb _); cbn; split_all; auto; try lia.
    + eexists. split; reflexivity.
    + exists []. rewrite app_nil_r. auto.
Qed.

(** Every incoming batch reaches the canvas exactly once, whole and in
    order, whatever server commands it holds: [handleMessages] emits one
    [messagesReceived], with the messages as they came except that
    drawing messages carry the indirect flag in compatibility mode. *)
Theorem handleMessages_delivers_batch (msgs : list Message)
    (c : Client Message) :
  let c' := handleMessages Message msg_type fromMessage setIndirectCompatFlag
              handleData_signals msgs c in
  received_batches Message (events Message c')
  = received_batches Message (events Message c)
    ++ [map (fun msg => if m_compatibilityMode Message c
                           && is_draw_dabs (msg_type msg)
                        then setIndirectCompatFlag msg else msg) msgs]
  /\ (m_compatibilityMode Message c = false ->
      received_batches Message (events Message c')
      = received_batches Message (events Message c) ++ [msgs])
  /\ m_compatibilityMode Message c' = m_compatibilityMode Message c
  /\ m_server Message c' = m_server Message c.
Proof.
  cbv zeta. unfold handleMessages.
  destruct (dispatch_events msgs c) as (Hm & Hc & Hs & evs & He & Hr & _).
  cbv zeta in *.
  destruct (dispatch Message msg_type fromMessage setIndirectCompatFlag
              handleData_signals msgs c) as [msgs1 c1].
  cbn [fst snd] in *.
  destruct (catchup_step_events (count_of Message msgs)
              (emit Message (messagesReceived Message msgs1) c1))
    as (Hc2 & Hs2 & (evs2 & He2 & Hr2) & _).
  cbv zeta in *. rewrite He2, Hc2, Hs2. cbn [events emit m_compatibilityMode
                                               m_server].
  rewrite He, !received_batches_app, Hr, Hr2, Hm. cbn [received_batches
    flat_map app]. rewrite !app_nil_r.
  split_all; auto.
  intros Hoff. rewrite Hoff. cbn [andb]. rewrite map_id. reflexivity.
Qed.

Lemma smooth_settings_app (a b : list (Event Message)) :
  smooth_settings (a ++ b) = smooth_settings a ++ smooth_settings b.
Proof. unfold smooth_settings. apply flat_map_app. Qed.

Lemma notices_are_silent (evs : list (Event Message)) :
  forallb is_notice evs = true ->
  progress_values Message evs = [] /\ smooth_settings evs = [].
Proof.
  induction evs as [|e evs IH]; cbn [forallb]; [auto|].
  intros H. apply andb_prop in H as [He Hevs]. destruct (IH Hevs) as [H1 H2].
  destruct e; cbn in He; try discriminate; cbn; auto.
Qed.

(** Without a catch-up under way, a batch that announces none changes
    neither the counters, nor the progress notified, nor the
    smoothing. *)
Lemma handleMessages_idle (msgs : list Message) (c : Client Message) :
  m_catchupTo Message c <= 0 ->
  Forall (announces_no_catchup Message msg_type fromMessage) msgs ->
  let c' := handleMessages Message msg_type fromMessage setIndirectCompatFlag
              handleData_signals msgs c in
  counters Message c' = counters Message c
  /\ progress_values Message (events Message c')
     = progress_values Message (events Message c)
  /\ smooth_settings (events Message c') = smooth_settings (events Message c).
Proof.
  intros Hidle Hall. cbv zeta. unfold handleMessages.
  destruct (dispatch_events msgs c) as (_ & _ & _ & evs & He & _ & Hn).
  cbv zeta in *. destruct (Hn Hall) as [Hnotice Hcounters].
  destruct (dispatch Message msg_type fromMessage setIndirectCompatFlag
              handleData_signals msgs c) as [msgs1 c1].
  cbn [fst snd] in *.
  destruct (catchup_step_events (count_of Message msgs)
              (emit Message (messagesReceived Message msgs1) c1))
    as (_ & _ & _ & Hsame).
  cbv zeta in Hsame. rewrite Hsame.
  2:{ cbn [emit m_catchupTo]. unfold counters in Hcounters.
      injection Hcounters as Hto _ _. rewrite Hto. exact Hidle. }
  destruct (notices_are_silent evs Hnotice) as [Hp Hs].
  cbn [events emit]. rewrite He.
  rewrite !progress_values_app, !smooth_settings_app, Hp, Hs. cbn.
  rewrite !app_nil_r. split_all; auto.
Qed.

(** A catch-up to nothing is over at once: when the server announces a
    count of zero or less, 100 is notified with the announcement and no
    batch that follows notifies progress.  The smoothing that the
    announcement switched off is not switched on again. *)
Theorem empty_catchup_completes_at_once (target : Z)
    (batches : list (list Message)) (c : Client Message) :
  target <= 0 ->
  Forall (Forall (announces_no_catchup Message msg_type fromMessage))
         batches ->
  let c' := catchup_run Message msg_type fromMessage setIndirectCompatFlag
              handleData_signals target batches c in
  progress_values Message (events Message c')
  = progress_values Message (events Message c) ++ [100]
  /\ smooth_settings (events Message c')
     = smooth_settings (events Message c) ++ [false]
  /\ counters Message c' = (target, 0, 0).
Proof.
  intros Htarget Hbatches. cbv zeta. unfold catchup_run.
  set (c0 := handleServerReply Message
               {| reply_type := ReplyCatchup; reply_count := target;
                  reply_state := "" |} c).
  assert (H0 : progress_values Message (events Message c0)
               = progress_values Message (events Message c) ++ [100]
               /\ smooth_settings (events Message c0)
                  = smooth_settings (events Message c) ++ [false]
               /\ counters Message c0 = (target, 0, 0)).
  { subst c0. unfold handleServerReply.
    cbn [reply_type reply_count events emit set_catchup counters m_catchupTo
         m_caughtUp m_catchupProgress].
    replace (0 <? target) with false by (symmetry; apply Z.ltb_ge; lia).
    rewrite !progress_values_app, !smooth_settings_app. cbn.
    rewrite !app_nil_r. auto. }
  clearbody c0. destruct H0 as (Hp & Hs & Hk). rewrite <- Hp, <- Hs, <- Hk.
  assert (Hidle : m_catchupTo Message c0 <= 0).
  { unfold counters in Hk. injection Hk as -> _ _. exact Htarget. }
  clear Hp Hs Hk. revert c0 Hidle.
  induction Hbatches as [|msgs rest Hmsgs Hrest IH]; intros c0 Hidle;
    cbn [fold_left]; [auto|].
  destruct (handleMessages_idle msgs c0 Hidle Hmsgs) as (Hk & Hp & Hs).
  cbv zeta in *. rewrite <- Hk, <- Hp, <- Hs. apply IH.
  unfold counters in Hk. injection Hk as -> _ _. exact Hidle.
Qed.

End NetClientReceiving.

Lemma disconnected_client_loops_back_witness :
  events SampleMessage
    (sendMessages SampleMessage sample_isNull sample_typeName
       sample_compatible [SampleSelection; SampleStroke 7]
       (handleDisconnect SampleMessage (sample_client true true)))
  = [signal SampleMessage "serverDisconnected";
     drawingCommandsLocal SampleMessage [SampleSelection; SampleStroke 7];
     messagesReceived SampleMessage [SampleSelection; SampleStroke 7]].
Proof.
  destruct (disconnected_client_loops_back sample_isNull sample_typeName
              sample_compatible [SampleSelection; SampleStroke 7]
              (sample_client true true)) as [H _].
  - discriminate.
  - exact H.
Defined.

Lemma empty_catchup_completes_at_once_witness :
  progress_values SampleMessage
    (events SampleMessage
       (catchup_run SampleMessage sample_type sample_reply sample_flag
          sample_signals 0 [[SampleStroke 1]; [SampleStroke 2]]
          (sample_client true false)))
  = [100].
Proof.
  destruct (empty_catchup_completes_at_once sample_type sample_reply
              sample_flag sample_signals 0
              [[SampleStroke 1]; [SampleStroke 2]]
              (sample_client true false)) as [H _].
  - lia.
  - repeat constructor; intros Htype; discriminate.
  - exact H.
Defined.


Lemma message_record_sequence_ids_interleaved_witness :
  let calls :=
    [api_message_record quiet_env sample_message;
     api_session_open quiet_env DP_PROJECT_SOURCE_BLANK None "dp:4.24.1";
     api_session_id;
     api_message_record quiet_env sample_message] in
  let opened :=
    DP_project_session_open quiet_env DP_PROJECT_SOURCE_BLANK None
      "dp:4.24.1" (sample_project, sample_world) in
  exists rows,
    db_messages (w_db (snd (snd (api_run calls (snd opened)))))
    = db_messages (w_db (snd (snd opened))) ++ rows
    /\ map mr_sequence_id rows = [1; 2].
Proof.
  cbv zeta.
  destruct (message_record_sequence_ids_interleaved quiet_env
              DP_PROJECT_SOURCE_BLANK None "dp:4.24.1" sample_project
              sample_world
              [api_message_record quiet_env sample_message;
               api_session_open quiet_env DP_PROJECT_SOURCE_BLANK None
                 "dp:4.24.1";
               api_session_id;
               api_message_record quiet_env sample_message])
    as (rows & H1 & H2 & _).
  - vm_compute. reflexivity.
  - vm_compute. discriminate.
  - vm_compute. repeat constructor.
  - exists rows. split; [exact H1|exact H2].
Defined.

Lemma statement_bindings_cleared_witness :
  w_bound (snd (snd (DP_project_message_record quiet_env sample_message
                       (busy_project, busy_world))))
  = [].
Proof.
  destruct (statement_bindings_cleared quiet_env busy_project busy_world)
    as [H _].
  apply (H sample_message); [discriminate|discriminate|reflexivity].
Defined.

Lemma handleMessages_delivers_batch_witness :
  received_batches SampleMessage
    (events SampleMessage
       (handleMessages SampleMessage sample_type sample_reply sample_flag
          sample_signals [SampleCatchup 5; SampleStroke 1]
          (sample_client true false)))
  = [[SampleCatchup 5; SampleStroke 1]].
Proof.
  destruct (handleMessages_delivers_batch sample_type sample_reply
              sample_flag sample_signals [SampleCatchup 5; SampleStroke 1]
              (sample_client true false)) as (_ & H & _).
  apply H. reflexivity.
Defined.
